(** * ble_gateway: buffering, filtering and re-encoding of BLE advertisements

    A shallow embedding of the core of [ble_gateway.py]: the [BLEMessage]
    encoders ([_reconstruct_advertising_data], [to_gprp_format], [to_json]),
    the [MessageBuffer], the [PayloadFilter], the flush and shutdown paths
    of [BluetoothGateway] and the policy checks of [load_config]; then
    the detection callback and runs of detections and polls, and the
    start-up path: the overrides of [main], the buffer, the filter and the
    gateway id that [BluetoothGateway.__init__] builds, and the
    authentication settings of [MQTTPublisher].

    Conventions of the embedding.
    - A Python [str] is a [string]; its characters stand for code points.
      [str.upper] and the JSON escapes are modelled on ASCII text, which is
      what device addresses, UUID strings and hexadecimal text are.
    - A Python [bytes] is a [list byte].
    - A Python [int] is a [Z]; a Python [float] is a binary64 value of
      [SpecFloat] (the integer-only specification of IEEE 754 arithmetic).
    - A Python [dict] is an association list in insertion order with
      pairwise distinct keys ([pydict]); iteration follows the list.
    - A Python [set] is a [gset].
    - An exception is the [Raise] branch of [result]. *)

From Stdlib Require Import ZArith NArith String Ascii List Bool Lia.
From Stdlib Require Import SpecFloat.
From Stdlib Require Strings.Byte.
From stdpp Require Import base option list gmap strings pretty.

Local Open Scope string_scope.
Local Open Scope list_scope.
Local Open Scope Z_scope.

(** ** Exceptions *)

Inductive exn : Set :=
  | ValueError
  | OverflowError
  | ZeroDivisionError
  | TypeError
  | AttributeError
  | KeyError
  | FileNotFoundError.

Inductive result (A : Type) : Type :=
  | Ok (a : A)
  | Raise (e : exn).

Arguments Ok {A} a.
Arguments Raise {A} e.

(** Sequencing: an exception ends the computation. *)
Definition bind {A B : Type} (m : result A) (f : A -> result B) : result B :=
  match m with
  | Ok a => f a
  | Raise e => Raise e
  end.

Notation "x <- m ;; k" := (bind m (fun x => k))
  (at level 20, m at level 99, k at level 200, only parsing).
Notation "' p <- m ;; k" := (bind m (fun x => match x with p => k end))
  (at level 20, p pattern, m at level 99, k at level 200, only parsing).

(** A [for] loop whose body may raise: the state is threaded from left to
    right and the first exception ends the loop. *)
Fixpoint for_each {A S : Type} (body : S -> A -> result S) (l : list A) (s : S)
  : result S :=
  match l with
  | [] => Ok s
  | x :: l' => s' <- body s x ;; for_each body l' s'
  end.

(** ** Python [str] *)

Module Str.

Definition is_lower (c : ascii) : bool :=
    (97 <=? Z.of_N (N_of_ascii c)) && (Z.of_N (N_of_ascii c) <=? 122).

Definition upper_char (c : ascii) : ascii :=
    if is_lower c then ascii_of_N (N_of_ascii c - 32) else c.

  (** [s.upper()] *)
Fixpoint upper (s : string) : string :=
    match s with
    | EmptyString => EmptyString
    | String c s' => String (upper_char c) (upper s')
    end.

  (** [s.replace(c, new)] for a one-character pattern [c]. *)
Fixpoint replace (c : ascii) (new : string) (s : string) : string :=
    match s with
    | EmptyString => EmptyString
    | String a s' =>
        if Ascii.eqb a c then new +:+ replace c new s'
        else String a (replace c new s')
    end.

  (** [sub in s] for strings. *)
Fixpoint contains (sub s : string) : bool :=
    String.prefix sub s ||
    match s with
    | EmptyString => false
    | String _ s' => contains sub s'
    end.

  (** [str(n)] for an [int]. *)
Definition of_int (n : Z) : string := pretty n.

Definition all_chars (P : ascii -> bool) (s : string) : bool :=
    forallb P (list_ascii_of_string s).

End Str.

(** ** Python [bytes] and [bytearray] *)

Abbreviation byte := Byte.byte.
Abbreviation bytes := (list Byte.byte).

Module Bytes.

  (** The range check of [bytearray.append]: an [int] outside
      [range(0, 256)] raises [ValueError]. *)
Definition byte_of_int (n : Z) : result byte :=
    if n <? 0 then Raise ValueError
    else match Byte.of_N (Z.to_N n) with
         | Some b => Ok b
         | None => Raise ValueError
         end.

Definition int_of_byte (b : byte) : Z := Z.of_N (Byte.to_N b).

  (** [packet.append(n)] *)
Definition append (packet : bytes) (n : Z) : result bytes :=
    b <- byte_of_int n ;; Ok (packet ++ [b]).

  (** [packet.extend(bs)] *)
Definition extend (packet : bytes) (bs : bytes) : bytes := packet ++ bs.

Definition hex_digit (n : Z) : ascii :=
    if n <? 10 then ascii_of_N (Z.to_N (48 + n))
    else ascii_of_N (Z.to_N (87 + n)).

  (** [bs.hex()]: two lower-case digits per byte. *)
Fixpoint hex (bs : bytes) : string :=
    match bs with
    | [] => EmptyString
    | b :: bs' =>
        String (hex_digit (int_of_byte b / 16))
          (String (hex_digit (int_of_byte b mod 16)) (hex bs'))
    end.

  (** The value of a hexadecimal digit, either case. *)
Definition digit_value (c : ascii) : option Z :=
    let n := Z.of_N (N_of_ascii c) in
    if (48 <=? n) && (n <=? 57) then Some (n - 48)
    else if (97 <=? n) && (n <=? 102) then Some (n - 87)
    else if (65 <=? n) && (n <=? 70) then Some (n - 55)
    else None.

  (** ASCII white space, which [bytes.fromhex] skips between bytes. *)
Definition is_space (c : ascii) : bool :=
    let n := Z.of_N (N_of_ascii c) in
    (n =? 32) || ((9 <=? n) && (n <=? 13)).

  (** [bytes.fromhex(s)]: pairs of hexadecimal digits, white space allowed
      between pairs; anything else raises [ValueError]. *)
Fixpoint fromhex (s : string) : result bytes :=
    match s with
    | EmptyString => Ok []
    | String c s' =>
        if is_space c then fromhex s'
        else
          match digit_value c, s' with
          | Some top, String d s'' =>
              match digit_value d with
              | Some bot =>
                  b <- byte_of_int (top * 16 + bot) ;;
                  rest <- fromhex s'' ;;
                  Ok (b :: rest)
              | None => Raise ValueError
              end
          | _, _ => Raise ValueError
          end
    end.

End Bytes.

(** ** Python [float]: IEEE 754 binary64 *)

Module Float.

Definition prec : Z := 53.
Definition emax : Z := 1024.

  (** [float(n)] for an [int]: rounded to nearest, ties to even;
      [OverflowError] when [n] is too large for a double. *)
Definition of_int (n : Z) : result spec_float :=
    match binary_normalize prec emax n 0 false with
    | S754_infinity _ => Raise OverflowError
    | f => Ok f
    end.

Definition is_zero (f : spec_float) : bool :=
    match f with S754_zero _ => true | _ => false end.

  (** [x / y] on floats. *)
Definition truediv (x y : spec_float) : result spec_float :=
    if is_zero y then Raise ZeroDivisionError else Ok (SFdiv prec emax x y).

  (** [x - y] on floats. *)
Definition sub (x y : spec_float) : spec_float := SFsub prec emax x y.

  (** The literal [1000.0]. *)
Definition f1000 : spec_float := S754_finite false 8796093022208000 (-43).

  (** [n / 1000.0] for an [int] [n]. *)
Definition int_div_1000 (n : Z) : result spec_float :=
    x <- of_int n ;; truediv x f1000.

  (** Division of a non-negative numerator by a positive denominator,
      rounded to the nearest integer, ties to even. *)
Definition div_half_even (a b : Z) : Z :=
    let q := a / b in
    let r := a mod b in
    match 2 * r ?= b with
    | Lt => q
    | Gt => q + 1
    | Eq => if Z.even q then q else q + 1
    end.

  (** The magnitude of a finite float times 1000, rounded to an integer
      (ties to even): what the conversion [.3f] prints, without the point. *)
Definition thousandths (m : positive) (e : Z) : Z :=
    match e with
    | Zneg k => div_half_even (Zpos m * 1000) (2 ^ Zpos k)
    | _ => Zpos m * 2 ^ e * 1000
    end.

Definition pad3 (n : Z) : string :=
    (if n <? 100 then "0" else EmptyString)
      +:+ (if n <? 10 then "0" else EmptyString)
      +:+ pretty n.

Definition sign_str (s : bool) : string := if s then "-" else EmptyString.

  (** [f"{x:.3f}"] *)
Definition format_3f (x : spec_float) : string :=
    match x with
    | S754_nan => "nan"
    | S754_infinity s => sign_str s +:+ "inf"
    | S754_zero s => sign_str s +:+ "0.000"
    | S754_finite s m e =>
        let n := thousandths m e in
        sign_str s +:+ pretty (n / 1000) +:+ "." +:+ pad3 (n mod 1000)
    end.

End Float.

(** ** Python [dict]: insertion-ordered association list *)

Abbreviation pydict K V := (list (K * V)).

Module Dict.
  Section Ops.
    Context {K V : Type} `{EqDecision K}.

    (** [d[k] = v]: an existing key keeps its position and takes the new
        value, a new key goes to the end. *)
Fixpoint setitem (k : K) (v : V) (d : pydict K V) : pydict K V :=
      match d with
      | [] => [(k, v)]
      | (k', v') :: d' =>
          if decide (k' = k) then (k', v) :: d'
          else (k', v') :: setitem k v d'
      end.

    (** [d.get(k)] *)
Fixpoint get (k : K) (d : pydict K V) : option V :=
      match d with
      | [] => None
      | (k', v') :: d' => if decide (k' = k) then Some v' else get k d'
      end.

    (** [k in d] *)
Definition mem (k : K) (d : pydict K V) : bool :=
      match get k d with Some _ => true | None => false end.

Definition items (d : pydict K V) : list (K * V) := d.
Definition keys (d : pydict K V) : list K := map fst d.
Definition values (d : pydict K V) : list V := map snd d.
Definition len (d : pydict K V) : Z := Z.of_nat (length d).

    (** A dictionary built by successive assignments, as a dict
        comprehension or [dict(pairs)] does. *)
Definition of_pairs (l : list (K * V)) : pydict K V :=
      fold_left (fun d kv => setitem (fst kv) (snd kv) d) l [].

    (** The keys of a dictionary are pairwise distinct. *)
Definition wf (d : pydict K V) : Prop := NoDup (keys d).
  End Ops.
End Dict.

#[local] Set Warnings "-register-all".

(** ** [json.dumps] with [separators=(',', ':')] *)

Inductive pykey : Type :=
  | KStr (s : string)
  | KInt (n : Z).

#[global] Instance pykey_eq_dec : EqDecision pykey.
Proof. solve_decision. Defined.

(** The Python values that [asdict] and the encoders hand to [json.dumps]. *)
Inductive pyobj : Type :=
  | PNone
  | PInt (n : Z)
  | PStr (s : string)
  | PBytes (b : bytes)
  | PList (l : list pyobj)
  | PDict (d : pydict pykey pyobj).

Module Json.

Definition dquote : string := String "034"%char EmptyString.

Definition hex4 (n : Z) : string :=
    String (Bytes.hex_digit (n / 4096 mod 16))
      (String (Bytes.hex_digit (n / 256 mod 16))
         (String (Bytes.hex_digit (n / 16 mod 16))
            (String (Bytes.hex_digit (n mod 16)) EmptyString))).

  (** One character of a string literal with [ensure_ascii=True]. *)
Definition escape_char (c : ascii) : string :=
    let n := Z.of_N (N_of_ascii c) in
    if n =? 34 then "\" +:+ dquote
    else if n =? 92 then "\\"
    else if n =? 10 then "\n"
    else if n =? 13 then "\r"
    else if n =? 9 then "\t"
    else if n =? 8 then "\b"
    else if n =? 12 then "\f"
    else if (n <? 32) || (126 <? n) then "\u" +:+ hex4 n
    else String c EmptyString.

Fixpoint escape (s : string) : string :=
    match s with
    | EmptyString => EmptyString
    | String c s' => escape_char c +:+ escape s'
    end.

Definition encode_string (s : string) : string :=
    dquote +:+ escape s +:+ dquote.

  (** Dictionary keys: a [str] is used as it is, an [int] through [str()]. *)
Definition key_string (k : pykey) : string :=
    match k with
    | KStr s => s
    | KInt n => Str.of_int n
    end.

Fixpoint join (sep : string) (l : list string) : string :=
    match l with
    | [] => EmptyString
    | [x] => x
    | x :: l' => x +:+ sep +:+ join sep l'
    end.

  (** [json.dumps(o, separators=(',', ':'))]; [bytes] are not serialisable. *)
Fixpoint dumps (o : pyobj) : result string :=
    match o with
    | PNone => Ok "null"
    | PInt n => Ok (Str.of_int n)
    | PStr s => Ok (encode_string s)
    | PBytes _ => Raise TypeError
    | PList l =>
        parts <- (fix elements (l : list pyobj) : result (list string) :=
                   match l with
                   | [] => Ok []
                   | x :: l' =>
                       s <- dumps x ;; r <- elements l' ;; Ok (s :: r)
                   end) l ;;
        Ok ("[" +:+ join "," parts +:+ "]")
    | PDict d =>
        parts <- (fix members (d : pydict pykey pyobj) : result (list string) :=
                   match d with
                   | [] => Ok []
                   | (k, v) :: d' =>
                       s <- dumps v ;; r <- members d' ;;
                       Ok ((encode_string (key_string k) +:+ ":" +:+ s) :: r)
                   end) d ;;
        Ok ("{" +:+ join "," parts +:+ "}")
    end.

End Json.


(** ** [BLEMessage] *)

Definition BLE_UUID_TYPE_INCOMPLETE_128 : Z := 0x06.
Definition BLE_TYPE_MANUFACTURER_DATA : Z := 0xFF.
Definition BLE_TYPE_SERVICE_DATA_16BIT : Z := 0x16.

Record BLEMessage : Type := {
  timestamp_ms : Z;
  device_address : string;
  device_name : option string;
  rssi : Z;
  manufacturer_data : pydict Z bytes;
  service_data : pydict string bytes;
  service_uuids : list string;
  tx_power : option Z
}.

Definition bytes_len (b : bytes) : Z := Z.of_nat (length b).

(** Body of the loop over [service_uuids]. *)
Definition add_service_uuid (packet : bytes) (uuid_str : string) : result bytes :=
  let uuid_hex := Str.replace "-" EmptyString uuid_str in
  uuid_bytes <- Bytes.fromhex uuid_hex ;;
  let uuid_bytes_le := rev uuid_bytes in
  packet <- Bytes.append packet 17 ;;
  packet <- Bytes.append packet BLE_UUID_TYPE_INCOMPLETE_128 ;;
  Ok (Bytes.extend packet uuid_bytes_le).

(** Body of the loop over [manufacturer_data.items()]. *)
Definition add_manufacturer_data (packet : bytes) (item : Z * bytes) : result bytes :=
  let '(company_id, data) := item in
  let length := 1 + 2 + bytes_len data in
  packet <- Bytes.append packet length ;;
  packet <- Bytes.append packet BLE_TYPE_MANUFACTURER_DATA ;;
  packet <- Bytes.append packet (Z.land company_id 0xFF) ;;
  packet <- Bytes.append packet (Z.land (Z.shiftr company_id 8) 0xFF) ;;
  Ok (Bytes.extend packet data).

(** Body of the loop over [service_data.items()]. *)
Definition add_service_data (packet : bytes) (item : string * bytes) : result bytes :=
  let '(uuid_str, data) := item in
  let uuid_hex := Str.replace "-" EmptyString uuid_str in
  uuid_bytes <- Bytes.fromhex uuid_hex ;;
  let length := 1 + bytes_len uuid_bytes + bytes_len data in
  packet <- Bytes.append packet length ;;
  packet <- Bytes.append packet BLE_TYPE_SERVICE_DATA_16BIT ;;
  let packet := Bytes.extend packet (rev uuid_bytes) in
  Ok (Bytes.extend packet data).

Definition _reconstruct_advertising_data (self : BLEMessage) : result bytes :=
  let packet : bytes := [] in
  packet <- match service_uuids self with
           | [] => Ok packet
           | _ :: _ => for_each add_service_uuid (service_uuids self) packet
           end ;;
  packet <- for_each add_manufacturer_data (Dict.items (manufacturer_data self)) packet ;;
  packet <- for_each add_service_data (Dict.items (service_data self)) packet ;;
  Ok packet.

Definition to_gprp_format (self : BLEMessage) (gateway_mac topic : string)
  : result string :=
  packet <- _reconstruct_advertising_data self ;;
  let advertising_hex := Str.upper (Bytes.hex packet) in
  timestamp_sec <- Float.int_div_1000 (timestamp_ms self) ;;
  let device_mac := Str.upper (Str.replace ":" EmptyString (device_address self)) in
  let gprp_line :=
    "$GPRP," +:+ gateway_mac +:+ "," +:+ device_mac +:+ ","
      +:+ Str.of_int (rssi self) +:+ "," +:+ advertising_hex +:+ ","
      +:+ Float.format_3f timestamp_sec in
  Json.dumps (PDict [ (KStr "data", PList [PStr gprp_line]);
                      (KStr "mqtt_topic", PStr topic) ]).




(** ** Numbers that are an [int] or a [float] *)

Inductive pynum : Type :=
  | NInt (n : Z)
  | NFloat (f : spec_float).

Module Num.

Definition fzero : spec_float := S754_zero false.

  (** [x > 0] *)
Definition gt0 (x : pynum) : bool :=
    match x with
    | NInt n => 0 <? n
    | NFloat f => SFltb fzero f
    end.

  (** [x == 0] *)
Definition eq0 (x : pynum) : bool :=
    match x with
    | NInt n => n =? 0
    | NFloat f => SFeqb f fzero
    end.

  (** [x < 0] *)
Definition lt0 (x : pynum) : bool :=
    match x with
    | NInt n => n <? 0
    | NFloat f => SFltb f fzero
    end.

  (** Exact comparison of a float with an [int], as Python does it. *)
Definition float_cmp_int (f : spec_float) (n : Z) : option comparison :=
    match f with
    | S754_nan => None
    | S754_infinity s => Some (if s then Lt else Gt)
    | S754_zero _ => Some (0 ?= n)
    | S754_finite s m e =>
        let v := if s then Zneg m else Zpos m in
        Some (match e with
              | Zneg k => v ?= n * 2 ^ Zpos k
              | _ => v * 2 ^ e ?= n
              end)
    end.

  (** [f >= x] for a float [f]. *)
Definition float_ge (f : spec_float) (x : pynum) : bool :=
    match x with
    | NFloat g => SFleb g f
    | NInt n =>
        match float_cmp_int f n with
        | Some (Gt | Eq) => true
        | _ => false
        end
    end.

End Num.

(** ** [MessageBuffer] *)

(** The attribute [buffer] is a dictionary keyed by device address or a
    list, chosen once by [__init__]. *)
Inductive buffer_store : Type :=
  | BufDict (d : pydict string BLEMessage)
  | BufList (l : list BLEMessage).

Module MessageBuffer.

Record t : Type := {
    publish_interval_sec : pynum;
    max_buffer_size : Z;
    throttle_control : bool;
    buffer : buffer_store;
    last_flush_time : spec_float
  }.

Definition set_buffer (self : t) (b : buffer_store) : t :=
    {| publish_interval_sec := publish_interval_sec self;
       max_buffer_size := max_buffer_size self;
       throttle_control := throttle_control self;
       buffer := b;
       last_flush_time := last_flush_time self |}.

Definition set_last_flush_time (self : t) (now : spec_float) : t :=
    {| publish_interval_sec := publish_interval_sec self;
       max_buffer_size := max_buffer_size self;
       throttle_control := throttle_control self;
       buffer := buffer self;
       last_flush_time := now |}.

  (** The test [throttle_control and publish_interval_sec > 0] that
      [__init__], [add_message] and [get_messages] all make. *)
Definition throttled (self : t) : bool :=
    throttle_control self && Num.gt0 (publish_interval_sec self).

  (** [__init__]; [now] is the reading of [time.time()]. *)
Definition init (publish_interval_sec : pynum) (max_buffer_size : Z)
      (throttle_control : bool) (now : spec_float) : t :=
    {| publish_interval_sec := publish_interval_sec;
       max_buffer_size := max_buffer_size;
       throttle_control := throttle_control;
       buffer := if throttle_control && Num.gt0 publish_interval_sec
                 then BufDict [] else BufList [];
       last_flush_time := now |}.

  (** [add_message].  Indexing a list by a string and calling [append] on
      a dictionary are the errors Python raises in the two states that
      [__init__] never builds. *)
Definition add_message (self : t) (message : BLEMessage) : result t :=
    if throttled self then
      match buffer self with
      | BufDict d =>
          Ok (set_buffer self
                (BufDict (Dict.setitem (device_address message) message d)))
      | BufList _ => Raise TypeError
      end
    else
      match buffer self with
      | BufList l => Ok (set_buffer self (BufList (l ++ [message])))
      | BufDict _ => Raise AttributeError
      end.

  (** [len(self.buffer)] *)
Definition size (self : t) : Z :=
    match buffer self with
    | BufDict d => Dict.len d
    | BufList l => Z.of_nat (length l)
    end.

  (** [should_flush]; [now] is the reading of [time.time()]. *)
Definition should_flush (self : t) (now : spec_float) : bool :=
    if Num.eq0 (publish_interval_sec self) then 0 <? size self
    else
      let buffer_size := size self in
      if max_buffer_size self <=? buffer_size then true
      else
        let current_time := now in
        if Num.float_ge (Float.sub current_time (last_flush_time self))
             (publish_interval_sec self)
        then 0 <? buffer_size
        else false.

  (** [get_messages]: the messages and the buffer after the call.  A list
      has no [values]; a dictionary in list mode would be copied and
      returned as a dictionary, which the declared result type excludes,
      and the model stops there with [TypeError]. *)
Definition get_messages (self : t) (now : spec_float)
    : result (list BLEMessage * t) :=
    if throttled self then
      match buffer self with
      | BufDict d =>
          let messages := Dict.values d in
          Ok (messages, set_last_flush_time (set_buffer self (BufDict [])) now)
      | BufList _ => Raise AttributeError
      end
    else
      match buffer self with
      | BufList l =>
          let messages := l in
          Ok (messages, set_last_flush_time (set_buffer self (BufList [])) now)
      | BufDict _ => Raise TypeError
      end.

  (** The messages held, in the order [get_messages] would return them. *)
Definition pending (self : t) : list BLEMessage :=
    match buffer self with
    | BufDict d => Dict.values d
    | BufList l => l
    end.

  (** Every entry of the dictionary is filed under its own address. *)
Definition keyed (d : pydict string BLEMessage) : Prop :=
    Forall (fun kv => device_address (snd kv) = fst kv) d.

  (** The states [__init__], [add_message] and [get_messages] produce: the
      container agrees with the mode, and a dictionary has distinct keys,
      each the address of its message. *)
Definition wf (self : t) : Prop :=
    match buffer self with
    | BufDict d => throttled self = true /\ Dict.wf d /\ keyed d
    | BufList _ => throttled self = false
    end.

  (** A run of [add_message] calls. *)
Definition add_all (self : t) (messages : list BLEMessage) : result t :=
    for_each add_message messages self.

End MessageBuffer.

(** ** [PayloadFilter] *)

(** The attributes of bleak's [BLEDevice] and [AdvertisementData] that the
    gateway reads. *)
Module Bleak.
Record BLEDevice : Type := {
    address : string;
    name : option string
  }.
Record AdvertisementData : Type := {
    rssi : Z;
    manufacturer_data : pydict Z bytes;
    service_data : pydict string bytes;
    service_uuids : list string;
    tx_power : option Z
  }.
End Bleak.

Module PayloadFilter.

Record t : Type := {
    mac_whitelist : option (gset string);
    name_whitelist : option (gset string);
    manufacturer_id_whitelist : option (gset Z);
    service_uuid_whitelist : option (gset string)
  }.

  (** Truth value of an [Optional[Set]]: [None] and the empty set are false. *)
Definition truthy `{Countable A} (s : option (gset A)) : bool :=
    match s with
    | Some x => negb (bool_decide (x = ∅))
    | None => false
    end.

  (** [x in s] *)
Definition mem `{Countable A} (x : A) (s : option (gset A)) : bool :=
    match s with
    | Some s => bool_decide (x ∈ s)
    | None => false
    end.

  (** Truth value of an [Optional[str]]. *)
Definition truthy_name (n : option string) : bool :=
    match n with
    | Some EmptyString => false
    | Some _ => true
    | None => false
    end.

Definition name_or_empty (n : option string) : string :=
    match n with Some s => s | None => EmptyString end.

Definition truthy_list {A} (l : list A) : bool :=
    match l with [] => false | _ :: _ => true end.

Definition should_accept (self : t) (device : Bleak.BLEDevice)
      (advertisement : Bleak.AdvertisementData) : bool :=
    if negb (truthy (mac_whitelist self) || truthy (name_whitelist self)
             || truthy (manufacturer_id_whitelist self)
             || truthy (service_uuid_whitelist self))
    then true
    else if truthy (mac_whitelist self)
            && mem (Str.upper (Bleak.address device)) (mac_whitelist self)
    then true
    else if truthy (name_whitelist self) && truthy_name (Bleak.name device)
            && mem (name_or_empty (Bleak.name device)) (name_whitelist self)
    then true
    else if truthy (manufacturer_id_whitelist self)
            && truthy_list (Bleak.manufacturer_data advertisement)
            && existsb (fun mid => mem mid (manufacturer_id_whitelist self))
                 (Dict.keys (Bleak.manufacturer_data advertisement))
    then true
    else if truthy (service_uuid_whitelist self)
            && truthy_list (Bleak.service_uuids advertisement)
            && existsb (fun uuid => mem uuid (service_uuid_whitelist self))
                 (Bleak.service_uuids advertisement)
    then true
    else false.

End PayloadFilter.

(** ** [MQTTPublisher.publish] *)

Module MQTTPublisher.

  (** [client] tells whether a client object exists, [rc_success] is the
      answer of the MQTT client for a payload (outside the program), and
      [handed] logs the payloads passed to [publish], oldest first. *)
Record t : Type := {
    client : bool;
    rc_success : string -> bool;
    handed : list string
  }.

Definition publish (self : t) (message : string) : bool * t :=
    (client self && rc_success self message,
     {| client := client self;
        rc_success := rc_success self;
        handed := handed self ++ [message] |}).


End MQTTPublisher.

(** ** [BluetoothGateway] *)

Module BluetoothGateway.

Record stats_t : Type := {
    devices_seen : Z;
    messages_filtered : Z;
    messages_buffered : Z;
    messages_published : Z;
    publish_errors : Z;
    buffer_flushes : Z
  }.

Record t : Type := {
    gateway_mac : string;
    topic : string;
    message_buffer : MessageBuffer.t;
    payload_filter : PayloadFilter.t;
    publisher : MQTTPublisher.t;
    stats : stats_t
  }.

Definition with_buffer (self : t) (b : MessageBuffer.t) : t :=
    {| gateway_mac := gateway_mac self; topic := topic self;
       message_buffer := b; payload_filter := payload_filter self;
       publisher := publisher self; stats := stats self |}.

Definition with_publisher (self : t) (p : MQTTPublisher.t) : t :=
    {| gateway_mac := gateway_mac self; topic := topic self;
       message_buffer := message_buffer self;
       payload_filter := payload_filter self;
       publisher := p; stats := stats self |}.

Definition with_stats (self : t) (st : stats_t) : t :=
    {| gateway_mac := gateway_mac self; topic := topic self;
       message_buffer := message_buffer self;
       payload_filter := payload_filter self;
       publisher := publisher self; stats := st |}.

Definition incr_filtered (st : stats_t) : stats_t :=
    {| devices_seen := devices_seen st;
       messages_filtered := messages_filtered st + 1;
       messages_buffered := messages_buffered st;
       messages_published := messages_published st;
       publish_errors := publish_errors st;
       buffer_flushes := buffer_flushes st |}.

Definition incr_seen (st : stats_t) : stats_t :=
    {| devices_seen := devices_seen st + 1;
       messages_filtered := messages_filtered st;
       messages_buffered := messages_buffered st;
       messages_published := messages_published st;
       publish_errors := publish_errors st;
       buffer_flushes := buffer_flushes st |}.

Definition incr_buffered (st : stats_t) : stats_t :=
    {| devices_seen := devices_seen st;
       messages_filtered := messages_filtered st;
       messages_buffered := messages_buffered st + 1;
       messages_published := messages_published st;
       publish_errors := publish_errors st;
       buffer_flushes := buffer_flushes st |}.

Definition incr_published (st : stats_t) : stats_t :=
    {| devices_seen := devices_seen st;
       messages_filtered := messages_filtered st;
       messages_buffered := messages_buffered st;
       messages_published := messages_published st + 1;
       publish_errors := publish_errors st;
       buffer_flushes := buffer_flushes st |}.

Definition incr_errors (st : stats_t) : stats_t :=
    {| devices_seen := devices_seen st;
       messages_filtered := messages_filtered st;
       messages_buffered := messages_buffered st;
       messages_published := messages_published st;
       publish_errors := publish_errors st + 1;
       buffer_flushes := buffer_flushes st |}.

Definition incr_flushes (st : stats_t) : stats_t :=
    {| devices_seen := devices_seen st;
       messages_filtered := messages_filtered st;
       messages_buffered := messages_buffered st;
       messages_published := messages_published st;
       publish_errors := publish_errors st;
       buffer_flushes := buffer_flushes st + 1 |}.

  (** [_create_ble_message]; [utc_timestamp_ms] is the clock reading. *)
Definition _create_ble_message (device : Bleak.BLEDevice)
      (advertisement : Bleak.AdvertisementData) (utc_timestamp_ms : Z)
    : BLEMessage :=
    {| timestamp_ms := utc_timestamp_ms;
       device_address := Bleak.address device;
       device_name := Bleak.name device;
       rssi := Bleak.rssi advertisement;
       manufacturer_data := Bleak.manufacturer_data advertisement;
       service_data := Bleak.service_data advertisement;
       service_uuids := Bleak.service_uuids advertisement;
       tx_power := Bleak.tx_power advertisement |}.

  (** [_detection_callback]: an exception of the buffering step is logged
      and the gateway goes on. *)
Definition _detection_callback (self : t) (device : Bleak.BLEDevice)
      (advertisement : Bleak.AdvertisementData) (utc_timestamp_ms : Z) : t :=
    if negb (PayloadFilter.should_accept (payload_filter self) device advertisement)
    then with_stats self (incr_filtered (stats self))
    else
      let self := with_stats self (incr_seen (stats self)) in
      let ble_message := _create_ble_message device advertisement utc_timestamp_ms in
      match MessageBuffer.add_message (message_buffer self) ble_message with
      | Ok b => with_stats (with_buffer self b) (incr_buffered (stats self))
      | Raise _ => self
      end.

  (** Body of the publishing loop of [_flush_buffer]. *)
Definition publish_gprp (self : t) (ble_message : BLEMessage) : result t :=
    match to_gprp_format ble_message (gateway_mac self) (topic self) with
    | Ok json_payload =>
        let '(ok, p) := MQTTPublisher.publish (publisher self) json_payload in
        let self := with_publisher self p in
        if ok then Ok (with_stats self (incr_published (stats self)))
        else Ok (with_stats self (incr_errors (stats self)))
    | Raise _ => Ok (with_stats self (incr_errors (stats self)))
    end.

  (** [_flush_buffer]; [now] and [now'] are the two readings of the clock,
      in [should_flush] and in [get_messages]. *)
Definition _flush_buffer (self : t) (now now' : spec_float) : result t :=
    if negb (MessageBuffer.should_flush (message_buffer self) now) then Ok self
    else
      '(messages, b) <- MessageBuffer.get_messages (message_buffer self) now' ;;
      let self := with_buffer self b in
      match messages with
      | [] => Ok self
      | _ :: _ =>
          let self := with_stats self (incr_flushes (stats self)) in
          for_each publish_gprp messages self
      end.



End BluetoothGateway.

(** ** [load_config] *)

(** The values [json.load] returns. *)
Inductive jval : Type :=
  | VNull
  | VBool (b : bool)
  | VInt (n : Z)
  | VFloat (f : spec_float)
  | VStr (s : string)
  | VList (l : list jval)
  | VDict (d : pydict string jval).

(** What opening and parsing the file gives. *)
Inductive config_file : Type :=
  | Missing
  | NotJson
  | Parsed (config : jval).

Definition DEFAULT_TOPIC : string := "ble/gateway/data".
Definition DEFAULT_CLIENT_ID : string := "ble-gateway-001".
Definition MAX_CLIENT_ID_LENGTH : Z := 128.

Module Config.

  (** [isinstance(v, int)]: [bool] is a subclass of [int]. *)
Definition isinstance_int (v : jval) : bool :=
    match v with VBool _ | VInt _ => true | _ => false end.

  (** [isinstance(v, (int, float))] *)
Definition isinstance_int_float (v : jval) : bool :=
    match v with VBool _ | VInt _ | VFloat _ => true | _ => false end.

Definition isinstance_bool (v : jval) : bool :=
    match v with VBool _ => true | _ => false end.

Definition isinstance_str (v : jval) : bool :=
    match v with VStr _ => true | _ => false end.

  (** The number a numeric value stands for; [True] is 1 and [False] is 0. *)
Definition as_num (v : jval) : option pynum :=
    match v with
    | VBool b => Some (NInt (if b then 1 else 0))
    | VInt n => Some (NInt n)
    | VFloat f => Some (NFloat f)
    | _ => None
    end.

  (** [v < 0] for a numeric value. *)
Definition lt_0 (v : jval) : bool :=
    match as_num v with Some x => Num.lt0 x | None => false end.

  (** [v < 1] for an instance of [int]. *)
Definition lt_1 (v : jval) : bool :=
    match v with
    | VBool b => negb b
    | VInt n => n <? 1
    | _ => false
    end.

  (** Truth value. *)
Definition truthy (v : jval) : bool :=
    match v with
    | VNull => false
    | VBool b => b
    | VInt n => negb (n =? 0)
    | VFloat f => negb (Float.is_zero f)
    | VStr EmptyString => false
    | VStr _ => true
    | VList [] => false
    | VList _ => true
    | VDict [] => false
    | VDict _ => true
    end.

Definition is_str (k : string) (v : jval) : bool :=
    match v with VStr s => String.eqb s k | _ => false end.

  (** [k in v] for a string [k]; numbers, booleans and [None] are not
      containers. *)
Definition contains (k : string) (v : jval) : result bool :=
    match v with
    | VDict d => Ok (Dict.mem k d)
    | VList l => Ok (existsb (is_str k) l)
    | VStr s => Ok (Str.contains k s)
    | _ => Raise TypeError
    end.

  (** [v[k]]; only a dictionary is indexed by a string. *)
Definition getitem (k : string) (v : jval) : result jval :=
    match v with
    | VDict d => match Dict.get k d with Some x => Ok x | None => Raise KeyError end
    | _ => Raise TypeError
    end.

  (** [v.get(k, default)]; only a dictionary has [get]. *)
Definition get_default (k : string) (default : jval) (v : jval) : result jval :=
    match v with
    | VDict d => Ok (match Dict.get k d with Some x => x | None => default end)
    | _ => Raise AttributeError
    end.

Definition check_publish_interval (config : jval) : result unit :=
    present <- contains "publish_interval_sec" config ;;
    if present then
      interval <- getitem "publish_interval_sec" config ;;
      if negb (isinstance_int_float interval) || lt_0 interval
      then Raise ValueError else Ok tt
    else Ok tt.

Definition check_max_buffer_size (config : jval) : result unit :=
    present <- contains "max_buffer_size" config ;;
    if present then
      size <- getitem "max_buffer_size" config ;;
      if negb (isinstance_int size) || lt_1 size
      then Raise ValueError else Ok tt
    else Ok tt.

Definition check_throttle_control (config : jval) : result unit :=
    present <- contains "throttle_control" config ;;
    if present then
      v <- getitem "throttle_control" config ;;
      if negb (isinstance_bool v) then Raise ValueError else Ok tt
    else Ok tt.

  (** The three checks on the buffering policy, in the order of the code. *)
Definition check_policy (config : jval) : result unit :=
    _ <- check_publish_interval config ;;
    _ <- check_max_buffer_size config ;;
    check_throttle_control config.

Definition str_len (v : jval) : Z :=
    match v with VStr s => Z.of_nat (String.length s) | _ => 0 end.

  (** The checks on the [mqtt] section. *)
Definition check_mqtt (config : jval) : result unit :=
    mqtt_config <- get_default "mqtt" VNull config ;;
    if negb (truthy mqtt_config) then Raise ValueError
    else
      has_broker <- contains "broker" mqtt_config ;;
      if negb has_broker then Raise ValueError
      else
        topic <- get_default "topic" (VStr DEFAULT_TOPIC) mqtt_config ;;
        if negb (truthy topic) || negb (isinstance_str topic) then Raise ValueError
        else
          client_id <- get_default "client_id" (VStr DEFAULT_CLIENT_ID) mqtt_config ;;
          if negb (truthy client_id) || negb (isinstance_str client_id)
          then Raise ValueError
          else if MAX_CLIENT_ID_LENGTH <? str_len client_id then Raise ValueError
          else Ok tt.

Definition load_config (file : config_file) : result jval :=
    match file with
    | Missing => Raise FileNotFoundError
    | NotJson => Raise ValueError
    | Parsed config =>
        _ <- check_policy config ;;
        _ <- check_mqtt config ;;
        Ok config
    end.

End Config.

(** ** The words of the specification *)

Module Spec.

(** Membership in an optional set. *)
Definition in_set `{Countable A} (x : A) (s : option (gset A)) : Prop :=
  exists g, s = Some g /\ x ∈ g.

(** "The source address (case-insensitively) is in the address set". *)
Definition ci_member (addr : string) (s : option (gset string)) : Prop :=
  exists a, in_set a s /\ Str.upper a = Str.upper addr.

(** The four criteria of the acceptance filter, as the specification words
    them: address in the address set whatever the case, name present and
    in the name set, some vendor id in the vendor-id set, some service id
    in the service-id set. *)
Definition accept_criteria (f : PayloadFilter.t) (device : Bleak.BLEDevice)
    (advertisement : Bleak.AdvertisementData) : Prop :=
  ci_member (Bleak.address device) (PayloadFilter.mac_whitelist f)
  \/ (exists n, Bleak.name device = Some n
                /\ in_set n (PayloadFilter.name_whitelist f))
  \/ (exists mid, mid ∈ Dict.keys (Bleak.manufacturer_data advertisement)
                  /\ in_set mid (PayloadFilter.manufacturer_id_whitelist f))
  \/ (exists uuid, uuid ∈ Bleak.service_uuids advertisement
                   /\ in_set uuid (PayloadFilter.service_uuid_whitelist f)).

(** A criterion set is configured when it holds something. *)
Definition configured `{Countable A} (s : option (gset A)) : Prop :=
  exists g, s = Some g /\ g <> ∅.

Definition some_configured (f : PayloadFilter.t) : Prop :=
  configured (PayloadFilter.mac_whitelist f)
  \/ configured (PayloadFilter.name_whitelist f)
  \/ configured (PayloadFilter.manufacturer_id_whitelist f)
  \/ configured (PayloadFilter.service_uuid_whitelist f).

(** The criteria as the code applies them: the address is upper-cased
    before the lookup and an empty name counts as no name. *)
Definition accept_criteria_exact (f : PayloadFilter.t) (device : Bleak.BLEDevice)
    (advertisement : Bleak.AdvertisementData) : Prop :=
  in_set (Str.upper (Bleak.address device)) (PayloadFilter.mac_whitelist f)
  \/ (exists n, Bleak.name device = Some n /\ n <> EmptyString
                /\ in_set n (PayloadFilter.name_whitelist f))
  \/ (exists mid, mid ∈ Dict.keys (Bleak.manufacturer_data advertisement)
                  /\ in_set mid (PayloadFilter.manufacturer_id_whitelist f))
  \/ (exists uuid, uuid ∈ Bleak.service_uuids advertisement
                   /\ in_set uuid (PayloadFilter.service_uuid_whitelist f)).

(** Every entry of the address set is in upper case, as the gateway
    stores it. *)
Definition upper_cased (s : option (gset string)) : Prop :=
  forall a, in_set a s -> Str.upper a = a.

(** The policy constraints on configuration values, as the code tests
    them: [bool] is a subclass of [int], so a boolean is a number, [True]
    is the [int] 1 and [False] the [int] 0. *)
Definition numeric (v : jval) : Prop := exists x, Config.as_num v = Some x.

Definition negative (v : jval) : Prop :=
  exists x, Config.as_num v = Some x /\ Num.lt0 x = true.

Definition positive_integer (v : jval) : Prop :=
  (exists n, v = VInt n /\ 1 <= n) \/ v = VBool true.

Definition boolean (v : jval) : Prop := exists b, v = VBool b.

(** Some policy key is present with a value that breaks its constraint. *)
Definition bad_policy (d : pydict string jval) : Prop :=
  (exists v, Dict.get "publish_interval_sec" d = Some v
             /\ (~ numeric v \/ negative v))
  \/ (exists v, Dict.get "max_buffer_size" d = Some v /\ ~ positive_integer v)
  \/ (exists v, Dict.get "throttle_control" d = Some v /\ ~ boolean v).

(** The same constraints with numbers and integers as JSON has them, apart
    from the booleans. *)
Definition json_number (v : jval) : Prop :=
  (exists n, v = VInt n) \/ (exists f, v = VFloat f).

Definition json_positive_integer (v : jval) : Prop :=
  exists n, v = VInt n /\ 1 <= n.

Definition json_bad_policy (d : pydict string jval) : Prop :=
  (exists v, Dict.get "publish_interval_sec" d = Some v
             /\ (~ json_number v \/ negative v))
  \/ (exists v, Dict.get "max_buffer_size" d = Some v /\ ~ json_positive_integer v)
  \/ (exists v, Dict.get "throttle_control" d = Some v /\ ~ boolean v).

(** No boolean stands where a number is expected. *)
Definition no_boolean_number (d : pydict string jval) : Prop :=
  (forall v, Dict.get "publish_interval_sec" d = Some v -> ~ boolean v)
  /\ (forall v, Dict.get "max_buffer_size" d = Some v -> ~ boolean v).

(** *** The advertising-data blob *)

(** The byte of a number in [0, 256). *)
Definition byte (n : Z) : Byte.byte :=
  match Byte.of_N (Z.to_N n) with Some b => b | None => Byte.x00 end.

(** The raw bytes of a UUID string: its hexadecimal text without hyphens. *)
Definition uuid_bytes (uuid_str : string) : bytes :=
  match Bytes.fromhex (Str.replace "-" EmptyString uuid_str) with
  | Ok b => b
  | Raise _ => []
  end.

Definition is_hex_digit (c : ascii) : bool :=
  match Bytes.digit_value c with Some _ => true | None => false end.

(** A string that denotes a 128-bit UUID: 32 hexadecimal digits once the
    hyphens are removed. *)
Definition is_uuid128 (uuid_str : string) : Prop :=
  let h := Str.replace "-" EmptyString uuid_str in
  String.length h = 32%nat /\ Str.all_chars is_hex_digit h = true.

(** A string that [bytes.fromhex] accepts once the hyphens are removed. *)
Definition is_hex_text (uuid_str : string) : Prop :=
  exists b, Bytes.fromhex (Str.replace "-" EmptyString uuid_str) = Ok b.

(** A record: length byte, type byte, payload; the length counts the type
    byte and the payload. *)
Definition record (ty : Z) (payload : bytes) : bytes :=
  byte (1 + bytes_len payload) :: byte ty :: payload.

(** The two bytes of a vendor id, low byte first. *)
Definition le16 (n : Z) : bytes := [byte (n mod 256); byte (n / 256 mod 256)].

(** The record of a service id: length byte 17 and type [0x06]. *)
Definition service_id_record (uuid_str : string) : bytes :=
  byte 17 :: byte 0x06 :: rev (uuid_bytes uuid_str).

Definition vendor_record (item : Z * bytes) : bytes :=
  record 0xFF (le16 (fst item) ++ snd item).

Definition service_data_record (item : string * bytes) : bytes :=
  record 0x16 (rev (uuid_bytes (fst item)) ++ snd item).

(** The blob for given lists of vendor and service-data entries. *)
Definition blob_of (uuids : list string) (vendor : list (Z * bytes))
    (service : list (string * bytes)) : bytes :=
  concat (map service_id_record uuids)
    ++ concat (map vendor_record vendor)
    ++ concat (map service_data_record service).

(** The blob with the maps taken in their iteration order. *)
Definition blob (ev : BLEMessage) : bytes :=
  blob_of (service_uuids ev) (Dict.items (manufacturer_data ev))
    (Dict.items (service_data ev)).

(** Every record can be framed: the UUID strings are hexadecimal text and
    each length fits in a byte. *)
Definition encodable (ev : BLEMessage) : Prop :=
  Forall is_hex_text (service_uuids ev)
  /\ Forall (fun item : Z * bytes => 3 + bytes_len (snd item) <= 255)
       (manufacturer_data ev)
  /\ Forall (fun item : string * bytes =>
               is_hex_text (fst item)
               /\ 1 + bytes_len (uuid_bytes (fst item)) + bytes_len (snd item) <= 255)
       (service_data ev).

(** The length bytes met when the blob is read record by record: a length
    byte, then as many bytes as it says, and so on to the end. *)
Fixpoint walk (skip : nat) (bs : bytes) : option (list Z) :=
  match bs with
  | [] => match skip with O => Some [] | S _ => None end
  | b :: bs' =>
      match skip with
      | O => option_map (cons (Bytes.int_of_byte b))
               (walk (Z.to_nat (Bytes.int_of_byte b)) bs')
      | S k => walk k bs'
      end
  end.

Definition length_bytes (bs : bytes) : option (list Z) := walk 0 bs.

(** *** Canonical order of the maps *)

Fixpoint insert_by {K V} (leb : K -> K -> bool) (kv : K * V) (l : list (K * V))
  : list (K * V) :=
  match l with
  | [] => [kv]
  | x :: l' => if leb (fst kv) (fst x) then kv :: l else x :: insert_by leb kv l'
  end.

(** The entries in ascending order of key. *)
Definition sort_by {K V} (leb : K -> K -> bool) (l : list (K * V)) : list (K * V) :=
  foldr (insert_by leb) [] l.

Fixpoint ascending {K V} (leb : K -> K -> bool) (l : list (K * V)) : Prop :=
  match l with
  | [] => True
  | x :: l' => Forall (fun y => leb (fst x) (fst y) = true) l' /\ ascending leb l'
  end.

(** The blob the specification asks for: vendor entries by ascending
    numeric key, service-data entries by ascending lexicographic key. *)
Definition canonical_blob (ev : BLEMessage) : bytes :=
  blob_of (service_uuids ev)
    (sort_by Z.leb (Dict.items (manufacturer_data ev)))
    (sort_by String.leb (Dict.items (service_data ev))).

(** *** The two renderings *)








Definition is_upper_hex_digit (c : ascii) : bool :=
  let n := Z.of_N (N_of_ascii c) in
  ((48 <=? n) && (n <=? 57)) || ((65 <=? n) && (n <=? 70)).

Definition is_digit (c : ascii) : bool :=
  let n := Z.of_N (N_of_ascii c) in (48 <=? n) && (n <=? 57).

(** A decimal numeral: digits, after a minus sign for a negative number. *)
Definition is_decimal (s : string) : Prop :=
  exists digits, (s = digits \/ s = "-" +:+ digits)
                 /\ digits <> EmptyString
                 /\ Str.all_chars is_digit digits = true.


(** Upper-case hexadecimal text of a byte sequence. *)
Definition upper_hex_digit (n : Z) : ascii :=
  if n <? 10 then ascii_of_N (Z.to_N (48 + n)) else ascii_of_N (Z.to_N (55 + n)).

Fixpoint hex_upper (bs : bytes) : string :=
  match bs with
  | [] => EmptyString
  | b :: bs' =>
      String (upper_hex_digit (Bytes.int_of_byte b / 16))
        (String (upper_hex_digit (Bytes.int_of_byte b mod 16)) (hex_upper bs'))
  end.

(** The device id: the address without its colons, in upper case. *)
Definition device_id (ev : BLEMessage) : string :=
  Str.upper (Str.replace ":" EmptyString (device_address ev)).

(** [ms / 1000] as a decimal numeral with three fractional digits. *)
Definition seconds_text (ms : Z) : string :=
  (if ms <? 0 then "-" else EmptyString)
    +:+ Str.of_int (Z.abs ms / 1000) +:+ "."
    +:+ Float.pad3 (Z.abs ms mod 1000).

(** The CSV line with a given timestamp text. *)
Definition gprp_line_with (gateway_id : string) (ev : BLEMessage) (seconds : string)
  : string :=
  "$GPRP," +:+ gateway_id +:+ "," +:+ device_id ev +:+ ","
    +:+ Str.of_int (rssi ev) +:+ "," +:+ hex_upper (blob ev) +:+ "," +:+ seconds.

Definition gprp_line (gateway_id : string) (ev : BLEMessage) : string :=
  gprp_line_with gateway_id ev (seconds_text (timestamp_ms ev)).


End Spec.

(** ** Sample values *)

Module Sample.

  (** The floats [5.0] and [100.0], and two clock readings. *)
Definition f5 : spec_float := S754_finite false 5629499534213120 (-50).
Definition f100 : spec_float := S754_finite false 7036874417766400 (-46).
Definition t0 : spec_float := Num.fzero.
Definition t1 : spec_float := f100.

Definition msg (addr : string) (signal : Z) : BLEMessage :=
    {| timestamp_ms := 1700000000000;
       device_address := addr;
       device_name := None;
       rssi := signal;
       manufacturer_data := [];
       service_data := [];
       service_uuids := [];
       tx_power := None |}.

Definition m1 : BLEMessage := msg "AA:BB:CC:DD:EE:FF" (-67).
Definition m2 : BLEMessage := msg "AA:BB:CC:DD:EE:FF" (-40).
Definition m3 : BLEMessage := msg "11:22:33:44:55:66" (-50).

  (** A throttled window of five seconds, an unthrottled one, and the
      immediate mode. *)
Definition windowed : MessageBuffer.t := MessageBuffer.init (NFloat f5) 100 true t0.
Definition unthrottled : MessageBuffer.t := MessageBuffer.init (NFloat f5) 100 false t0.
Definition immediate : MessageBuffer.t := MessageBuffer.init (NFloat Num.fzero) 100 true t0.

(** A filter on names that lists the empty name, and a device without a
    name text. *)
Definition names_filter : PayloadFilter.t :=
  {| PayloadFilter.mac_whitelist := None;
     PayloadFilter.name_whitelist := Some ({[ EmptyString; "Tag" ]} : gset string);
     PayloadFilter.manufacturer_id_whitelist := None;
     PayloadFilter.service_uuid_whitelist := None |}.

Definition unnamed_device : Bleak.BLEDevice :=
  {| Bleak.address := "AA:BB:CC:DD:EE:FF"; Bleak.name := Some EmptyString |}.

(** A filter whose address set holds a lower-case entry, and the device
    with that very address. *)
Definition lower_filter : PayloadFilter.t :=
  {| PayloadFilter.mac_whitelist := Some ({[ "aa:bb:cc:dd:ee:ff" ]} : gset string);
     PayloadFilter.name_whitelist := None;
     PayloadFilter.manufacturer_id_whitelist := None;
     PayloadFilter.service_uuid_whitelist := None |}.

Definition lower_device : Bleak.BLEDevice :=
  {| Bleak.address := "aa:bb:cc:dd:ee:ff"; Bleak.name := None |}.

(** A filter on the vendor id 76 alone. *)
Definition vendor_filter : PayloadFilter.t :=
  {| PayloadFilter.mac_whitelist := None;
     PayloadFilter.name_whitelist := None;
     PayloadFilter.manufacturer_id_whitelist := Some ({[ 76 ]} : gset Z);
     PayloadFilter.service_uuid_whitelist := None |}.

(** The fixed event of the specification. *)
Definition fixed_event : BLEMessage := msg "AA:BB:CC:DD:EE:FF" (-67).

(** The line and the envelope expected for the fixed event. *)
Definition fixed_line : string :=
  "$GPRP,A1B2C3D4E5F6,AABBCCDDEEFF,-67,,1700000000.000".

Definition fixed_envelope : string :=
  "{" +:+ Json.dquote +:+ "data" +:+ Json.dquote +:+ ":["
    +:+ Json.dquote +:+ fixed_line +:+ Json.dquote +:+ "],"
    +:+ Json.dquote +:+ "mqtt_topic" +:+ Json.dquote +:+ ":"
    +:+ Json.dquote +:+ "ble/gateway/data" +:+ Json.dquote +:+ "}".



(** One service id, one vendor entry of four bytes, one service-data entry
    of two bytes. *)
Definition framed_event : BLEMessage :=
  {| timestamp_ms := 1700000000000;
     device_address := "aa:bb:cc:dd:ee:ff";
     device_name := Some "Tag 1";
     rssi := -67;
     manufacturer_data := [(76, [Byte.x01; Byte.xab; Byte.x00; Byte.xff])];
     service_data := [("180f", [Byte.x64; Byte.x01])];
     service_uuids := ["0000180f-0000-1000-8000-00805f9b34fb"];
     tx_power := Some 4 |}.

(** Vendor ids and service-data keys inserted in descending order. *)
Definition descending_event : BLEMessage :=
  {| timestamp_ms := 1700000000000;
     device_address := "AA:BB:CC:DD:EE:FF";
     device_name := None;
     rssi := -67;
     manufacturer_data := [(2, [Byte.x22]); (1, [Byte.x11])];
     service_data := [("180f", [Byte.x64]); ("180a", [Byte.x0a])];
     service_uuids := [];
     tx_power := None |}.

(** A vendor entry of 253 bytes, one more than a record can frame. *)
Definition oversized_event : BLEMessage :=
  {| timestamp_ms := 1700000000000;
     device_address := "AA:BB:CC:DD:EE:FF";
     device_name := None;
     rssi := -67;
     manufacturer_data := [(76, repeat Byte.x00 253)];
     service_data := [];
     service_uuids := [];
     tx_power := None |}.

(** A service-data key that is not hexadecimal text. *)
Definition malformed_event : BLEMessage :=
  {| timestamp_ms := 1700000000000;
     device_address := "AA:BB:CC:DD:EE:FF";
     device_name := None;
     rssi := -67;
     manufacturer_data := [];
     service_data := [("battery", [Byte.x64])];
     service_uuids := [];
     tx_power := None |}.

(** Configurations: a sound one, and one with a negative interval. *)
Definition mqtt_section : jval :=
  VDict [("broker", VStr "broker.example.org"); ("topic", VStr "ble/gateway/data")].

Definition good_config : pydict string jval :=
  [("publish_interval_sec", VFloat f5); ("max_buffer_size", VInt 100);
   ("throttle_control", VBool true); ("mqtt", mqtt_section)].

Definition bad_config : pydict string jval :=
  [("publish_interval_sec", VInt (-1)); ("mqtt", mqtt_section)].

(** A configuration with [true] for the interval and for the buffer size. *)
Definition boolean_config : pydict string jval :=
  [("publish_interval_sec", VBool true); ("max_buffer_size", VBool true);
   ("mqtt", mqtt_section)].

(** A gateway in windowed mode that holds two messages, before the
    interval has passed. *)
Definition loaded_buffer : MessageBuffer.t :=
  MessageBuffer.set_buffer windowed
    (BufDict [("AA:BB:CC:DD:EE:FF", m2); ("11:22:33:44:55:66", m3)]).

Definition no_filter : PayloadFilter.t :=
  {| PayloadFilter.mac_whitelist := None;
     PayloadFilter.name_whitelist := None;
     PayloadFilter.manufacturer_id_whitelist := None;
     PayloadFilter.service_uuid_whitelist := None |}.

Definition gateway : BluetoothGateway.t :=
  {| BluetoothGateway.gateway_mac := "A1B2C3D4E5F6";
     BluetoothGateway.topic := "ble/gateway/data";
     BluetoothGateway.message_buffer := loaded_buffer;
     BluetoothGateway.payload_filter := no_filter;
     BluetoothGateway.publisher :=
       {| MQTTPublisher.client := true;
          MQTTPublisher.rc_success := fun _ => true;
          MQTTPublisher.handed := [] |};
     BluetoothGateway.stats :=
       {| BluetoothGateway.devices_seen := 2;
          BluetoothGateway.messages_filtered := 0;
          BluetoothGateway.messages_buffered := 2;
          BluetoothGateway.messages_published := 0;
          BluetoothGateway.publish_errors := 0;
          BluetoothGateway.buffer_flushes := 0 |} |}.

Definition plain_adv : Bleak.AdvertisementData :=
  {| Bleak.rssi := -67; Bleak.manufacturer_data := [];
     Bleak.service_data := []; Bleak.service_uuids := [];
     Bleak.tx_power := None |}.

End Sample.

(** * Further operations *)

(** ** Runs of buffer operations *)

Module BufferRun.

(** A call on the buffer: [add_message] or [get_messages] with the clock
    reading it takes. *)
Inductive op : Type :=
  | Add (message : BLEMessage)
  | Drain (now : spec_float).

Definition step (b : MessageBuffer.t) (o : op) : result MessageBuffer.t :=
  match o with
  | Add message => MessageBuffer.add_message b message
  | Drain now =>
      '(_, b') <- MessageBuffer.get_messages b now ;; Ok b'
  end.

(** The calls made one after the other. *)
Definition run (b : MessageBuffer.t) (ops : list op) : result MessageBuffer.t :=
  for_each step ops b.

(** The addresses of a list in the order of their first occurrence. *)
Definition first_seen (addresses : list string) : list string :=
  fold_left (fun acc a => if decide (a ∈ acc) then acc else acc ++ [a])
    addresses [].

(** The last message of an address in a list of messages. *)
Definition last_of (a : string) (messages : list BLEMessage) : option BLEMessage :=
  last (filter (fun m => device_address m = a) messages).

(** One message per address, the last one, in the order in which the
    addresses were first seen. *)
Definition latest_per_address (messages : list BLEMessage) : list BLEMessage :=
  omap (fun a => last_of a messages) (first_seen (map device_address messages)).

(** The dictionary after a run of assignments of messages under their
    addresses. *)
Definition filed (ms : list BLEMessage) (d : pydict string BLEMessage)
  : pydict string BLEMessage :=
  fold_left (fun d m => Dict.setitem (device_address m) m d) ms d.

End BufferRun.

(** ** Further sample values *)

Module Cases.

(** A windowed buffer with a size limit of zero. *)
Definition no_capacity : MessageBuffer.t :=
  MessageBuffer.init (NFloat Sample.f5) 0 true Sample.t0.

(** A device without a name. *)
Definition beacon : Bleak.BLEDevice :=
  {| Bleak.address := "AA:BB:CC:DD:EE:FF"; Bleak.name := None |}.

(** A gateway in immediate mode, just started. *)
Definition immediate_gateway : BluetoothGateway.t :=
  {| BluetoothGateway.gateway_mac := "A1B2C3D4E5F6";
     BluetoothGateway.topic := "ble/gateway/data";
     BluetoothGateway.message_buffer := Sample.immediate;
     BluetoothGateway.payload_filter := Sample.no_filter;
     BluetoothGateway.publisher :=
       {| MQTTPublisher.client := true;
          MQTTPublisher.rc_success := fun _ => true;
          MQTTPublisher.handed := [] |};
     BluetoothGateway.stats :=
       {| BluetoothGateway.devices_seen := 0;
          BluetoothGateway.messages_filtered := 0;
          BluetoothGateway.messages_buffered := 0;
          BluetoothGateway.messages_published := 0;
          BluetoothGateway.publish_errors := 0;
          BluetoothGateway.buffer_flushes := 0 |} |}.

End Cases.

(** ** Runs of the gateway *)

Module GatewayRun.

(** What happens to a running gateway: a detection reported by the
    scanner, with the clock reading taken for its timestamp, or a poll of
    the main loop, with the two clock readings of [_flush_buffer]. *)
Inductive event : Type :=
  | Detected (device : Bleak.BLEDevice) (advertisement : Bleak.AdvertisementData)
             (utc_timestamp_ms : Z)
  | Poll (now now' : spec_float).

Definition step (g : BluetoothGateway.t) (e : event) : result BluetoothGateway.t :=
  match e with
  | Detected device advertisement utc_timestamp_ms =>
      Ok (BluetoothGateway._detection_callback g device advertisement
            utc_timestamp_ms)
  | Poll now now' => BluetoothGateway._flush_buffer g now now'
  end.

Definition run (g : BluetoothGateway.t) (events : list event)
  : result BluetoothGateway.t :=
  for_each step events g.

(** The payload [_flush_buffer] hands to the publisher for a message, if
    the message can be rendered. *)
Definition payload_of (g : BluetoothGateway.t) (m : BLEMessage) : option string :=
  match to_gprp_format m (BluetoothGateway.gateway_mac g) (BluetoothGateway.topic g) with
  | Ok s => Some s
  | Raise _ => None
  end.

(** Whether a message is rendered and its payload taken by the client. *)
Definition delivered (g : BluetoothGateway.t) (m : BLEMessage) : bool :=
  match payload_of g m with
  | Some s =>
      MQTTPublisher.client (BluetoothGateway.publisher g)
      && MQTTPublisher.rc_success (BluetoothGateway.publisher g) s
  | None => false
  end.

(** Messages buffered so far that are neither published, nor counted as
    publish errors, nor pending. *)
Definition unaccounted (g : BluetoothGateway.t) : Z :=
  BluetoothGateway.messages_buffered (BluetoothGateway.stats g)
  - BluetoothGateway.messages_published (BluetoothGateway.stats g)
  - BluetoothGateway.publish_errors (BluetoothGateway.stats g)
  - MessageBuffer.size (BluetoothGateway.message_buffer g).

Definition is_detection (e : event) : bool :=
  match e with Detected _ _ _ => true | Poll _ _ => false end.

(** The number of detections in a run. *)
Definition detections (events : list event) : Z :=
  Z.of_nat (length (List.filter is_detection events)).

(** The settings a run never changes: gateway id, topic, filter and the
    client's behaviour. *)
Definition same_setup (g g' : BluetoothGateway.t) : Prop :=
  BluetoothGateway.gateway_mac g' = BluetoothGateway.gateway_mac g
  /\ BluetoothGateway.topic g' = BluetoothGateway.topic g
  /\ BluetoothGateway.payload_filter g' = BluetoothGateway.payload_filter g
  /\ MQTTPublisher.client (BluetoothGateway.publisher g')
     = MQTTPublisher.client (BluetoothGateway.publisher g)
  /\ MQTTPublisher.rc_success (BluetoothGateway.publisher g')
     = MQTTPublisher.rc_success (BluetoothGateway.publisher g).

(** The counters of detections, which publishing never changes. *)
Definition same_intake (g g' : BluetoothGateway.t) : Prop :=
  BluetoothGateway.devices_seen (BluetoothGateway.stats g')
  = BluetoothGateway.devices_seen (BluetoothGateway.stats g)
  /\ BluetoothGateway.messages_filtered (BluetoothGateway.stats g')
     = BluetoothGateway.messages_filtered (BluetoothGateway.stats g)
  /\ BluetoothGateway.messages_buffered (BluetoothGateway.stats g')
     = BluetoothGateway.messages_buffered (BluetoothGateway.stats g).

(** The number of messages of a list that are delivered. *)
Definition delivered_count (g : BluetoothGateway.t) (ms : list BLEMessage) : Z :=
  Z.of_nat (length (List.filter (delivered g) ms)).

End GatewayRun.


(** ** What goes on the wire *)

Module Wire.

(** A printable ASCII character, from the space to the tilde. *)
Definition printable (c : ascii) : bool :=
  let n := Z.of_N (N_of_ascii c) in (32 <=? n) && (n <=? 126).

(** A text of printable ASCII characters only. *)
Definition plain (s : string) : Prop := Str.all_chars printable s = true.

End Wire.


(** ** Starting the gateway: [main] and [BluetoothGateway.__init__] *)

Definition DEFAULT_PUBLISH_INTERVAL : jval := VFloat Num.fzero.
Definition DEFAULT_MAX_BUFFER_SIZE : jval := VInt 100.
Definition DEFAULT_THROTTLE_CONTROL : jval := VBool true.

Module Main.

(** The command-line overrides of [main], applied to the dictionary that
    [load_config] returned: [--publish-interval] (a float, if given),
    [--no-throttle] (a flag) and [--buffer-size] (an [int], if given; the
    test is on its truth value, so zero counts as not given). *)
Definition apply_overrides (config : pydict string jval)
    (publish_interval : option spec_float) (no_throttle : bool)
    (buffer_size : option Z) : pydict string jval :=
  let config :=
    match publish_interval with
    | Some f => Dict.setitem "publish_interval_sec" (VFloat f) config
    | None => config
    end in
  let config :=
    if no_throttle then Dict.setitem "throttle_control" (VBool false) config
    else config in
  match buffer_size with
  | Some n =>
      if negb (n =? 0) then Dict.setitem "max_buffer_size" (VInt n) config
      else config
  | None => config
  end.

End Main.

Module Startup.

(** [config.get(key, default)] on a configuration dictionary. *)
Definition get (key : string) (default : jval) (config : pydict string jval) : jval :=
  match Dict.get key config with Some v => v | None => default end.

(** The [int] an instance of [int] stands for; [True] is 1, [False] is 0. *)
Definition as_int (v : jval) : option Z :=
  match v with
  | VBool b => Some (if b then 1 else 0)
  | VInt n => Some n
  | _ => None
  end.

Definition as_bool (v : jval) : option bool :=
  match v with VBool b => Some b | _ => None end.

(** The buffer [BluetoothGateway.__init__] builds from the configuration,
    for settings of the types [load_config] asks for: a number, an
    instance of [int], a boolean.  [None] stands for settings of other
    types, which [MessageBuffer.t] has no room for. *)
Definition message_buffer (config : pydict string jval) (now : spec_float)
  : option MessageBuffer.t :=
  match Config.as_num (get "publish_interval_sec" DEFAULT_PUBLISH_INTERVAL config),
        as_int (get "max_buffer_size" DEFAULT_MAX_BUFFER_SIZE config),
        as_bool (get "throttle_control" DEFAULT_THROTTLE_CONTROL config) with
  | Some publish_interval_sec, Some max_buffer_size, Some throttle_control =>
      Some (MessageBuffer.init publish_interval_sec max_buffer_size
              throttle_control now)
  | _, _, _ => None
  end.

(** [set(l) or None] *)
Definition set_or_none `{Countable A} (l : list A) : option (gset A) :=
  let s : gset A := list_to_set l in
  if decide (s = ∅) then None else Some s.

Section ParseIds.

(** [int(s, 16)], the library's parser of hexadecimal numerals. *)
Variable int_base16 : string -> result Z.

(** Body of the loop of [_parse_manufacturer_ids]: a string goes through
    [int(mid, 16)], whose [ValueError] is raised again as a [ValueError];
    an instance of [int], booleans included, is taken as it is; anything
    else is a [ValueError]. *)
Definition parse_id (parsed_ids : gset Z) (mid : jval) : result (gset Z) :=
  match mid with
  | VStr s => n <- int_base16 s ;; Ok (parsed_ids ∪ {[ n ]})
  | VBool b => Ok (parsed_ids ∪ {[ if b then 1 else 0 ]})
  | VInt n => Ok (parsed_ids ∪ {[ n ]})
  | _ => Raise ValueError
  end.

Definition _parse_manufacturer_ids (manufacturer_ids : list jval)
  : result (option (gset Z)) :=
  match manufacturer_ids with
  | [] => Ok None
  | _ :: _ =>
      parsed_ids <- for_each parse_id manufacturer_ids ∅ ;;
      Ok (Some parsed_ids)
  end.

(** The filter [BluetoothGateway.__init__] builds from the four whitelists
    of the configuration, three of them lists of strings. *)
Definition payload_filter (mac_whitelist name_whitelist : list string)
    (manufacturer_id_whitelist : list jval) (service_uuid_whitelist : list string)
  : result PayloadFilter.t :=
  let macs := set_or_none (map Str.upper mac_whitelist) in
  let names := set_or_none name_whitelist in
  ids <- _parse_manufacturer_ids manufacturer_id_whitelist ;;
  Ok {| PayloadFilter.mac_whitelist := macs;
        PayloadFilter.name_whitelist := names;
        PayloadFilter.manufacturer_id_whitelist := ids;
        PayloadFilter.service_uuid_whitelist := set_or_none service_uuid_whitelist |}.

(** The vendor id an entry of [manufacturer_id_whitelist] stands for. *)
Definition names_id (v : jval) (mid : Z) : Prop :=
  match v with
  | VStr s => int_base16 s = Ok mid
  | VBool b => mid = (if b then 1 else 0)
  | VInt n => mid = n
  | _ => False
  end.

End ParseIds.

(** The digits of a natural number in lower-case hexadecimal, as
    [format(n, 'x')] writes them; [fuel] bounds the number of digits. *)
Fixpoint hex_digits (fuel : nat) (n : Z) : string :=
  match fuel with
  | O => EmptyString
  | S fuel' =>
      (if n <? 16 then EmptyString else hex_digits fuel' (n / 16))
        +:+ String (Bytes.hex_digit (n mod 16)) EmptyString
  end.

Fixpoint zeros (k : nat) : string :=
  match k with O => EmptyString | S k' => String "0" (zeros k') end.

(** [f'{n:012x}']: sign, then the digits padded with zeros to a total
    width of twelve. *)
Definition format_012x (n : Z) : string :=
  let digits := hex_digits (S (Z.to_nat (Z.log2 (Z.abs n)))) (Z.abs n) in
  let sign := if n <? 0 then "-" else EmptyString in
  sign +:+ zeros (12 - String.length sign - String.length digits) +:+ digits.

(** [get_gateway_mac_address]; [getnode] is what [uuid.getnode()] gives. *)
Definition get_gateway_mac_address (getnode : result Z) : string :=
  match getnode with
  | Ok mac => Str.upper (format_012x mac)
  | Raise _ => "000000000000"
  end.

(** The gateway id of [BluetoothGateway.__init__]: the configured one, if
    it is a non-empty string, without colons and in upper case, and the
    node's own otherwise. *)
Definition gateway_mac (configured_mac : option string) (getnode : result Z) : string :=
  match configured_mac with
  | Some (String c s) => Str.upper (Str.replace ":" EmptyString (String c s))
  | _ => get_gateway_mac_address getnode
  end.

(** Reading one more hexadecimal digit after the value read so far. *)
Definition read_digit (acc : option Z) (c : ascii) : option Z :=
  match acc, Bytes.digit_value c with
  | Some v, Some d => Some (16 * v + d)
  | _, _ => None
  end.

(** The value of a text of hexadecimal digits, most significant first. *)
Definition hex_value (s : string) : option Z :=
  fold_left read_digit (list_ascii_of_string s) (Some 0).

End Startup.


(** ** Authentication settings of [MQTTPublisher] *)

(** What [MQTTPublisher.__init__] keeps of the authentication settings. *)
Inductive auth : Type :=
  | Mtls (ca_filepath cert_filepath key_filepath : string)
  | UserPass (username password : jval)
  | NoAuth.

Module Auth.
Section Files.

(** [os.path.expandvars], and the size of the file at a path, if there is
    one. *)
Variable expandvars : string -> string.
Variable st_size : string -> option Z.

(** [_validate_cert_file]; a path that is no string makes [expandvars]
    raise [TypeError]. *)
Definition _validate_cert_file (file_path : jval) : result string :=
  match file_path with
  | VStr p =>
      let expanded_path := expandvars p in
      match st_size expanded_path with
      | None => Raise FileNotFoundError
      | Some size =>
          if size =? 0 then Raise ValueError else Ok expanded_path
      end
  | _ => Raise TypeError
  end.

(** [_configure_mtls] on the three settings [BluetoothGateway.__init__]
    puts in [tls_config]. *)
Definition _configure_mtls (ca_certs certfile keyfile : jval) : result auth :=
  if negb (Config.truthy ca_certs && Config.truthy certfile && Config.truthy keyfile)
  then Raise ValueError
  else
    ca_filepath <- _validate_cert_file ca_certs ;;
    cert_filepath <- _validate_cert_file certfile ;;
    key_filepath <- _validate_cert_file keyfile ;;
    Ok (Mtls ca_filepath cert_filepath key_filepath).

(** [_configure_userpass] on [credentials or {}]. *)
Definition _configure_userpass (credentials : jval) : result auth :=
  username <- Config.get_default "username" VNull credentials ;;
  password <- Config.get_default "password" VNull credentials ;;
  if negb (Config.truthy username) then Raise ValueError
  else Ok (UserPass username password).

(** The authentication part of [MQTTPublisher.__init__], with the
    arguments [BluetoothGateway.__init__] takes from the [mqtt] section of
    the configuration. *)
Definition configure (mqtt_config : pydict string jval) : result auth :=
  let auth_type := Startup.get "auth_type" (VStr "mtls") mqtt_config in
  let credentials := Startup.get "credentials" VNull mqtt_config in
  if Config.is_str "mtls" auth_type then
    _configure_mtls (Startup.get "root_ca_path" VNull mqtt_config)
      (Startup.get "cert_path" VNull mqtt_config)
      (Startup.get "key_path" VNull mqtt_config)
  else if Config.is_str "userpass" auth_type then
    _configure_userpass (if Config.truthy credentials then credentials else VDict [])
  else if Config.is_str "none" auth_type then Ok NoAuth
  else Raise ValueError.

End Files.
End Auth.

(** * Properties *)

(** ** The error monad *)

Lemma bind_ok {A B} (m : result A) (f : A -> result B) (b : B) :
  bind m f = Ok b <-> exists a, m = Ok a /\ f a = Ok b.
Proof.
  destruct m as [a|e]; simpl; split.
  - intros H. exists a. auto.
  - intros (a' & [= <-] & H). exact H.
  - discriminate.
  - intros (a' & [=] & _).
Qed.

Lemma for_each_app {A S} (body : S -> A -> result S) (l1 l2 : list A) (s : S) :
  for_each body (l1 ++ l2) s = bind (for_each body l1 s) (for_each body l2).
Proof.
  revert s. induction l1 as [|x l1 IH]; intros s; simpl; [reflexivity|].
  destruct (body s x) as [s'|e]; simpl; [apply IH | reflexivity].
Qed.

(** ** Dictionaries *)

Section DictFacts.
  Context {K V : Type} `{EqDecision K}.
  Implicit Types (d : pydict K V) (k : K) (v : V).

Lemma setitem_absent k v d :
    k ∉ Dict.keys d -> Dict.setitem k v d = d ++ [(k, v)].
  Proof.
    induction d as [|[k' v'] d IH]; simpl; [reflexivity|].
    intros Hk. apply not_elem_of_cons in Hk as [Hne Hk].
    destruct (decide (k' = k)) as [->|_]; [contradiction|].
    f_equal. apply IH, Hk.
  Qed.

Lemma setitem_keys_present k v d :
    k ∈ Dict.keys d -> Dict.keys (Dict.setitem k v d) = Dict.keys d.
  Proof.
    induction d as [|[k' v'] d IH]; simpl; [intros H0; inversion H0|].
    intros Hk. destruct (decide (k' = k)) as [->|Hne]; [reflexivity|].
    simpl. f_equal. apply IH.
    apply elem_of_cons in Hk as [->|Hk]; [contradiction | exact Hk].
  Qed.

Lemma setitem_keys k v d :
    Dict.keys (Dict.setitem k v d)
    = if decide (k ∈ Dict.keys d) then Dict.keys d else Dict.keys d ++ [k].
  Proof.
    destruct (decide (k ∈ Dict.keys d)) as [Hin|Hout].
    - apply setitem_keys_present, Hin.
    - rewrite setitem_absent by exact Hout.
      unfold Dict.keys. rewrite map_app. reflexivity.
  Qed.

Lemma setitem_wf k v d : Dict.wf d -> Dict.wf (Dict.setitem k v d).
  Proof.
    unfold Dict.wf. intros Hd. rewrite setitem_keys.
    destruct (decide (k ∈ Dict.keys d)) as [Hin|Hout]; [exact Hd|].
    apply NoDup_app. split; [exact Hd|]. split.
    - intros x Hx Hx'. apply list_elem_of_singleton in Hx'. subst x. contradiction.
    - apply NoDup_singleton.
  Qed.

Lemma setitem_length k v d :
    (length (Dict.setitem k v d) <= S (length d))%nat.
  Proof.
    induction d as [|[k' v'] d IH]; simpl; [lia|].
    destruct (decide (k' = k)); simpl; lia.
  Qed.

Lemma get_setitem_eq k v d : Dict.get k (Dict.setitem k v d) = Some v.
  Proof.
    induction d as [|[k' v'] d IH]; simpl.
    - destruct (decide (k = k)); [reflexivity | contradiction].
    - destruct (decide (k' = k)) as [->|Hne]; simpl.
      + destruct (decide (k = k)); [reflexivity | contradiction].
      + destruct (decide (k' = k)); [contradiction | exact IH].
  Qed.

Lemma get_setitem_ne k k' v d :
    k <> k' -> Dict.get k' (Dict.setitem k v d) = Dict.get k' d.
  Proof.
    intros Hne. induction d as [|[k0 v0] d IH]; simpl.
    - destruct (decide (k = k')); [contradiction | reflexivity].
    - destruct (decide (k0 = k)) as [->|Hk0]; simpl.
      + destruct (decide (k = k')); [contradiction | reflexivity].
      + destruct (decide (k0 = k')); [reflexivity | exact IH].
  Qed.

Lemma get_none_keys k d : Dict.get k d = None <-> k ∉ Dict.keys d.
  Proof.
    induction d as [|[k' v'] d IH]; simpl.
    - split; [intros _ H0; inversion H0 | reflexivity].
    - rewrite not_elem_of_cons. destruct (decide (k' = k)) as [->|Hne].
      + split; [discriminate | intros [? _]; contradiction].
      + rewrite IH. split; [intros ?; split; [congruence | assumption] | intros [_ ?]; assumption].
  Qed.

  (** A dictionary built from pairs with distinct keys lists them as given. *)
Lemma of_pairs_nodup (l : list (K * V)) :
    NoDup (map fst l) -> Dict.of_pairs l = l.
  Proof.
    unfold Dict.of_pairs.
    assert (Hgen : forall acc, NoDup (map fst (acc ++ l)) ->
              fold_left (fun d kv => Dict.setitem (fst kv) (snd kv) d) l acc = acc ++ l).
    { induction l as [|[k v] l IH]; intros acc Hnd; simpl.
      - rewrite app_nil_r. reflexivity.
      - rewrite setitem_absent.
        + replace (acc ++ (k, v) :: l) with ((acc ++ [(k, v)]) ++ l)
            by (rewrite <- app_assoc; reflexivity).
          apply IH. rewrite <- app_assoc. exact Hnd.
        + rewrite map_app in Hnd. apply NoDup_app in Hnd as (_ & Hdis & _).
          intros Hin. apply (Hdis k Hin). simpl. apply elem_of_cons. left. reflexivity. }
    intros Hnd. apply (Hgen []). exact Hnd.
  Qed.

End DictFacts.

(** ** [MessageBuffer] *)

Module Import BufferFacts.
  Import MessageBuffer.

Lemma eq0_not_gt0 (x : pynum) : Num.eq0 x = true -> Num.gt0 x = false.
  Proof.
    destruct x as [n|f]; simpl.
    - intros H. apply Z.eqb_eq in H. subst n. reflexivity.
    - destruct f as [s|s| |s m e]; try destruct s; simpl; try discriminate;
        reflexivity.
  Qed.

Lemma gt0_not_eq0 (x : pynum) : Num.gt0 x = true -> Num.eq0 x = false.
  Proof.
    intros H. destruct (Num.eq0 x) eqn:E; [|reflexivity].
    apply eq0_not_gt0 in E. congruence.
  Qed.

Lemma size_pending (b : t) : size b = Z.of_nat (length (pending b)).
  Proof.
    unfold size, pending, Dict.len, Dict.values.
    destruct (buffer b); [rewrite length_map|]; reflexivity.
  Qed.

Lemma init_wf p n c now : wf (init p n c now).
  Proof.
    unfold wf, init, throttled; simpl.
    destruct (c && Num.gt0 p); simpl; [|reflexivity].
    split; [reflexivity|]. split; [apply NoDup_nil_2 | apply Forall_nil_2].
  Qed.

Lemma init_pending p n c now : pending (init p n c now) = [].
  Proof. unfold pending, init; simpl. destruct (c && Num.gt0 p); reflexivity. Qed.

Lemma keyed_setitem (d : pydict string BLEMessage) (m : BLEMessage) :
    keyed d -> keyed (Dict.setitem (device_address m) m d).
  Proof.
    unfold keyed. induction d as [|[k v] d IH]; simpl; intros Hd.
    - apply Forall_cons; split; [reflexivity | apply Forall_nil_2].
    - apply Forall_cons in Hd as [Hk Hd]. simpl in Hk.
      destruct (decide (k = device_address m)) as [->|Hne].
      + apply Forall_cons; split; [reflexivity | exact Hd].
      + apply Forall_cons; split; [exact Hk | apply IH, Hd].
  Qed.

  (** [add_message] never fails on a well-formed buffer and keeps it so. *)
Lemma add_message_wf (b : t) (m : BLEMessage) :
    wf b ->
    exists b', add_message b m = Ok b' /\ wf b' /\ throttled b' = throttled b
               /\ publish_interval_sec b' = publish_interval_sec b
               /\ max_buffer_size b' = max_buffer_size b
               /\ last_flush_time b' = last_flush_time b.
  Proof.
    unfold wf, add_message. destruct (buffer b) as [d|l] eqn:Eb.
    - intros (Ht & Hd & Hk). rewrite Ht. eexists. split; [reflexivity|].
      unfold throttled in *; simpl. repeat split; auto using setitem_wf, keyed_setitem.
    - intros Ht. rewrite Ht. eexists. split; [reflexivity|].
      unfold throttled in *; simpl. repeat split; auto.
  Qed.

Lemma add_message_list (b b' : t) (m : BLEMessage) :
    throttled b = false -> add_message b m = Ok b' ->
    pending b' = pending b ++ [m].
  Proof.
    unfold add_message, pending. intros ->.
    destruct (buffer b); [discriminate|]. intros [= <-]. reflexivity.
  Qed.

Lemma add_message_dict (b b' : t) (m : BLEMessage) :
    throttled b = true -> add_message b m = Ok b' ->
    exists d, buffer b = BufDict d
              /\ buffer b' = BufDict (Dict.setitem (device_address m) m d).
  Proof.
    unfold add_message. intros ->.
    destruct (buffer b) as [d|l]; [|discriminate]. intros [= <-].
    exists d. split; reflexivity.
  Qed.

Lemma add_message_length (b b' : t) (m : BLEMessage) :
    add_message b m = Ok b' ->
    (length (pending b') <= S (length (pending b)))%nat.
  Proof.
    unfold add_message, pending.
    destruct (throttled b), (buffer b) as [d|l]; try discriminate;
      intros [= <-]; simpl.
    - unfold Dict.values. rewrite !length_map. apply setitem_length.
    - rewrite length_app. simpl. lia.
  Qed.

Lemma add_message_nonempty (b b' : t) (m : BLEMessage) :
    add_message b m = Ok b' -> 0 < size b'.
  Proof.
    unfold add_message, size, Dict.len.
    destruct (throttled b), (buffer b) as [d|l]; try discriminate;
      intros [= <-]; simpl.
    - destruct d as [|[k v] d]; simpl; [lia|].
      destruct (decide (k = device_address m)); simpl; lia.
    - rewrite length_app. simpl. lia.
  Qed.

  (** A run of additions succeeds on a well-formed buffer. *)
Lemma add_all_wf (ms : list BLEMessage) (b : t) :
    wf b ->
    exists b', add_all b ms = Ok b' /\ wf b' /\ throttled b' = throttled b
               /\ (length (pending b') <= length (pending b) + length ms)%nat
               /\ (throttled b = false -> pending b' = pending b ++ ms).
  Proof.
    unfold add_all. revert b. induction ms as [|m ms IH]; intros b Hb; simpl.
    - exists b. repeat split; auto; [lia | intros _; rewrite app_nil_r; reflexivity].
    - destruct (add_message_wf b m Hb) as (b1 & E1 & Hb1 & Ht1 & _).
      rewrite E1; simpl.
      destruct (IH b1 Hb1) as (b' & E' & Hb' & Ht' & Hlen & Hlist).
      exists b'. split; [exact E'|]. split; [exact Hb'|].
      split; [congruence|]. split.
      + pose proof (add_message_length _ _ _ E1). lia.
      + intros Hf. rewrite Hlist by congruence.
        rewrite (add_message_list _ _ _ Hf E1), <- app_assoc. reflexivity.
  Qed.

  (** [get_messages] on a well-formed buffer hands out what is pending. *)
Lemma get_messages_wf (b : t) (now : spec_float) :
    wf b ->
    exists b', get_messages b now = Ok (pending b, b') /\ wf b'
               /\ pending b' = [] /\ size b' = 0 /\ last_flush_time b' = now
               /\ throttled b' = throttled b.
  Proof.
    unfold wf, get_messages, pending. destruct (buffer b) as [d|l] eqn:Eb.
    - intros (Ht & _). rewrite Ht. eexists. split; [reflexivity|].
      unfold throttled, size in *; simpl.
      repeat split; auto; [apply NoDup_nil_2 | apply Forall_nil_2].
    - intros Ht. rewrite Ht. eexists. split; [reflexivity|].
      unfold throttled, size in *; simpl. repeat split; auto.
  Qed.

  (** In a keyed dictionary with distinct keys, the messages of an address
      are the one filed under it. *)
Lemma keyed_filter_absent (a : string) (d : pydict string BLEMessage) :
    keyed d -> a ∉ Dict.keys d ->
    filter (fun m => device_address m = a) (Dict.values d) = [].
  Proof.
    unfold keyed. induction d as [|[k v] d IH]; simpl; intros Hk Ha; [reflexivity|].
    apply Forall_cons in Hk as [Hkv Hk]. simpl in Hkv.
    apply not_elem_of_cons in Ha as [Hne Ha].
    rewrite filter_cons_False by congruence. apply IH; assumption.
  Qed.

Lemma keyed_filter_present (a : string) (m : BLEMessage)
      (d : pydict string BLEMessage) :
    Dict.wf d -> keyed d -> Dict.get a d = Some m ->
    filter (fun x => device_address x = a) (Dict.values d) = [m].
  Proof.
    unfold Dict.wf, keyed. induction d as [|[k v] d IH]; simpl; [discriminate|].
    intros Hnd Hk Hget.
    apply NoDup_cons in Hnd as [Hnotin Hnd].
    apply Forall_cons in Hk as [Hkv Hk]. simpl in Hkv.
    destruct (decide (k = a)) as [->|Hne].
    - injection Hget as ->. rewrite filter_cons_True by exact Hkv.
      f_equal. apply keyed_filter_absent; assumption.
    - rewrite filter_cons_False by congruence. apply IH; assumption.
  Qed.

Lemma setitem_values_elem (a : string) (x m : BLEMessage)
      (d : pydict string BLEMessage) :
    m ∈ Dict.values (Dict.setitem a x d) -> m ∈ Dict.values d \/ m = x.
  Proof.
    unfold Dict.values. induction d as [|[k v] d IH]; simpl; intros Hin.
    - apply list_elem_of_singleton in Hin. right. exact Hin.
    - destruct (decide (k = a)); simpl in Hin;
        apply elem_of_cons in Hin as [->|Hin].
      + right. reflexivity.
      + left. apply elem_of_cons. right. exact Hin.
      + left. apply elem_of_cons. left. reflexivity.
      + destruct (IH Hin) as [H|H]; [left | right; exact H].
        apply elem_of_cons. right. exact H.
  Qed.

  (** What is pending after a run of additions was pending before or was
      added. *)
Lemma add_all_elem (ms : list BLEMessage) (b0 b : t) (m : BLEMessage) :
    add_all b0 ms = Ok b -> m ∈ pending b -> m ∈ pending b0 \/ m ∈ ms.
  Proof.
    unfold add_all. revert b0. induction ms as [|x ms IH]; simpl; intros b0 Eadd Hm.
    - injection Eadd as <-. left. exact Hm.
    - apply bind_ok in Eadd as (b1 & E1 & Eadd).
      destruct (IH b1 Eadd Hm) as [H1|Hms];
        [|right; apply elem_of_cons; right; exact Hms].
      unfold add_message, pending in *.
      destruct (throttled b0), (buffer b0) as [d|l]; try discriminate;
        injection E1 as <-; simpl in H1.
      + apply setitem_values_elem in H1 as [H1| ->]; [left; exact H1|].
        right. apply elem_of_cons. left. reflexivity.
      + apply elem_of_app in H1 as [H1|H1]; [left; exact H1|].
        apply list_elem_of_singleton in H1. subst m.
        right. apply elem_of_cons. left. reflexivity.
  Qed.

End BufferFacts.

(** ** Claims on the buffer *)

Section BufferClaims.
  Import MessageBuffer.

  (** C4. In a buffer built with throttle control and a positive publish
      interval, two messages of one address added before a drain leave one
      message for that address, the later one, and a drain of a buffer that
      held nothing else returns just that message; in the other modes
      (no throttle control, or an interval of zero) both are appended and
      the drain returns them after what was pending. *)
Theorem add_message_last_write_wins
      (b : t) (m1 m2 : BLEMessage) (now : spec_float) :
    wf b ->
    device_address m1 = device_address m2 ->
    exists b1 b2 out b3,
      add_message b m1 = Ok b1 /\ add_message b1 m2 = Ok b2
      /\ get_messages b2 now = Ok (out, b3)
      /\ (throttle_control b = true -> Num.gt0 (publish_interval_sec b) = true ->
          filter (fun m => device_address m = device_address m2) out = [m2]
          /\ (pending b = [] -> out = [m2]))
      /\ (throttle_control b = false \/ Num.eq0 (publish_interval_sec b) = true ->
          out = pending b ++ [m1; m2]).
  Proof.
    intros Hb Haddr.
    destruct (add_message_wf b m1 Hb) as (b1 & E1 & Hb1 & Ht1 & _).
    destruct (add_message_wf b1 m2 Hb1) as (b2 & E2 & Hb2 & Ht2 & _).
    destruct (get_messages_wf b2 now Hb2) as (b3 & E3 & _).
    exists b1, b2, (pending b2), b3. repeat (split; [assumption|]). split.
    - intros Hc Hi.
      assert (Ht : throttled b = true) by (unfold throttled; rewrite Hc, Hi; reflexivity).
      destruct (add_message_dict _ _ _ Ht E1) as (d & Ed & Ed1).
      assert (Ht' : throttled b1 = true) by congruence.
      destruct (add_message_dict _ _ _ Ht' E2) as (d1 & Ed1' & Ed2).
      rewrite Ed1 in Ed1'. injection Ed1' as <-.
      unfold wf in Hb2. unfold pending. rewrite Ed2 in *.
      destruct Hb2 as (_ & Hnd & Hk). split.
      + apply keyed_filter_present; [assumption .. |]. apply get_setitem_eq.
      + unfold pending. rewrite Ed. destruct d; [|discriminate]. intros _.
        simpl. rewrite Haddr.
        destruct (decide (device_address m2 = device_address m2));
          [reflexivity | contradiction].
    - intros Hmode.
      assert (Ht : throttled b = false).
      { unfold throttled. destruct Hmode as [-> | He]; [reflexivity|].
        rewrite (eq0_not_gt0 _ He). apply andb_false_r. }
      rewrite (add_message_list b1 b2 m2) by congruence.
      rewrite (add_message_list b b1 m1) by assumption.
      rewrite <- app_assoc. reflexivity.
  Qed.

  (** C5. With a publish interval of zero, [should_flush] holds exactly
      when the buffer is not empty: after any addition, and not on an empty
      buffer.  With a positive interval it holds exactly when the buffer
      has reached [max_buffer_size], whatever the clock says, or when the
      time since the last flush has reached the interval and the buffer is
      not empty. *)
Theorem should_flush_spec (b : t) (now : spec_float) :
    (Num.eq0 (publish_interval_sec b) = true ->
       (should_flush b now = true <-> 0 < size b)
       /\ (pending b = [] -> should_flush b now = false)
       /\ (forall m b', add_message b m = Ok b' -> should_flush b' now = true))
    /\ (Num.gt0 (publish_interval_sec b) = true ->
       (should_flush b now = true <->
          max_buffer_size b <= size b
          \/ (Num.float_ge (Float.sub now (last_flush_time b))
                (publish_interval_sec b) = true
              /\ 0 < size b))).
  Proof.
    split.
    - intros He. unfold should_flush. rewrite He. split; [|split].
      + apply Z.ltb_lt.
      + intros Hp. rewrite size_pending, Hp. reflexivity.
      + intros m b' Hadd.
        assert (Hi : publish_interval_sec b' = publish_interval_sec b).
        { unfold add_message in Hadd.
          destruct (throttled b), (buffer b); try discriminate;
            injection Hadd as <-; reflexivity. }
        rewrite Hi, He. apply Z.ltb_lt. eapply add_message_nonempty, Hadd.
    - intros Hg. unfold should_flush. rewrite (gt0_not_eq0 _ Hg).
      destruct (max_buffer_size b <=? size b) eqn:Hfull.
      + apply Z.leb_le in Hfull. split; [intros _; left; exact Hfull | reflexivity].
      + apply Z.leb_gt in Hfull.
        destruct (Num.float_ge _ _) eqn:Hel.
        * rewrite Z.ltb_lt. split; [intros H; right; auto | intros [H|[_ H]]; [lia | exact H]].
        * split; [discriminate | intros [H|[H _]]; [lia | discriminate]].
  Qed.

  (** C6. After any run of additions to a buffer that held nothing,
      [get_messages] returns everything pending, which is never more than
      the number of additions, leaves the buffer empty and sets
      [last_flush_time] to the clock reading; called again on the empty
      buffer it returns the empty list and sets [last_flush_time] again. *)
Theorem get_messages_drains
      (b0 : t) (ms : list BLEMessage) (now now' : spec_float) :
    wf b0 -> pending b0 = [] ->
    exists b out b' b'',
      add_all b0 ms = Ok b
      /\ get_messages b now = Ok (out, b')
      /\ out = pending b
      /\ (length out <= length ms)%nat
      /\ (forall m, m ∈ out -> m ∈ ms)
      /\ size b' = 0 /\ pending b' = [] /\ last_flush_time b' = now
      /\ get_messages b' now' = Ok ([], b'')
      /\ size b'' = 0 /\ last_flush_time b'' = now'.
  Proof.
    intros Hb0 Hempty.
    destruct (add_all_wf ms b0 Hb0) as (b & Eadd & Hb & _ & Hlen & _).
    destruct (get_messages_wf b now Hb) as (b' & Eget & Hb' & Hp' & Hs' & Hl' & _).
    destruct (get_messages_wf b' now' Hb') as (b'' & Eget' & _ & _ & Hs'' & Hl'' & _).
    rewrite Hp' in Eget'. rewrite Hempty in Hlen. simpl in Hlen.
    exists b, (pending b), b', b''. repeat (split; [assumption || reflexivity|]).
    split; [|repeat (split; [assumption|]); assumption].
    intros m Hm. destruct (add_all_elem ms b0 b m Eadd Hm) as [H|H]; [|exact H].
    rewrite Hempty in H. inversion H.
  Qed.

  (** C10. Without throttling (no throttle control, or an interval of
      zero), the messages added to a buffer that held nothing come back
      from [get_messages] as they arrived: the same messages, in the same
      order, each once. *)
Theorem get_messages_fifo
      (b0 : t) (ms : list BLEMessage) (now : spec_float) :
    wf b0 -> pending b0 = [] ->
    throttle_control b0 = false \/ Num.eq0 (publish_interval_sec b0) = true ->
    exists b b',
      add_all b0 ms = Ok b /\ get_messages b now = Ok (ms, b') /\ size b' = 0.
  Proof.
    intros Hb0 Hempty Hmode.
    assert (Ht : throttled b0 = false).
    { unfold throttled. destruct Hmode as [-> | He]; [reflexivity|].
      rewrite (eq0_not_gt0 _ He). apply andb_false_r. }
    destruct (add_all_wf ms b0 Hb0) as (b & Eadd & Hb & _ & _ & Hlist).
    destruct (get_messages_wf b now Hb) as (b' & Eget & _ & _ & Hs' & _).
    rewrite (Hlist Ht), Hempty in Eget. simpl in Eget.
    exists b, b'. repeat split; assumption.
  Qed.

Lemma windowed_wf : wf Sample.windowed.
  Proof. vm_compute. repeat split; constructor. Defined.

Lemma add_message_last_write_wins_witness :
    wf Sample.windowed
    /\ device_address Sample.m1 = device_address Sample.m2
    /\ exists b1 b2 out b3,
         add_message Sample.windowed Sample.m1 = Ok b1
         /\ add_message b1 Sample.m2 = Ok b2
         /\ get_messages b2 Sample.t1 = Ok (out, b3)
         /\ (throttle_control Sample.windowed = true ->
             Num.gt0 (publish_interval_sec Sample.windowed) = true ->
             filter (fun m => device_address m = device_address Sample.m2) out
               = [Sample.m2]
             /\ (pending Sample.windowed = [] -> out = [Sample.m2]))
         /\ (throttle_control Sample.windowed = false
             \/ Num.eq0 (publish_interval_sec Sample.windowed) = true ->
             out = pending Sample.windowed ++ [Sample.m1; Sample.m2]).
  Proof.
    split; [exact windowed_wf|]. split; [reflexivity|].
    apply (add_message_last_write_wins Sample.windowed Sample.m1 Sample.m2 Sample.t1).
    - exact windowed_wf.
    - reflexivity.
  Defined.

Lemma should_flush_spec_witness :
    Num.eq0 (publish_interval_sec Sample.immediate) = true
    /\ Num.gt0 (publish_interval_sec Sample.windowed) = true
    /\ (should_flush Sample.immediate Sample.t1 = true
        <-> 0 < size Sample.immediate)
    /\ (should_flush Sample.windowed Sample.t1 = true
        <-> max_buffer_size Sample.windowed <= size Sample.windowed
            \/ (Num.float_ge
                  (Float.sub Sample.t1 (last_flush_time Sample.windowed))
                  (publish_interval_sec Sample.windowed) = true
                /\ 0 < size Sample.windowed)).
  Proof.
    split; [reflexivity|]. split; [reflexivity|]. split.
    - apply (proj1 (should_flush_spec Sample.immediate Sample.t1)). reflexivity.
    - apply (proj2 (should_flush_spec Sample.windowed Sample.t1)). reflexivity.
  Defined.

Lemma get_messages_drains_witness :
    wf Sample.windowed /\ pending Sample.windowed = []
    /\ exists b out b' b'',
         add_all Sample.windowed [Sample.m1; Sample.m3; Sample.m2] = Ok b
         /\ get_messages b Sample.t1 = Ok (out, b')
         /\ out = pending b
         /\ (length out <= length [Sample.m1; Sample.m3; Sample.m2])%nat
         /\ (forall m, m ∈ out -> m ∈ [Sample.m1; Sample.m3; Sample.m2])
         /\ size b' = 0 /\ pending b' = [] /\ last_flush_time b' = Sample.t1
         /\ get_messages b' Sample.f5 = Ok ([], b'')
         /\ size b'' = 0 /\ last_flush_time b'' = Sample.f5.
  Proof.
    split; [exact windowed_wf|]. split; [reflexivity|].
    apply (get_messages_drains Sample.windowed); [exact windowed_wf | reflexivity].
  Defined.

Lemma unthrottled_wf : wf Sample.unthrottled.
  Proof. vm_compute. reflexivity. Defined.

Lemma get_messages_fifo_witness :
    wf Sample.unthrottled /\ pending Sample.unthrottled = []
    /\ throttle_control Sample.unthrottled = false
    /\ exists b b',
         add_all Sample.unthrottled [Sample.m1; Sample.m3; Sample.m2] = Ok b
         /\ get_messages b Sample.t1 = Ok ([Sample.m1; Sample.m3; Sample.m2], b')
         /\ size b' = 0.
  Proof.
    split; [exact unthrottled_wf|]. split; [reflexivity|]. split; [reflexivity|].
    apply (get_messages_fifo Sample.unthrottled);
      [exact unthrottled_wf | reflexivity | left; reflexivity].
  Defined.

End BufferClaims.


(** ** [PayloadFilter] *)

Section FilterFacts.
Import PayloadFilter.

Lemma truthy_configured `{Countable A} (s : option (gset A)) :
  truthy s = true <-> Spec.configured s.
Proof.
  unfold truthy, Spec.configured. destruct s as [g|].
  - rewrite negb_true_iff, bool_decide_eq_false. split.
    + intros Hg. exists g. split; [reflexivity | exact Hg].
    + intros (g' & [= <-] & Hg). exact Hg.
  - split; [discriminate | intros (g & [=] & _)].
Qed.

Lemma mem_in_set `{Countable A} (x : A) (s : option (gset A)) :
  mem x s = true <-> Spec.in_set x s.
Proof.
  unfold mem, Spec.in_set. destruct s as [g|].
  - rewrite bool_decide_eq_true. split.
    + intros Hx. exists g. split; [reflexivity | exact Hx].
    + intros (g' & [= <-] & Hx). exact Hx.
  - split; [discriminate | intros (g & [=] & _)].
Qed.

(** A set that holds something is configured. *)
Lemma in_set_truthy `{Countable A} (x : A) (s : option (gset A)) :
  Spec.in_set x s -> truthy s = true.
Proof.
  intros (g & -> & Hx). simpl. apply negb_true_iff, bool_decide_eq_false.
  intros ->. revert Hx. apply not_elem_of_empty.
Qed.

Lemma truthy_name_spec (n : option string) :
  truthy_name n = true <-> exists s, n = Some s /\ s <> EmptyString.
Proof.
  destruct n as [[|c s]|]; simpl; split; try discriminate.
  - intros (s & [= <-] & Hs). contradiction.
  - intros _. eexists. split; [reflexivity | discriminate].
  - reflexivity.
  - intros (s & [=] & _).
Qed.

Lemma existsb_in_set `{Countable A} (l : list A) (s : option (gset A)) :
  existsb (fun x => mem x s) l = true <-> exists x, x ∈ l /\ Spec.in_set x s.
Proof.
  rewrite existsb_exists. split; intros (x & Hx & Hs); exists x.
  - split; [apply list_elem_of_In, Hx | apply mem_in_set, Hs].
  - split; [apply list_elem_of_In, Hx | apply mem_in_set, Hs].
Qed.

Lemma truthy_list_elem {A} (l : list A) (x : A) : x ∈ l -> truthy_list l = true.
Proof. destruct l; [intros H0; inversion H0 | reflexivity]. Qed.

(** With an upper-cased address set, looking the upper-cased address up is
    membership whatever the case. *)
Lemma ci_member_upper_cased (addr : string) (s : option (gset string)) :
  Spec.upper_cased s ->
  (Spec.in_set (Str.upper addr) s <-> Spec.ci_member addr s).
Proof.
  intros Hup. unfold Spec.ci_member. split.
  - intros Hin. exists (Str.upper addr). split; [exact Hin|].
    rewrite (Hup _ Hin). reflexivity.
  - intros (a & Hin & Ha). rewrite <- Ha, (Hup _ Hin). exact Hin.
Qed.

(** The chain of tests of [should_accept] as one disjunction. *)
Lemma should_accept_orb (f : t) (device : Bleak.BLEDevice)
    (advertisement : Bleak.AdvertisementData) :
  should_accept f device advertisement
  = negb (truthy (mac_whitelist f) || truthy (name_whitelist f)
          || truthy (manufacturer_id_whitelist f)
          || truthy (service_uuid_whitelist f))
    || (truthy (mac_whitelist f)
        && mem (Str.upper (Bleak.address device)) (mac_whitelist f))
    || (truthy (name_whitelist f) && truthy_name (Bleak.name device)
        && mem (name_or_empty (Bleak.name device)) (name_whitelist f))
    || (truthy (manufacturer_id_whitelist f)
        && truthy_list (Bleak.manufacturer_data advertisement)
        && existsb (fun mid => mem mid (manufacturer_id_whitelist f))
             (Dict.keys (Bleak.manufacturer_data advertisement)))
    || (truthy (service_uuid_whitelist f)
        && truthy_list (Bleak.service_uuids advertisement)
        && existsb (fun uuid => mem uuid (service_uuid_whitelist f))
             (Bleak.service_uuids advertisement)).
Proof.
  unfold should_accept.
  repeat match goal with
    | |- context [if ?c then true else _] => destruct c; simpl
    end; reflexivity.
Qed.

Lemma mac_test (f : t) (a : string) :
  truthy (mac_whitelist f) && mem a (mac_whitelist f) = true
  <-> Spec.in_set a (mac_whitelist f).
Proof.
  rewrite andb_true_iff, mem_in_set. split; [intros [_ H]; exact H|].
  intros H. split; [eapply in_set_truthy, H | exact H].
Qed.

Lemma name_test (f : t) (n : option string) :
  truthy (name_whitelist f) && truthy_name n
    && mem (name_or_empty n) (name_whitelist f) = true
  <-> exists s, n = Some s /\ s <> EmptyString /\ Spec.in_set s (name_whitelist f).
Proof.
  rewrite !andb_true_iff, mem_in_set, truthy_name_spec. split.
  - intros [[_ (s & -> & Hs)] Hin]. exists s. auto.
  - intros (s & -> & Hs & Hin). split; [split|]; [eapply in_set_truthy, Hin | eauto | exact Hin].
Qed.

Lemma any_test `{Countable A} (s : option (gset A)) (l : list A) :
  truthy s && truthy_list l && existsb (fun x => mem x s) l = true
  <-> exists x, x ∈ l /\ Spec.in_set x s.
Proof.
  rewrite !andb_true_iff, existsb_in_set. split; [intros [_ H']; exact H'|].
  intros (x & Hx & Hs). split; [split|]; [eapply in_set_truthy, Hs | eapply truthy_list_elem, Hx | eauto].
Qed.

Lemma keys_test `{Countable A} {V} (s : option (gset A)) (d : pydict A V) :
  truthy s && truthy_list d && existsb (fun x => mem x s) (Dict.keys d) = true
  <-> exists x, x ∈ Dict.keys d /\ Spec.in_set x s.
Proof.
  rewrite !andb_true_iff, existsb_in_set. split; [intros [_ H']; exact H'|].
  intros (x & Hx & Hs). split; [split|]; [eapply in_set_truthy, Hs | | eauto].
  destruct d; [inversion Hx | reflexivity].
Qed.

Lemma none_configured (f : t) :
  negb (truthy (mac_whitelist f) || truthy (name_whitelist f)
        || truthy (manufacturer_id_whitelist f)
        || truthy (service_uuid_whitelist f)) = true
  <-> ~ Spec.some_configured f.
Proof.
  unfold Spec.some_configured. rewrite <- !truthy_configured.
  rewrite negb_true_iff, !orb_false_iff.
  destruct (truthy (mac_whitelist f)), (truthy (name_whitelist f)),
    (truthy (manufacturer_id_whitelist f)), (truthy (service_uuid_whitelist f));
    split; try tauto; intros; intuition discriminate.
Qed.

(** [should_accept] decided by the criteria the code applies. *)
Lemma should_accept_exact (f : t) (device : Bleak.BLEDevice)
    (advertisement : Bleak.AdvertisementData) :
  should_accept f device advertisement = true
  <-> ~ Spec.some_configured f \/ Spec.accept_criteria_exact f device advertisement.
Proof.
  rewrite should_accept_orb. unfold Spec.accept_criteria_exact.
  rewrite !orb_true_iff, none_configured, mac_test, name_test.
  rewrite keys_test, any_test.
  tauto.
Qed.

End FilterFacts.

(** ** Claims on the filter *)

Section FilterClaims.
Import PayloadFilter.

(** C7, as amended.  A filter whose four sets are all absent or empty
    accepts everything.  A filter with some non-empty set accepts exactly
    when the upper-cased source address is in the address set, or the
    source name is present, not empty and in the name set, or some vendor
    id of the vendor-data map is in the vendor-id set, or some service id
    of the service-id list is in the service-id set; with an address set
    stored in upper case the first test is membership whatever the case.
    A filter with a vendor-id set alone rejects every event whose vendor
    ids are none or all outside the set. *)
Theorem should_accept_spec (f : t) (device : Bleak.BLEDevice)
    (advertisement : Bleak.AdvertisementData) :
  (~ Spec.some_configured f -> should_accept f device advertisement = true)
  /\ (Spec.some_configured f ->
      (should_accept f device advertisement = true
       <-> Spec.accept_criteria_exact f device advertisement))
  /\ (Spec.some_configured f -> Spec.upper_cased (mac_whitelist f) ->
      Bleak.name device <> Some EmptyString ->
      (should_accept f device advertisement = true
       <-> Spec.accept_criteria f device advertisement))
  /\ (Spec.configured (manufacturer_id_whitelist f) ->
      ~ Spec.configured (mac_whitelist f) ->
      ~ Spec.configured (name_whitelist f) ->
      ~ Spec.configured (service_uuid_whitelist f) ->
      (forall mid, mid ∈ Dict.keys (Bleak.manufacturer_data advertisement) ->
                   ~ Spec.in_set mid (manufacturer_id_whitelist f)) ->
      should_accept f device advertisement = false).
Proof.
  pose proof (should_accept_exact f device advertisement) as Hex.
  split; [|split; [|split]].
  - intros Hnone. apply Hex. left. exact Hnone.
  - intros Hsome. rewrite Hex. tauto.
  - intros Hsome Hup Hname. rewrite Hex.
    unfold Spec.accept_criteria, Spec.accept_criteria_exact.
    rewrite <- (ci_member_upper_cased _ _ Hup).
    assert (Hn : (exists n, Bleak.name device = Some n /\ n <> EmptyString
                            /\ Spec.in_set n (name_whitelist f))
                 <-> (exists n, Bleak.name device = Some n
                                /\ Spec.in_set n (name_whitelist f))).
    { split.
      - intros (n & E & _ & Hin). eauto.
      - intros (n & E & Hin). exists n. split; [exact E|]. split; [|exact Hin].
        intros ->. apply Hname, E. }
    rewrite Hn. tauto.
  - intros Hv Hm Hn Hs Hdis.
    destruct (should_accept f device advertisement) eqn:E; [|reflexivity].
    exfalso. destruct (proj1 Hex eq_refl) as [Hnone | Hcrit].
    + apply Hnone. right. right. left. exact Hv.
    + assert (Hconf : forall `{Countable A} (x : A) s, Spec.in_set x s -> Spec.configured s).
      { intros A ? ? x s Hin. apply truthy_configured. eapply in_set_truthy, Hin. }
      destruct Hcrit as [H|[(n & _ & _ & H)|[(mid & Hk & H)|(u & _ & H)]]].
      * apply Hm. eapply Hconf, H.
      * apply Hn. eapply Hconf, H.
      * eapply Hdis; eassumption.
      * apply Hs. eapply Hconf, H.
Qed.

Lemma vendor_filter_configured : Spec.some_configured Sample.vendor_filter.
Proof.
  right. right. left. apply truthy_configured. vm_compute. reflexivity.
Defined.

Lemma should_accept_spec_witness :
  Spec.some_configured Sample.vendor_filter
  /\ (should_accept Sample.vendor_filter Sample.lower_device Sample.plain_adv = true
      <-> Spec.accept_criteria_exact Sample.vendor_filter Sample.lower_device
            Sample.plain_adv).
Proof.
  split; [exact vendor_filter_configured|].
  apply (proj1 (proj2 (should_accept_spec Sample.vendor_filter
                         Sample.lower_device Sample.plain_adv))).
  exact vendor_filter_configured.
Defined.

(** C7, as stated, fails twice.  A name filter that lists the empty name
    does not accept a device whose name is the empty string, although that
    name is present and in the name set; and an address filter with a
    lower-case entry does not accept the device with that very address,
    because only the device address is upper-cased before the lookup. *)
Lemma should_accept_claim_fails :
  (Spec.some_configured Sample.names_filter
   /\ Spec.accept_criteria Sample.names_filter Sample.unnamed_device Sample.plain_adv
   /\ should_accept Sample.names_filter Sample.unnamed_device Sample.plain_adv = false)
  /\ (Spec.some_configured Sample.lower_filter
      /\ Spec.accept_criteria Sample.lower_filter Sample.lower_device Sample.plain_adv
      /\ should_accept Sample.lower_filter Sample.lower_device Sample.plain_adv = false).
Proof.
  split; (split; [|split]).
  - right. left. apply truthy_configured. vm_compute. reflexivity.
  - right. left. exists EmptyString. split; [reflexivity|].
    eexists. split; [reflexivity|]. set_solver.
  - vm_compute. reflexivity.
  - left. apply truthy_configured. vm_compute. reflexivity.
  - left. exists "aa:bb:cc:dd:ee:ff". split; [|reflexivity].
    eexists. split; [reflexivity|]. set_solver.
  - vm_compute. reflexivity.
Qed.

End FilterClaims.

(** ** Claims on the configuration *)

Section ConfigClaims.
Import Config.

Lemma numeric_isinstance (v : jval) :
  Spec.numeric v <-> isinstance_int_float v = true.
Proof.
  unfold Spec.numeric. destruct v; simpl; split; try discriminate; eauto;
    intros (x & [=]).
Qed.

Lemma negative_lt_0 (v : jval) : Spec.negative v <-> lt_0 v = true.
Proof.
  unfold Spec.negative, lt_0. destruct (as_num v) as [x|].
  - split; [intros (y & [= <-] & H); exact H | eauto].
  - split; [intros (y & [=] & _) | discriminate].
Qed.

Lemma positive_integer_test (v : jval) :
  Spec.positive_integer v <-> negb (isinstance_int v) || lt_1 v = false.
Proof.
  unfold Spec.positive_integer. destruct v as [|[|]|n| | | |]; simpl; split;
    try discriminate; try reflexivity; auto.
  all: try (intros [(m & [=] & _) | [=]]; fail).
  - intros [(m & [= <-] & Hm) | [=]]. apply Z.ltb_ge. exact Hm.
  - intros Hn. left. exists n. split; [reflexivity | apply Z.ltb_ge, Hn].
Qed.

Lemma boolean_isinstance (v : jval) :
  Spec.boolean v <-> isinstance_bool v = true.
Proof.
  unfold Spec.boolean. destruct v; simpl; split; try discriminate; eauto;
    intros (x & [=]).
Qed.

(** Each check passes or raises [ValueError], by the value under its key. *)
Lemma check_publish_interval_spec (d : pydict string jval) :
  check_publish_interval (VDict d)
  = match Dict.get "publish_interval_sec" d with
    | Some v => if negb (isinstance_int_float v) || lt_0 v
                then Raise ValueError else Ok tt
    | None => Ok tt
    end.
Proof.
  unfold check_publish_interval, contains, getitem, Dict.mem; simpl.
  destruct (Dict.get _ d); reflexivity.
Qed.

Lemma check_max_buffer_size_spec (d : pydict string jval) :
  check_max_buffer_size (VDict d)
  = match Dict.get "max_buffer_size" d with
    | Some v => if negb (isinstance_int v) || lt_1 v
                then Raise ValueError else Ok tt
    | None => Ok tt
    end.
Proof.
  unfold check_max_buffer_size, contains, getitem, Dict.mem; simpl.
  destruct (Dict.get _ d); reflexivity.
Qed.

Lemma check_throttle_control_spec (d : pydict string jval) :
  check_throttle_control (VDict d)
  = match Dict.get "throttle_control" d with
    | Some v => if negb (isinstance_bool v) then Raise ValueError else Ok tt
    | None => Ok tt
    end.
Proof.
  unfold check_throttle_control, contains, getitem, Dict.mem; simpl.
  destruct (Dict.get _ d); reflexivity.
Qed.

(** The policy checks raise [ValueError] exactly on a bad policy. *)
Lemma check_policy_spec (d : pydict string jval) :
  (Spec.bad_policy d -> check_policy (VDict d) = Raise ValueError)
  /\ (~ Spec.bad_policy d -> check_policy (VDict d) = Ok tt).
Proof.
  unfold check_policy, Spec.bad_policy.
  rewrite check_publish_interval_spec, check_max_buffer_size_spec,
    check_throttle_control_spec.
  destruct (Dict.get "publish_interval_sec" d) as [vi|];
    [destruct (negb (isinstance_int_float vi) || lt_0 vi) eqn:Ei|]; simpl.
  1: { split; [reflexivity|]. intros Hgood. exfalso. apply Hgood. left.
       exists vi. split; [reflexivity|].
       apply orb_true_iff in Ei as [Ei|Ei].
       - left. rewrite numeric_isinstance. apply negb_true_iff in Ei. congruence.
       - right. apply negative_lt_0, Ei. }
  all: destruct (Dict.get "max_buffer_size" d) as [vs|];
    [destruct (negb (isinstance_int vs) || lt_1 vs) eqn:Es|]; simpl.
  all: try (split; [reflexivity|]; intros Hgood; exfalso; apply Hgood;
            right; left; exists vs; split; [reflexivity|];
            rewrite positive_integer_test; congruence).
  all: destruct (Dict.get "throttle_control" d) as [vt|];
    [destruct (negb (isinstance_bool vt)) eqn:Et|]; simpl.
  all: try (split; [reflexivity|]; intros Hgood; exfalso; apply Hgood;
            right; right; exists vt; split; [reflexivity|];
            rewrite boolean_isinstance; apply negb_true_iff in Et; congruence).
  all: split; [|reflexivity]; intros Hbad; exfalso.
  all: destruct Hbad as [(v & [= <-] & Hv)|[(v & [= <-] & Hv)|(v & [= <-] & Hv)]].
  all: try (apply orb_false_iff in Ei as [Ei1 Ei2]; apply negb_false_iff in Ei1;
            destruct Hv as [Hv|Hv];
            [apply Hv, numeric_isinstance, Ei1
            | apply negative_lt_0 in Hv; congruence]).
  all: try (apply Hv, positive_integer_test, Es).
  all: try (apply Hv, boolean_isinstance; apply negb_false_iff in Et; exact Et).
Qed.

(** Without booleans under the two numeric keys, the constraints of the
    code are those of JSON numbers. *)
Lemma bad_policy_json (d : pydict string jval) :
  Spec.no_boolean_number d -> (Spec.json_bad_policy d <-> Spec.bad_policy d).
Proof.
  intros [Hi Hs]. unfold Spec.json_bad_policy, Spec.bad_policy.
  assert (Hnum : forall v, ~ Spec.boolean v -> (Spec.json_number v <-> Spec.numeric v)).
  { intros v Hb. unfold Spec.json_number, Spec.numeric. destruct v; simpl; split;
      try (intros [(x & [=]) | (x & [=])]; fail); try (intros (x & [=]); fail);
      eauto.
    intros _. exfalso. apply Hb. eexists. reflexivity. }
  assert (Hpos : forall v, ~ Spec.boolean v ->
                   (Spec.json_positive_integer v <-> Spec.positive_integer v)).
  { intros v Hb. unfold Spec.json_positive_integer, Spec.positive_integer. split.
    - intros H. left. exact H.
    - intros [H | ->]; [exact H|]. exfalso. apply Hb. eexists. reflexivity. }
  split.
  - intros [(v & E & H) | [(v & E & H) | H]].
    + left. exists v. split; [exact E|]. rewrite <- (Hnum v (Hi v E)). exact H.
    + right. left. exists v. split; [exact E|]. rewrite <- (Hpos v (Hs v E)). exact H.
    + right. right. exact H.
  - intros [(v & E & H) | [(v & E & H) | H]].
    + left. exists v. split; [exact E|]. rewrite (Hnum v (Hi v E)). exact H.
    + right. left. exists v. split; [exact E|]. rewrite (Hpos v (Hs v E)). exact H.
    + right. right. exact H.
Qed.

(** C9, as amended.  A configuration mapping in which
    [publish_interval_sec] is not an [int], [float] or [bool] or is
    negative, or [max_buffer_size] is neither an [int] of at least one nor
    [True], or [throttle_control] is not a [bool], makes [load_config]
    raise [ValueError]; when each of the three keys is absent or within
    its constraint the policy checks pass and [load_config] goes on to the
    checks of the [mqtt] section.  When no boolean stands under the two
    numeric keys these are the constraints on JSON numbers: a number that
    is not negative, an integer that is positive. *)
Theorem load_config_policy (d : pydict string jval) :
  (Spec.bad_policy d -> load_config (Parsed (VDict d)) = Raise ValueError)
  /\ (~ Spec.bad_policy d ->
      check_policy (VDict d) = Ok tt
      /\ load_config (Parsed (VDict d))
         = (_ <- check_mqtt (VDict d) ;; Ok (VDict d)))
  /\ (Spec.no_boolean_number d ->
      (Spec.json_bad_policy d -> load_config (Parsed (VDict d)) = Raise ValueError)
      /\ (~ Spec.json_bad_policy d -> check_policy (VDict d) = Ok tt)).
Proof.
  destruct (check_policy_spec d) as [Hbad Hgood].
  assert (Hraise : Spec.bad_policy d -> load_config (Parsed (VDict d)) = Raise ValueError).
  { intros H. unfold load_config. rewrite (Hbad H). reflexivity. }
  split; [exact Hraise|]. split.
  - intros H. split; [exact (Hgood H)|].
    unfold load_config. rewrite (Hgood H). reflexivity.
  - intros Hnb. pose proof (bad_policy_json d Hnb) as Hjson. split.
    + intros H. apply Hraise, Hjson, H.
    + intros H. apply Hgood. intros Hb. apply H, Hjson, Hb.
Qed.

Lemma bad_config_is_bad : Spec.bad_policy Sample.bad_config.
Proof.
  left. exists (VInt (-1)). split; [reflexivity|]. right.
  exists (NInt (-1)). split; reflexivity.
Defined.

Lemma load_config_policy_witness :
  Spec.bad_policy Sample.bad_config
  /\ load_config (Parsed (VDict Sample.bad_config)) = Raise ValueError.
Proof.
  split; [exact bad_config_is_bad|].
  apply (proj1 (load_config_policy Sample.bad_config)). exact bad_config_is_bad.
Defined.

(** A sound configuration is loaded as it is. *)
Example load_good_config :
  load_config (Parsed (VDict Sample.good_config)) = Ok (VDict Sample.good_config).
Proof. vm_compute. reflexivity. Qed.

(** C9, as stated, fails: [true] is neither a number nor a positive
    integer of JSON, yet a configuration with [true] for the interval and
    for the buffer size is loaded, because [isinstance(True, int)] holds. *)
Lemma load_config_claim_fails :
  Spec.json_bad_policy Sample.boolean_config
  /\ Dict.get "publish_interval_sec" Sample.boolean_config = Some (VBool true)
  /\ Dict.get "max_buffer_size" Sample.boolean_config = Some (VBool true)
  /\ load_config (Parsed (VDict Sample.boolean_config))
     = Ok (VDict Sample.boolean_config).
Proof.
  split; [|repeat split; reflexivity].
  right. left. exists (VBool true). split; [reflexivity|].
  intros (n & [=] & _).
Qed.

End ConfigClaims.

(** ** Bytes *)

Section BytesFacts.

Lemma byte_of_int_ok (n : Z) :
  0 <= n <= 255 -> Bytes.byte_of_int n = Ok (Spec.byte n).
Proof.
  intros Hn. unfold Bytes.byte_of_int, Spec.byte.
  destruct (Z.ltb_spec n 0) as [?|_]; [lia|].
  destruct (Byte.of_N (Z.to_N n)) as [b|] eqn:E; [reflexivity|].
  apply Byte.of_N_None_iff in E. lia.
Qed.

Lemma byte_of_int_range (n : Z) (b : byte) :
  Bytes.byte_of_int n = Ok b -> 0 <= n <= 255.
Proof.
  unfold Bytes.byte_of_int. destruct (Z.ltb_spec n 0) as [?|Hn]; [discriminate|].
  destruct (Byte.of_N (Z.to_N n)) as [b'|] eqn:E; [|discriminate]. intros _.
  apply Byte.to_of_N in E. pose proof (Byte.to_N_bounded b'). lia.
Qed.

Lemma byte_of_int_error (n : Z) :
  ~ 0 <= n <= 255 -> Bytes.byte_of_int n = Raise ValueError.
Proof.
  intros Hn. destruct (Bytes.byte_of_int n) as [b|e] eqn:E.
  - apply byte_of_int_range in E. contradiction.
  - unfold Bytes.byte_of_int in E. destruct (n <? 0); [congruence|].
    destruct (Byte.of_N (Z.to_N n)); congruence.
Qed.

Lemma int_of_byte_byte (n : Z) :
  0 <= n <= 255 -> Bytes.int_of_byte (Spec.byte n) = n.
Proof.
  intros Hn. unfold Bytes.int_of_byte, Spec.byte.
  destruct (Byte.of_N (Z.to_N n)) as [b|] eqn:E.
  - apply Byte.to_of_N in E. rewrite E. lia.
  - apply Byte.of_N_None_iff in E. lia.
Qed.


Lemma append_ok (packet : bytes) (n : Z) :
  0 <= n <= 255 -> Bytes.append packet n = Ok (packet ++ [Spec.byte n]).
Proof.
  intros Hn. unfold Bytes.append. rewrite (byte_of_int_ok n Hn). reflexivity.
Qed.

Lemma append_error (packet : bytes) (n : Z) :
  ~ 0 <= n <= 255 -> Bytes.append packet n = Raise ValueError.
Proof.
  intros Hn. unfold Bytes.append. rewrite (byte_of_int_error n Hn). reflexivity.
Qed.

Lemma land_low_byte (n : Z) : Z.land n 0xFF = n mod 256.
Proof. change 0xFF with (Z.ones 8). rewrite Z.land_ones by lia. reflexivity. Qed.

Lemma land_high_byte (n : Z) : Z.land (Z.shiftr n 8) 0xFF = n / 256 mod 256.
Proof. rewrite land_low_byte, Z.shiftr_div_pow2 by lia. reflexivity. Qed.

(** The two bytes of a vendor id give back the id modulo [2^16]. *)
Lemma le16_value (n : Z) :
  exists lo hi, Spec.le16 n = [lo; hi]
    /\ Bytes.int_of_byte lo + 256 * Bytes.int_of_byte hi = n mod 65536.
Proof.
  exists (Spec.byte (n mod 256)), (Spec.byte (n / 256 mod 256)).
  split; [reflexivity|].
  rewrite !int_of_byte_byte
    by (pose proof (Z.mod_pos_bound n 256 ltac:(lia));
        pose proof (Z.mod_pos_bound (n / 256) 256 ltac:(lia)); lia).
  change 65536 with (256 * 256). rewrite Z.rem_mul_r by lia. reflexivity.
Qed.

Lemma digit_value_range (c : ascii) (v : Z) :
  Bytes.digit_value c = Some v -> 0 <= v <= 15.
Proof.
  unfold Bytes.digit_value.
  repeat match goal with
    | |- context [Z.leb ?a ?b] => destruct (Z.leb_spec a b); simpl
    end; intros [= <-]; lia.
Qed.

Lemma hex_digit_not_space (c : ascii) :
  Spec.is_hex_digit c = true -> Bytes.is_space c = false.
Proof.
  unfold Spec.is_hex_digit, Bytes.digit_value, Bytes.is_space.
  repeat match goal with
    | |- context [Z.leb ?a ?b] => destruct (Z.leb_spec a b); simpl
    | |- context [Z.eqb ?a ?b] => destruct (Z.eqb_spec a b); simpl
    end; try discriminate; try reflexivity; lia.
Qed.

(** [fromhex] turns [2 n] hexadecimal digits into [n] bytes. *)
Lemma fromhex_digits (n : nat) (s : string) :
  String.length s = (2 * n)%nat -> Str.all_chars Spec.is_hex_digit s = true ->
  exists b, Bytes.fromhex s = Ok b /\ length b = n.
Proof.
  revert s. induction n as [|n IH]; intros s Hlen Hall.
  - destruct s; [|discriminate]. exists []. split; reflexivity.
  - destruct s as [|c [|d s]]; simpl in Hlen; try lia.
    unfold Str.all_chars in *. simpl in Hall.
    apply andb_true_iff in Hall as [Hc Hall].
    apply andb_true_iff in Hall as [Hd Hall].
    destruct (IH s ltac:(lia) Hall) as (b & Eb & Hb).
    simpl. rewrite (hex_digit_not_space c Hc).
    unfold Spec.is_hex_digit in Hc, Hd.
    destruct (Bytes.digit_value c) as [top|] eqn:Ec; [|discriminate].
    destruct (Bytes.digit_value d) as [bot|] eqn:Ed; [|discriminate].
    apply digit_value_range in Ec, Ed.
    rewrite byte_of_int_ok by lia. simpl. rewrite Eb. simpl.
    eexists. split; [reflexivity|]. simpl. lia.
Qed.

Lemma uuid128_bytes (uuid_str : string) :
  Spec.is_uuid128 uuid_str ->
  Spec.is_hex_text uuid_str /\ length (Spec.uuid_bytes uuid_str) = 16%nat.
Proof.
  intros [Hlen Hall]. destruct (fromhex_digits 16 _ Hlen Hall) as (b & Eb & Hb).
  unfold Spec.is_hex_text, Spec.uuid_bytes. rewrite Eb. eauto.
Qed.

End BytesFacts.

(** ** Binary reconstruction *)

Section ReconstructFacts.

(** A loop whose body appends [f x] when [x] can be framed and raises
    otherwise appends all the [f x], or raises. *)
Lemma for_each_extend {A} (body : bytes -> A -> result bytes) (f : A -> bytes)
    (ok : A -> Prop) (l : list A) (packet : bytes) :
  (forall p x, ok x -> body p x = Ok (p ++ f x)) ->
  Forall ok l ->
  for_each body l packet = Ok (packet ++ concat (map f l)).
Proof.
  intros Hbody. revert packet. induction l as [|x l IH]; intros packet Hl; simpl.
  - rewrite app_nil_r. reflexivity.
  - apply Forall_cons in Hl as [Hx Hl]. rewrite (Hbody _ _ Hx). simpl.
    rewrite (IH _ Hl), <- app_assoc. reflexivity.
Qed.

Lemma for_each_ok_inv {A S} (body : S -> A -> result S) (ok : A -> Prop)
    (l : list A) (s s' : S) :
  (forall p x p', body p x = Ok p' -> ok x) ->
  for_each body l s = Ok s' -> Forall ok l.
Proof.
  intros Hbody. revert s. induction l as [|x l IH]; intros s E; simpl in E.
  - apply Forall_nil_2.
  - apply bind_ok in E as (s1 & E1 & E). apply Forall_cons. split.
    + eapply Hbody, E1.
    + eapply IH, E.
Qed.

Lemma add_service_uuid_ok (packet : bytes) (uuid_str : string) :
  Spec.is_hex_text uuid_str ->
  add_service_uuid packet uuid_str = Ok (packet ++ Spec.service_id_record uuid_str).
Proof.
  intros (b & Eb). unfold add_service_uuid, Spec.service_id_record, Spec.uuid_bytes.
  rewrite Eb. cbn [bind]. unfold BLE_UUID_TYPE_INCOMPLETE_128.
  repeat (rewrite append_ok by lia; cbn [bind]).
  unfold Bytes.extend. rewrite <- !app_assoc. reflexivity.
Qed.

Lemma add_service_uuid_inv (packet : bytes) (uuid_str : string) (packet' : bytes) :
  add_service_uuid packet uuid_str = Ok packet' -> Spec.is_hex_text uuid_str.
Proof.
  unfold add_service_uuid, Spec.is_hex_text. intros E.
  apply bind_ok in E as (b & Eb & _). eauto.
Qed.

Lemma add_manufacturer_data_ok (packet : bytes) (item : Z * bytes) :
  3 + bytes_len (snd item) <= 255 ->
  add_manufacturer_data packet item = Ok (packet ++ Spec.vendor_record item).
Proof.
  destruct item as [company_id data]. simpl. intros Hfit.
  assert (0 <= bytes_len data) by (unfold bytes_len; lia).
  unfold add_manufacturer_data, Spec.vendor_record, Spec.record, Spec.le16,
    BLE_TYPE_MANUFACTURER_DATA.
  rewrite land_low_byte, land_high_byte.
  pose proof (Z.mod_pos_bound company_id 256 ltac:(lia)).
  pose proof (Z.mod_pos_bound (company_id / 256) 256 ltac:(lia)).
  repeat (rewrite append_ok by lia; cbn [bind]).
  unfold Bytes.extend. rewrite <- !app_assoc. cbn [app fst snd].
  change Byte.xff with (Spec.byte 255).
  replace (1 + bytes_len (Spec.byte (company_id mod 256)
             :: Spec.byte (company_id / 256 mod 256) :: data))
    with (1 + 2 + bytes_len data)
    by (unfold bytes_len; simpl length; lia).
  reflexivity.
Qed.

Lemma add_manufacturer_data_inv (packet : bytes) (item : Z * bytes) (packet' : bytes) :
  add_manufacturer_data packet item = Ok packet' ->
  3 + bytes_len (snd item) <= 255.
Proof.
  destruct item as [company_id data]. unfold add_manufacturer_data. simpl.
  intros E. apply bind_ok in E as (p1 & E1 & _).
  unfold Bytes.append in E1. apply bind_ok in E1 as (b & E1 & _).
  apply byte_of_int_range in E1. lia.
Qed.

Lemma add_service_data_ok (packet : bytes) (item : string * bytes) :
  Spec.is_hex_text (fst item) ->
  1 + bytes_len (Spec.uuid_bytes (fst item)) + bytes_len (snd item) <= 255 ->
  add_service_data packet item = Ok (packet ++ Spec.service_data_record item).
Proof.
  destruct item as [uuid_str data]. simpl. intros (b & Eb) Hfit.
  unfold add_service_data, Spec.service_data_record, Spec.record, Spec.uuid_bytes in *.
  cbn [fst snd] in *. rewrite Eb in *. cbn [bind].
  assert (0 <= bytes_len b /\ 0 <= bytes_len data) by (unfold bytes_len; lia).
  unfold BLE_TYPE_SERVICE_DATA_16BIT.
  repeat (rewrite append_ok by lia; cbn [bind]).
  unfold Bytes.extend. rewrite <- !app_assoc. cbn [app].
  replace (1 + bytes_len (rev b ++ data)) with (1 + bytes_len b + bytes_len data)
    by (unfold bytes_len; rewrite length_app, length_rev; lia).
  reflexivity.
Qed.

Lemma add_service_data_inv (packet : bytes) (item : string * bytes) (packet' : bytes) :
  add_service_data packet item = Ok packet' ->
  Spec.is_hex_text (fst item)
  /\ 1 + bytes_len (Spec.uuid_bytes (fst item)) + bytes_len (snd item) <= 255.
Proof.
  destruct item as [uuid_str data]. unfold add_service_data. simpl.
  intros E. apply bind_ok in E as (b & Eb & E).
  apply bind_ok in E as (p1 & E1 & _).
  unfold Bytes.append in E1. apply bind_ok in E1 as (x & E1 & _).
  apply byte_of_int_range in E1.
  unfold Spec.is_hex_text, Spec.uuid_bytes. rewrite Eb. split; [eauto | lia].
Qed.

(** The reconstruction succeeds exactly on the events that can be framed,
    and then gives the records of the service ids, of the vendor entries
    and of the service-data entries, the maps in iteration order. *)
Lemma reconstruct_ok_iff (ev : BLEMessage) (b : bytes) :
  _reconstruct_advertising_data ev = Ok b
  <-> Spec.encodable ev /\ b = Spec.blob ev.
Proof.
  unfold _reconstruct_advertising_data, Spec.encodable, Spec.blob, Spec.blob_of,
    Dict.items.
  assert (Huuids : match service_uuids ev with
                   | [] => Ok []
                   | _ :: _ => for_each add_service_uuid (service_uuids ev) []
                   end = for_each add_service_uuid (service_uuids ev) []).
  { destruct (service_uuids ev); reflexivity. }
  rewrite Huuids. clear Huuids. split.
  - intros E. apply bind_ok in E as (p1 & E1 & E).
    apply bind_ok in E as (p2 & E2 & E). apply bind_ok in E as (p3 & E3 & E).
    injection E as <-.
    pose proof (for_each_ok_inv _ Spec.is_hex_text _ _ _ add_service_uuid_inv E1) as H1.
    pose proof (for_each_ok_inv _ _ _ _ _ add_manufacturer_data_inv E2) as H2.
    pose proof (for_each_ok_inv _ _ _ _ _ add_service_data_inv E3) as H3.
    split; [repeat split; assumption|].
    rewrite (for_each_extend _ Spec.service_id_record Spec.is_hex_text) in E1
      by (auto using add_service_uuid_ok).
    injection E1 as <-.
    rewrite (for_each_extend _ Spec.vendor_record _ _ _ add_manufacturer_data_ok H2) in E2.
    injection E2 as <-.
    rewrite (for_each_extend _ Spec.service_data_record
               (fun item => Spec.is_hex_text (fst item)
                  /\ 1 + bytes_len (Spec.uuid_bytes (fst item)) + bytes_len (snd item) <= 255))
      in E3 by (try assumption; intros p x [? ?]; apply add_service_data_ok; assumption).
    injection E3 as <-. simpl. rewrite <- app_assoc. reflexivity.
  - intros [(H1 & H2 & H3) ->].
    rewrite (for_each_extend _ Spec.service_id_record Spec.is_hex_text)
      by (auto using add_service_uuid_ok). simpl.
    rewrite (for_each_extend _ Spec.vendor_record _ _ _ add_manufacturer_data_ok H2).
    simpl.
    rewrite (for_each_extend _ Spec.service_data_record
               (fun item => Spec.is_hex_text (fst item)
                  /\ 1 + bytes_len (Spec.uuid_bytes (fst item)) + bytes_len (snd item) <= 255))
      by (try assumption; intros p x [? ?]; apply add_service_data_ok; assumption).
    simpl. rewrite <- app_assoc. reflexivity.
Qed.

End ReconstructFacts.

(** ** Framing and order of the records *)

Section FramingFacts.

Lemma walk_skip (body rest : bytes) :
  Spec.walk (length body) (body ++ rest) = Spec.walk 0 rest.
Proof. induction body as [|b body IH]; simpl; [reflexivity | exact IH]. Qed.

(** A record whose length byte counts what follows is read as one record. *)
Lemma walk_record (n : Z) (body rest : bytes) :
  0 <= n <= 255 -> length body = Z.to_nat n ->
  Spec.walk 0 ((Spec.byte n :: body) ++ rest)
  = option_map (cons n) (Spec.walk 0 rest).
Proof.
  intros Hn Hlen. simpl. rewrite (int_of_byte_byte n Hn), <- Hlen, walk_skip.
  reflexivity.
Qed.

Lemma walk_records {A} (f : A -> bytes) (g : A -> Z) (l : list A) (rest : bytes) :
  Forall (fun x => exists body, f x = Spec.byte (g x) :: body
                     /\ 0 <= g x <= 255 /\ length body = Z.to_nat (g x)) l ->
  Spec.walk 0 (concat (map f l) ++ rest)
  = option_map (app (map g l)) (Spec.walk 0 rest).
Proof.
  induction l as [|x l IH]; intros Hl; simpl.
  - destruct (Spec.walk 0 rest); reflexivity.
  - apply Forall_cons in Hl as [(body & Ef & Hg & Hlen) Hl].
    rewrite <- app_assoc, Ef, (walk_record _ _ _ Hg Hlen), (IH Hl).
    destruct (Spec.walk 0 rest); reflexivity.
Qed.

Lemma sort_by_ascending {K V} (leb : K -> K -> bool) (l : list (K * V)) :
  Spec.ascending leb l -> Spec.sort_by leb l = l.
Proof.
  unfold Spec.sort_by. induction l as [|x l IH]; simpl; [reflexivity|].
  intros [Hx Hl]. rewrite (IH Hl). destruct l as [|y l]; [reflexivity|].
  apply Forall_cons in Hx as [Hxy _]. simpl. rewrite Hxy. reflexivity.
Qed.

End FramingFacts.

(** ** Claims on the binary reconstruction *)

Section ReconstructClaims.

(** C2, as amended.  For an event whose service ids are 128-bit UUIDs,
    whose vendor entries have at most 252 bytes of data and whose
    service-data entries have hexadecimal keys and fit a one-byte length,
    the reconstruction is the concatenation, with nothing after it, of one
    record per service id in list order (length byte 17, type [0x06], the
    16 UUID bytes reversed), one record per vendor entry (length byte
    [3 + len(data)], type [0xFF], the vendor id as two bytes low byte
    first, the data), and one record per service-data entry (length byte
    [1 + len(uuid bytes) + len(data)], type [0x16], the UUID bytes
    reversed, the data); read record by record the blob shows exactly these
    length bytes in this order. *)
Theorem reconstruct_records (ev : BLEMessage) :
  Forall Spec.is_uuid128 (service_uuids ev) ->
  Forall (fun item : Z * bytes => bytes_len (snd item) <= 252)
    (manufacturer_data ev) ->
  Forall (fun item : string * bytes =>
            Spec.is_hex_text (fst item)
            /\ 1 + bytes_len (Spec.uuid_bytes (fst item)) + bytes_len (snd item) <= 255)
    (service_data ev) ->
  _reconstruct_advertising_data ev = Ok (Spec.blob ev)
  /\ Spec.length_bytes (Spec.blob ev)
     = Some (map (fun _ => 17) (service_uuids ev)
             ++ map (fun item => 3 + bytes_len (snd item)) (manufacturer_data ev)
             ++ map (fun item => 1 + bytes_len (Spec.uuid_bytes (fst item))
                                 + bytes_len (snd item)) (service_data ev)).
Proof.
  intros Hu Hv Hs. split.
  - apply reconstruct_ok_iff. split; [|reflexivity]. split; [|split].
    + eapply Forall_impl; [exact Hu|]. intros u Hu'. apply uuid128_bytes, Hu'.
    + eapply Forall_impl; [exact Hv|]. simpl. intros; lia.
    + exact Hs.
  - unfold Spec.length_bytes, Spec.blob, Spec.blob_of, Dict.items.
    rewrite (walk_records Spec.service_id_record (fun _ => 17)).
    2: { eapply Forall_impl; [exact Hu|]. intros u Hu'. simpl.
         apply uuid128_bytes in Hu' as [_ Hlen].
         eexists. split; [reflexivity|]. split; [lia|].
         simpl. rewrite length_rev, Hlen. reflexivity. }
    rewrite (walk_records Spec.vendor_record (fun item => 3 + bytes_len (snd item))).
    2: { eapply Forall_impl; [exact Hv|]. intros [id data] Hfit. simpl in *.
         unfold Spec.vendor_record, Spec.record, bytes_len in *. simpl.
         eexists. split; [f_equal; f_equal; lia|]. split; [lia|].
         simpl length. lia. }
    rewrite <- (app_nil_r (concat (map Spec.service_data_record _))).
    rewrite (walk_records Spec.service_data_record
               (fun item => 1 + bytes_len (Spec.uuid_bytes (fst item))
                            + bytes_len (snd item))).
    2: { eapply Forall_impl; [exact Hs|]. intros [u data] [_ Hfit]. simpl in *.
         unfold Spec.service_data_record, Spec.record, bytes_len in *. simpl.
         eexists. split; [f_equal; f_equal; rewrite length_app, length_rev; lia|].
         split; [lia|]. simpl length. rewrite length_app, length_rev. lia. }
    simpl. rewrite app_nil_r. reflexivity.
Qed.

Lemma framed_event_uuids : Forall Spec.is_uuid128 (service_uuids Sample.framed_event).
Proof. repeat constructor. Defined.

Lemma framed_event_vendor :
  Forall (fun item : Z * bytes => bytes_len (snd item) <= 252)
    (manufacturer_data Sample.framed_event).
Proof. repeat constructor. vm_compute. discriminate. Defined.

Lemma framed_event_service :
  Forall (fun item : string * bytes =>
            Spec.is_hex_text (fst item)
            /\ 1 + bytes_len (Spec.uuid_bytes (fst item)) + bytes_len (snd item) <= 255)
    (service_data Sample.framed_event).
Proof.
  repeat constructor.
  - eexists. vm_compute. reflexivity.
  - vm_compute. discriminate.
Defined.

(** One service id, a vendor entry of four bytes and a service-data entry
    of two bytes under a two-byte UUID: three records, of length bytes 17,
    7 and 5. *)
Lemma reconstruct_records_witness :
  Forall Spec.is_uuid128 (service_uuids Sample.framed_event)
  /\ _reconstruct_advertising_data Sample.framed_event
     = Ok (Spec.blob Sample.framed_event)
  /\ Spec.length_bytes (Spec.blob Sample.framed_event) = Some [17; 7; 2 + 3].
Proof.
  split; [exact framed_event_uuids|].
  exact (reconstruct_records Sample.framed_event framed_event_uuids
           framed_event_vendor framed_event_service).
Defined.

(** C2, as stated, fails: an event without service ids has only 128-bit
    service ids, yet with a vendor entry of 253 bytes, or with a
    service-data key that is not hexadecimal, the reconstruction raises
    [ValueError] and there is no blob. *)
Lemma reconstruct_claim_fails :
  (Forall Spec.is_uuid128 (service_uuids Sample.oversized_event)
   /\ _reconstruct_advertising_data Sample.oversized_event = Raise ValueError)
  /\ (Forall Spec.is_uuid128 (service_uuids Sample.malformed_event)
      /\ _reconstruct_advertising_data Sample.malformed_event = Raise ValueError).
Proof.
  split; (split; [constructor | vm_compute; reflexivity]).
Qed.

(** C3, as amended.  The vendor-data records and the service-data records
    follow the iteration order of the two maps, which is the order in which
    their keys were inserted; when the keys were inserted in ascending
    order (numeric for vendor ids, lexicographic for service-data keys) the
    blob is the canonical one. *)
Theorem reconstruct_iteration_order
    (ev : BLEMessage) (vendor : list (Z * bytes)) (service : list (string * bytes)) :
  NoDup (map fst vendor) -> NoDup (map fst service) ->
  manufacturer_data ev = Dict.of_pairs vendor ->
  service_data ev = Dict.of_pairs service ->
  Spec.encodable ev ->
  _reconstruct_advertising_data ev
  = Ok (Spec.blob_of (service_uuids ev) vendor service)
  /\ (Spec.ascending Z.leb vendor -> Spec.ascending String.leb service ->
      _reconstruct_advertising_data ev = Ok (Spec.canonical_blob ev)).
Proof.
  intros Hv Hs Ev Es Henc.
  assert (E : _reconstruct_advertising_data ev
              = Ok (Spec.blob_of (service_uuids ev) vendor service)).
  { apply reconstruct_ok_iff. split; [exact Henc|].
    unfold Spec.blob, Dict.items.
    rewrite Ev, Es, !of_pairs_nodup by assumption. reflexivity. }
  split; [exact E|]. intros Hav Has. rewrite E.
  unfold Spec.canonical_blob, Dict.items.
  rewrite Ev, Es, !of_pairs_nodup by assumption.
  rewrite !sort_by_ascending by assumption. reflexivity.
Qed.

Lemma descending_event_encodable : Spec.encodable Sample.descending_event.
Proof.
  repeat split; repeat constructor;
    try (eexists; vm_compute; reflexivity); vm_compute; discriminate.
Defined.

Lemma reconstruct_iteration_order_witness :
  _reconstruct_advertising_data Sample.descending_event
  = Ok (Spec.blob_of [] [(2, [Byte.x22]); (1, [Byte.x11])]
          [("180f", [Byte.x64]); ("180a", [Byte.x0a])]).
Proof.
  refine (proj1 (reconstruct_iteration_order Sample.descending_event
                   [(2, [Byte.x22]); (1, [Byte.x11])]
                   [("180f", [Byte.x64]); ("180a", [Byte.x0a])]
                   _ _ eq_refl eq_refl descending_event_encodable)).
  - simpl. apply NoDup_cons. split; [|apply NoDup_singleton].
    apply not_elem_of_cons. split; [discriminate | apply not_elem_of_nil].
  - simpl. apply NoDup_cons. split; [|apply NoDup_singleton].
    apply not_elem_of_cons. split; [discriminate | apply not_elem_of_nil].
Defined.

(** C3, as stated, fails: with the vendor ids 2 and 1 and the service-data
    keys [180f] and [180a] inserted in this order, the records come out in
    this order, not in ascending order of key. *)
Lemma reconstruct_order_claim_fails :
  _reconstruct_advertising_data Sample.descending_event
  = Ok [Byte.x04; Byte.xff; Byte.x02; Byte.x00; Byte.x22;
        Byte.x04; Byte.xff; Byte.x01; Byte.x00; Byte.x11;
        Byte.x04; Byte.x16; Byte.x0f; Byte.x18; Byte.x64;
        Byte.x04; Byte.x16; Byte.x0a; Byte.x18; Byte.x0a]
  /\ Spec.canonical_blob Sample.descending_event
     = [Byte.x04; Byte.xff; Byte.x01; Byte.x00; Byte.x11;
        Byte.x04; Byte.xff; Byte.x02; Byte.x00; Byte.x22;
        Byte.x04; Byte.x16; Byte.x0a; Byte.x18; Byte.x0a;
        Byte.x04; Byte.x16; Byte.x0f; Byte.x18; Byte.x64]
  /\ _reconstruct_advertising_data Sample.descending_event
     <> Ok (Spec.canonical_blob Sample.descending_event).
Proof.
  split; [vm_compute; reflexivity|]. split; [vm_compute; reflexivity|].
  vm_compute. discriminate.
Qed.

End ReconstructClaims.

(** ** JSON *)

Section JsonFacts.









End JsonFacts.

(** ** Hexadecimal text *)

Section HexFacts.






Lemma pretty_N_char_digit (x : N) : Spec.is_digit (pretty_N_char x) = true.
Proof. unfold pretty_N_char. repeat case_match; reflexivity. Qed.

Lemma pretty_N_go_digits (x : N) (s : string) :
  Str.all_chars Spec.is_digit s = true ->
  Str.all_chars Spec.is_digit (pretty_N_go x s) = true.
Proof.
  revert s. induction (N.lt_wf_0 x) as [x _ IH]; intros s Hs.
  destruct (N.eq_dec x 0%N) as [->|Hx]; [rewrite pretty_N_go_0; exact Hs|].
  rewrite pretty_N_go_step by lia. apply IH.
  - apply N.div_lt; lia.
  - unfold Str.all_chars in *. cbn [list_ascii_of_string forallb].
    rewrite pretty_N_char_digit, Hs. reflexivity.
Qed.

Lemma pretty_N_go_nonempty (x : N) (s : string) :
  s <> EmptyString -> pretty_N_go x s <> EmptyString.
Proof.
  revert s. induction (N.lt_wf_0 x) as [x _ IH]; intros s Hs.
  destruct (N.eq_dec x 0%N) as [->|Hx]; [rewrite pretty_N_go_0; exact Hs|].
  rewrite pretty_N_go_step by lia. apply IH; [apply N.div_lt; lia | discriminate].
Qed.

Lemma pretty_N_digits (x : N) :
  pretty x <> EmptyString /\ Str.all_chars Spec.is_digit (pretty x) = true.
Proof.
  unfold pretty, pretty_N. destruct (decide (x = 0%N)) as [->|Hx].
  - split; [discriminate | reflexivity].
  - rewrite pretty_N_go_step by lia. split.
    + apply pretty_N_go_nonempty. discriminate.
    + apply pretty_N_go_digits. unfold Str.all_chars.
      cbn [list_ascii_of_string forallb]. rewrite pretty_N_char_digit. reflexivity.
Qed.

(** [str(n)] is the decimal numeral of [n]. *)
Lemma of_int_decimal (n : Z) : Spec.is_decimal (Str.of_int n).
Proof.
  unfold Spec.is_decimal, Str.of_int, pretty, pretty_Z.
  destruct n as [|p|p].
  - exists "0". repeat split; [left; reflexivity | discriminate].
  - exists (pretty (Npos p)). split; [left; reflexivity|]. apply pretty_N_digits.
  - exists (pretty (Npos p)). split; [right; reflexivity|]. apply pretty_N_digits.
Qed.


End HexFacts.

(** ** The CSV envelope *)

Section GprpFacts.





End GprpFacts.

(** ** Shutdown *)

Section GatewayFacts.
Import BluetoothGateway.



End GatewayFacts.

(** ** Claim on the full JSON record and the shutdown *)

Section ShutdownClaims.
Import BluetoothGateway.


Lemma gateway_wf : MessageBuffer.wf (message_buffer Sample.gateway).
Proof.
  vm_compute. split; [reflexivity|]. split.
  - apply NoDup_cons. split; [|apply NoDup_singleton].
    apply not_elem_of_cons. split; [discriminate | apply not_elem_of_nil].
  - repeat constructor.
Defined.



End ShutdownClaims.

(** ** Binary64 arithmetic *)

Section FloatFacts.
Import Float.



















End FloatFacts.

(** ** Claim on the CSV envelope *)

Section GprpClaims.





End GprpClaims.

(** * Further properties *)

(** ** Runs of buffer operations *)

Section BufferRunFacts.
Import MessageBuffer.

(** From a well-formed buffer every run of calls succeeds and leaves a
    well-formed buffer in the same mode. *)
Lemma run_wf (ops : list BufferRun.op) (b : t) :
  wf b ->
  exists b', BufferRun.run b ops = Ok b' /\ wf b' /\ throttled b' = throttled b.
Proof.
  unfold BufferRun.run. revert b. induction ops as [|o ops IH]; intros b Hb.
  - exists b. repeat split; assumption.
  - cbn [for_each]. destruct o as [m|now]; cbn [BufferRun.step].
    + destruct (add_message_wf b m Hb) as (b1 & E1 & Hb1 & Ht1 & _).
      rewrite E1. cbn [bind]. destruct (IH b1 Hb1) as (b' & E' & Hb' & Ht').
      exists b'. repeat split; [assumption | assumption | congruence].
    + destruct (get_messages_wf b now Hb) as (b1 & E1 & Hb1 & _ & _ & _ & Ht1).
      rewrite E1. cbn [bind]. destruct (IH b1 Hb1) as (b' & E' & Hb' & Ht').
      exists b'. repeat split; [assumption | assumption | congruence].
Qed.

Lemma keyed_addresses (d : pydict string BLEMessage) :
  keyed d -> map device_address (Dict.values d) = Dict.keys d.
Proof.
  unfold keyed, Dict.values, Dict.keys. induction d as [|[k v] d IH]; intros Hk.
  - reflexivity.
  - apply Forall_cons in Hk as [Hkv Hk]. simpl in *. rewrite Hkv, (IH Hk).
    reflexivity.
Qed.

(** X1. Whatever calls were made on a buffer since [__init__], none
    raises, and with throttling the pending messages have pairwise
    distinct device addresses. *)
Theorem throttled_one_per_address
    (interval : pynum) (size_limit : Z) (throttle : bool) (t0 : spec_float)
    (ops : list BufferRun.op) :
  exists b,
    BufferRun.run (init interval size_limit throttle t0) ops = Ok b
    /\ (throttle = true -> Num.gt0 interval = true ->
        NoDup (map device_address (pending b))).
Proof.
  destruct (run_wf ops _ (init_wf interval size_limit throttle t0))
    as (b & E & Hb & Ht).
  exists b. split; [exact E|]. intros Hc Hi.
  unfold wf, pending in *. destruct (buffer b) as [d|l].
  - destruct Hb as (_ & Hnd & Hk). rewrite (keyed_addresses d Hk). exact Hnd.
  - unfold throttled in Ht at 2. simpl in Ht. rewrite Hc, Hi in Ht.
    simpl in Ht. congruence.
Qed.

End BufferRunFacts.

(** ** What a throttled buffer returns *)

Section ThrottleFacts.
Import MessageBuffer.

Lemma omap_ext_elem {A B} (f g : A -> option B) (l : list A) :
  (forall x, x ∈ l -> f x = g x) -> omap f l = omap g l.
Proof.
  induction l as [|x l IH]; intros H; [reflexivity|]. cbn [omap list_omap].
  rewrite (H x) by (apply elem_of_cons; left; reflexivity).
  rewrite IH; [reflexivity|]. intros y Hy. apply H, elem_of_cons. right. exact Hy.
Qed.

(** A dictionary lists the values found under its keys. *)
Lemma values_by_keys {K V} `{EqDecision K} (d : pydict K V) :
  Dict.wf d -> Dict.values d = omap (fun k => Dict.get k d) (Dict.keys d).
Proof.
  unfold Dict.wf, Dict.values, Dict.keys.
  induction d as [|[k v] d IH]; intros Hnd; [reflexivity|].
  apply NoDup_cons in Hnd as [Hk Hnd]. cbn [map fst snd omap list_omap Dict.get].
  destruct (decide (k = k)) as [_|]; [|contradiction]. f_equal.
  rewrite (IH Hnd). apply omap_ext_elem. intros x Hx.
  destruct (decide (k = x)) as [->|_]; [contradiction | reflexivity].
Qed.

Lemma filed_keys (ms : list BLEMessage) (d : pydict string BLEMessage) :
  Dict.keys (BufferRun.filed ms d)
  = fold_left (fun acc a => if decide (a ∈ acc) then acc else acc ++ [a])
      (map device_address ms) (Dict.keys d).
Proof.
  unfold BufferRun.filed. revert d. induction ms as [|m ms IH]; intros d; [reflexivity|].
  cbn [fold_left map]. rewrite IH, setitem_keys. reflexivity.
Qed.

Lemma filed_get (a : string) (ms : list BLEMessage) (d : pydict string BLEMessage) :
  Dict.get a (BufferRun.filed ms d)
  = match BufferRun.last_of a ms with
    | Some m => Some m
    | None => Dict.get a d
    end.
Proof.
  unfold BufferRun.filed, BufferRun.last_of. revert d.
  induction ms as [|m ms IH]; intros d; [reflexivity|].
  cbn [fold_left]. rewrite IH.
  destruct (decide (device_address m = a)) as [Ha|Ha].
  - rewrite filter_cons_True by exact Ha. rewrite last_cons.
    destruct (last (filter _ ms)); [reflexivity|].
    rewrite <- Ha. apply get_setitem_eq.
  - rewrite filter_cons_False by exact Ha.
    destruct (last (filter _ ms)); [reflexivity|].
    apply get_setitem_ne, Ha.
Qed.

Lemma add_all_filed (ms : list BLEMessage) (b b' : t) (d : pydict string BLEMessage) :
  throttled b = true -> buffer b = BufDict d -> add_all b ms = Ok b' ->
  buffer b' = BufDict (BufferRun.filed ms d).
Proof.
  unfold add_all, BufferRun.filed. revert b d. induction ms as [|m ms IH]; intros b d Ht Eb E.
  - injection E as <-. exact Eb.
  - cbn [for_each] in E. apply bind_ok in E as (b1 & E1 & E).
    destruct (add_message_dict _ _ _ Ht E1) as (d0 & Ed0 & Ed1).
    rewrite Eb in Ed0. injection Ed0 as <-.
    assert (Ht1 : throttled b1 = true).
    { unfold add_message in E1. rewrite Ht, Eb in E1. injection E1 as <-. exact Ht. }
    exact (IH b1 _ Ht1 Ed1 E).
Qed.

(** X2. With throttling, the messages added to a buffer that held
    nothing come back from [get_messages] one per device address: the last
    message of each address, the addresses in the order in which they were
    first seen. *)
Theorem get_messages_latest_per_address
    (b0 : t) (ms : list BLEMessage) (now : spec_float) :
  wf b0 -> throttled b0 = true -> pending b0 = [] ->
  exists b b',
    add_all b0 ms = Ok b
    /\ get_messages b now = Ok (BufferRun.latest_per_address ms, b')
    /\ size b' = 0.
Proof.
  intros Hb0 Ht Hempty.
  destruct (add_all_wf ms b0 Hb0) as (b & Eadd & Hb & _).
  destruct (get_messages_wf b now Hb) as (b' & Eget & _ & _ & Hs & _).
  exists b, b'. split; [exact Eadd|]. split; [|exact Hs].
  rewrite Eget. f_equal. f_equal.
  unfold wf, pending in Hb0, Hempty. destruct (buffer b0) as [d|l] eqn:Eb0.
  2: { congruence. }
  assert (d = []) as -> by (destruct d; [reflexivity | discriminate]).
  pose proof (add_all_filed ms b0 b [] Ht Eb0 Eadd) as Eb.
  unfold wf, pending in *. rewrite Eb in *. destruct Hb as (_ & Hnd & _).
  rewrite (values_by_keys _ Hnd), filed_keys.
  unfold BufferRun.latest_per_address, BufferRun.first_seen.
  apply omap_ext_elem. intros a _. rewrite filed_get.
  destruct (BufferRun.last_of a ms); reflexivity.
Qed.

Lemma windowed_empty : pending Sample.windowed = [].
Proof. reflexivity. Defined.

(** Three sightings of two devices: the later reading of the first
    device comes first, then the second device. *)
Lemma get_messages_latest_per_address_witness :
  wf Sample.windowed /\ throttled Sample.windowed = true
  /\ exists b b',
       add_all Sample.windowed [Sample.m1; Sample.m3; Sample.m2] = Ok b
       /\ get_messages b Sample.t1 = Ok ([Sample.m2; Sample.m3], b')
       /\ size b' = 0.
Proof.
  split; [exact windowed_wf|]. split; [reflexivity|].
  exact (get_messages_latest_per_address Sample.windowed
           [Sample.m1; Sample.m3; Sample.m2] Sample.t1
           windowed_wf eq_refl windowed_empty).
Defined.

End ThrottleFacts.

(** ** When a flush is due *)

Section FlushFacts.
Import MessageBuffer.

Lemma size_nonneg (b : t) : 0 <= size b.
Proof. rewrite size_pending. lia. Qed.

Lemma add_message_size (b b' : t) (m : BLEMessage) :
  add_message b m = Ok b' -> size b <= size b' /\ 0 < size b'.
Proof.
  intros E. split; [|eapply add_message_nonempty, E].
  unfold add_message, size, Dict.len in *.
  destruct (throttled b), (buffer b) as [d|l]; try discriminate;
    injection E as <-; simpl.
  - clear. induction d as [|[k v] d IH]; simpl; [lia|].
    destruct (decide (k = device_address m)); simpl in *; lia.
  - rewrite length_app. simpl. lia.
Qed.

Lemma add_message_config (b b' : t) (m : BLEMessage) :
  add_message b m = Ok b' ->
  publish_interval_sec b' = publish_interval_sec b
  /\ max_buffer_size b' = max_buffer_size b
  /\ last_flush_time b' = last_flush_time b.
Proof.
  unfold add_message.
  destruct (throttled b), (buffer b); try discriminate;
    intros [= <-]; repeat split.
Qed.

(** X3. After [get_messages] no flush is due, whatever the clock says,
    as long as [max_buffer_size] is at least one: an empty buffer is never
    flushed on the timer. *)
Theorem should_flush_after_drain (b b' : t) (out : list BLEMessage)
    (now later : spec_float) :
  1 <= max_buffer_size b ->
  get_messages b now = Ok (out, b') ->
  should_flush b' later = false.
Proof.
  intros Hmax E.
  assert (Hb' : size b' = 0 /\ max_buffer_size b' = max_buffer_size b).
  { unfold get_messages in E.
    destruct (throttled b), (buffer b); try discriminate;
      injection E as <- <-; split; reflexivity. }
  destruct Hb' as [Hs Hm]. unfold should_flush. rewrite Hs, Hm.
  destruct (Num.eq0 _); [reflexivity|].
  destruct (Z.leb_spec (max_buffer_size b) 0); [lia|].
  destruct (Num.float_ge _ _); reflexivity.
Qed.

Lemma should_flush_after_drain_witness :
  1 <= max_buffer_size Sample.loaded_buffer
  /\ (exists b',
        get_messages Sample.loaded_buffer Sample.t1 = Ok ([Sample.m2; Sample.m3], b')
        /\ should_flush b' Sample.f5 = false).
Proof.
  split; [vm_compute; discriminate|].
  eexists. split; [reflexivity|].
  apply (should_flush_after_drain Sample.loaded_buffer _ [Sample.m2; Sample.m3]
           Sample.t1 Sample.f5); [vm_compute; discriminate | reflexivity].
Defined.

(** X4. With a publish interval other than zero and a [max_buffer_size]
    of zero or less, [should_flush] holds at every poll, also on an empty
    buffer and before the interval has passed. *)
Theorem should_flush_without_capacity (b : t) (now : spec_float) :
  Num.eq0 (publish_interval_sec b) = false ->
  max_buffer_size b <= 0 ->
  should_flush b now = true.
Proof.
  intros Hi Hmax. unfold should_flush. rewrite Hi.
  pose proof (size_nonneg b).
  destruct (Z.leb_spec (max_buffer_size b) (size b)); [reflexivity | lia].
Qed.

Lemma should_flush_without_capacity_witness :
  Num.eq0 (publish_interval_sec Cases.no_capacity) = false
  /\ max_buffer_size Cases.no_capacity <= 0
  /\ pending Cases.no_capacity = []
  /\ should_flush Cases.no_capacity Sample.t0 = true.
Proof.
  split; [reflexivity|]. split; [vm_compute; discriminate|]. split; [reflexivity|].
  apply should_flush_without_capacity; [reflexivity | vm_compute; discriminate].
Defined.

(** X5. At a given clock reading, adding a message never takes a due
    flush back: if [should_flush] held before [add_message] it holds
    after. *)
Theorem should_flush_add_monotone (b b' : t) (m : BLEMessage) (now : spec_float) :
  add_message b m = Ok b' ->
  should_flush b now = true ->
  should_flush b' now = true.
Proof.
  intros E. destruct (add_message_size _ _ _ E) as [Hle Hpos].
  destruct (add_message_config _ _ _ E) as (Hi & Hm & Hl).
  unfold should_flush. rewrite Hi, Hm, Hl.
  destruct (Num.eq0 _); [intros _; apply Z.ltb_lt; exact Hpos|].
  destruct (Z.leb_spec (max_buffer_size b) (size b)) as [Hfull|Hroom].
  - intros _. destruct (Z.leb_spec (max_buffer_size b) (size b')); [reflexivity | lia].
  - destruct (Z.leb_spec (max_buffer_size b) (size b')); [reflexivity|].
    destruct (Num.float_ge _ _); [|discriminate].
    intros _. apply Z.ltb_lt. exact Hpos.
Qed.

Lemma should_flush_add_monotone_witness :
  should_flush Sample.loaded_buffer Sample.t1 = true
  /\ exists b',
       add_message Sample.loaded_buffer Sample.m1 = Ok b'
       /\ should_flush b' Sample.t1 = true.
Proof.
  split; [reflexivity|]. eexists. split; [reflexivity|].
  apply (should_flush_add_monotone Sample.loaded_buffer _ Sample.m1 Sample.t1);
    reflexivity.
Defined.

End FlushFacts.

(** ** Flushing to the publisher *)

Section FlushBufferFacts.
Import BluetoothGateway.

Lemma same_setup_refl (g : t) : GatewayRun.same_setup g g.
Proof. repeat split. Qed.

Lemma same_setup_trans (g1 g2 g3 : t) :
  GatewayRun.same_setup g1 g2 -> GatewayRun.same_setup g2 g3 ->
  GatewayRun.same_setup g1 g3.
Proof.
  unfold GatewayRun.same_setup. intros (A1 & A2 & A3 & A4 & A5) (B1 & B2 & B3 & B4 & B5).
  repeat split; congruence.
Qed.

Lemma payload_of_same (g g' : t) (m : BLEMessage) :
  GatewayRun.same_setup g g' ->
  GatewayRun.payload_of g' m = GatewayRun.payload_of g m
  /\ GatewayRun.delivered g' m = GatewayRun.delivered g m.
Proof.
  intros (E1 & E2 & _ & E4 & E5).
  unfold GatewayRun.delivered, GatewayRun.payload_of. rewrite E1, E2, E4, E5.
  split; reflexivity.
Qed.

(** One turn of the publishing loop: the payload, if there is one, goes to
    the publisher, and exactly one of the two counters moves. *)
Lemma publish_gprp_step (g : t) (m : BLEMessage) :
  exists g',
    publish_gprp g m = Ok g'
    /\ GatewayRun.same_setup g g' /\ GatewayRun.same_intake g g'
    /\ message_buffer g' = message_buffer g
    /\ buffer_flushes (stats g') = buffer_flushes (stats g)
    /\ MQTTPublisher.handed (publisher g')
       = MQTTPublisher.handed (publisher g)
         ++ match GatewayRun.payload_of g m with Some s => [s] | None => [] end
    /\ messages_published (stats g')
       = messages_published (stats g) + (if GatewayRun.delivered g m then 1 else 0)
    /\ publish_errors (stats g')
       = publish_errors (stats g) + (if GatewayRun.delivered g m then 0 else 1).
Proof.
  unfold publish_gprp, GatewayRun.delivered, GatewayRun.payload_of.
  destruct (to_gprp_format m (gateway_mac g) (topic g)) as [s|e].
  - cbn [MQTTPublisher.publish].
    destruct (MQTTPublisher.client (publisher g)
              && MQTTPublisher.rc_success (publisher g) s);
      eexists; (split; [reflexivity|]); cbn;
      repeat split; try reflexivity; lia.
  - eexists. split; [reflexivity|]. cbn. rewrite app_nil_r.
    repeat split; try reflexivity; lia.
Qed.

(** The publishing loop over a list of messages never raises: the
    payloads of the messages that can be rendered go to the publisher in
    order, and every message is counted once, as published or as an
    error. *)
Lemma publish_gprp_loop (ms : list BLEMessage) (g : t) :
  exists g',
    for_each publish_gprp ms g = Ok g'
    /\ GatewayRun.same_setup g g' /\ GatewayRun.same_intake g g'
    /\ message_buffer g' = message_buffer g
    /\ buffer_flushes (stats g') = buffer_flushes (stats g)
    /\ MQTTPublisher.handed (publisher g')
       = MQTTPublisher.handed (publisher g) ++ omap (GatewayRun.payload_of g) ms
    /\ messages_published (stats g')
       = messages_published (stats g) + GatewayRun.delivered_count g ms
    /\ publish_errors (stats g')
       = publish_errors (stats g)
         + (Z.of_nat (length ms) - GatewayRun.delivered_count g ms).
Proof.
  revert g. induction ms as [|m ms IH]; intros g.
  - exists g. split; [reflexivity|]. unfold GatewayRun.delivered_count. cbn.
    rewrite app_nil_r. repeat split; try reflexivity; lia.
  - destruct (publish_gprp_step g m)
      as (g1 & E1 & S1 & (I1a & I1b & I1c) & B1 & F1 & H1 & P1 & R1).
    destruct (IH g1) as (g' & E' & S' & (Ia & Ib & Ic) & B' & F' & H' & P' & R').
    exists g'. cbn [for_each]. rewrite E1. cbn [bind].
    split; [exact E'|]. split; [eapply same_setup_trans; eassumption|].
    split; [repeat split; congruence|]. split; [congruence|]. split; [congruence|].
    assert (Hpay : omap (GatewayRun.payload_of g1) ms = omap (GatewayRun.payload_of g) ms).
    { apply omap_ext_elem. intros x _. apply (payload_of_same g g1 x S1). }
    assert (Hcnt : GatewayRun.delivered_count g1 ms = GatewayRun.delivered_count g ms).
    { unfold GatewayRun.delivered_count. f_equal. f_equal.
      apply filter_ext_in. intros x _. apply (payload_of_same g g1 x S1). }
    rewrite Hpay in H'. rewrite Hcnt in P', R'.
    unfold GatewayRun.delivered_count in *. cbn [List.filter omap list_omap length].
    split; [|split].
    + rewrite H', H1, <- app_assoc.
      destruct (GatewayRun.payload_of g m); reflexivity.
    + rewrite P', P1. destruct (GatewayRun.delivered g m); cbn [length]; lia.
    + rewrite R', R1. destruct (GatewayRun.delivered g m); cbn [length]; lia.
Qed.

End FlushBufferFacts.

(** ** Detections and polls *)

Section DetectionFacts.
Import BluetoothGateway.

Lemma detection_callback_facts (g : t) (device : Bleak.BLEDevice)
    (advertisement : Bleak.AdvertisementData) (utc_timestamp_ms : Z) :
  MessageBuffer.wf (message_buffer g) ->
  let g' := _detection_callback g device advertisement utc_timestamp_ms in
  GatewayRun.same_setup g g'
  /\ publisher g' = publisher g
  /\ messages_published (stats g') = messages_published (stats g)
  /\ publish_errors (stats g') = publish_errors (stats g)
  /\ buffer_flushes (stats g') = buffer_flushes (stats g)
  /\ MessageBuffer.wf (message_buffer g')
  /\ if PayloadFilter.should_accept (payload_filter g) device advertisement
     then devices_seen (stats g') = devices_seen (stats g) + 1
          /\ messages_buffered (stats g') = messages_buffered (stats g) + 1
          /\ messages_filtered (stats g') = messages_filtered (stats g)
          /\ MessageBuffer.add_message (message_buffer g)
               (_create_ble_message device advertisement utc_timestamp_ms)
             = Ok (message_buffer g')
     else devices_seen (stats g') = devices_seen (stats g)
          /\ messages_buffered (stats g') = messages_buffered (stats g)
          /\ messages_filtered (stats g') = messages_filtered (stats g) + 1
          /\ message_buffer g' = message_buffer g.
Proof.
  intros Hwf. unfold _detection_callback.
  destruct (PayloadFilter.should_accept (payload_filter g) device advertisement).
  - cbn [negb with_stats message_buffer].
    destruct (add_message_wf (message_buffer g)
                (_create_ble_message device advertisement utc_timestamp_ms) Hwf)
      as (b' & E & Hwf' & _).
    rewrite E. cbn. repeat split; try reflexivity; assumption.
  - cbn. repeat split; try reflexivity; assumption.
Qed.

Lemma flush_buffer_facts (g : t) (now now' : spec_float) :
  MessageBuffer.wf (message_buffer g) ->
  exists g',
    _flush_buffer g now now' = Ok g'
    /\ GatewayRun.same_setup g g' /\ GatewayRun.same_intake g g'
    /\ MessageBuffer.wf (message_buffer g')
    /\ MessageBuffer.throttled (message_buffer g')
       = MessageBuffer.throttled (message_buffer g)
    /\ if MessageBuffer.should_flush (message_buffer g) now
       then
         let ms := MessageBuffer.pending (message_buffer g) in
         MessageBuffer.pending (message_buffer g') = []
         /\ MessageBuffer.last_flush_time (message_buffer g') = now'
         /\ MQTTPublisher.handed (publisher g')
            = MQTTPublisher.handed (publisher g) ++ omap (GatewayRun.payload_of g) ms
         /\ messages_published (stats g')
            = messages_published (stats g) + GatewayRun.delivered_count g ms
         /\ publish_errors (stats g')
            = publish_errors (stats g)
              + (Z.of_nat (length ms) - GatewayRun.delivered_count g ms)
         /\ buffer_flushes (stats g')
            = buffer_flushes (stats g)
              + match ms with [] => 0 | _ :: _ => 1 end
       else g' = g.
Proof.
  intros Hwf. unfold _flush_buffer.
  destruct (MessageBuffer.should_flush (message_buffer g) now); cbn [negb].
  2:{ exists g. repeat split; try reflexivity; assumption. }
  destruct (get_messages_wf (message_buffer g) now' Hwf)
    as (b' & E & Hwf' & Hp & _ & Hl & Ht).
  rewrite E. cbn [bind]. cbv zeta.
  destruct (MessageBuffer.pending (message_buffer g)) as [|m ms] eqn:Ems.
  - eexists. split; [reflexivity|]. cbn.
    unfold GatewayRun.delivered_count. cbn. rewrite app_nil_r.
    repeat split; try reflexivity; try assumption; lia.
  - set (g2 := with_stats (with_buffer g b') (incr_flushes (stats (with_buffer g b')))).
    assert (S2 : GatewayRun.same_setup g g2) by (repeat split).
    destruct (publish_gprp_loop (m :: ms) g2)
      as (g' & E' & S' & (Ia & Ib & Ic) & B' & F' & H' & P' & R').
    exists g'. split; [exact E'|].
    split; [exact (same_setup_trans g g2 g' S2 S')|].
    split; [repeat split; assumption|].
    rewrite B'. cbn [g2 with_stats with_buffer message_buffer].
    split; [assumption|]. split; [assumption|].
    split; [assumption|]. split; [assumption|].
    split; [exact H'|]. split; [exact P'|]. split; [exact R'|].
    rewrite F'. reflexivity.
Qed.

(** What one event of a run does to the counters. *)
Lemma step_facts (g : t) (e : GatewayRun.event) :
  MessageBuffer.wf (message_buffer g) ->
  exists g',
    GatewayRun.step g e = Ok g'
    /\ MessageBuffer.wf (message_buffer g')
    /\ GatewayRun.same_setup g g'
    /\ MessageBuffer.throttled (message_buffer g')
       = MessageBuffer.throttled (message_buffer g)
    /\ devices_seen (stats g') + messages_filtered (stats g')
       = devices_seen (stats g) + messages_filtered (stats g)
         + (if GatewayRun.is_detection e then 1 else 0)
    /\ devices_seen (stats g') - messages_buffered (stats g')
       = devices_seen (stats g) - messages_buffered (stats g)
    /\ GatewayRun.unaccounted g <= GatewayRun.unaccounted g'
    /\ (MessageBuffer.throttled (message_buffer g) = false ->
        GatewayRun.unaccounted g' = GatewayRun.unaccounted g).
Proof.
  intros Hwf. destruct e as [device advertisement ts|now now']; cbn [GatewayRun.step].
  - eexists. split; [reflexivity|].
    pose proof (detection_callback_facts g device advertisement ts Hwf) as H.
    cbv zeta in H. destruct H as (S & _ & P & R & _ & Hwf' & H).
    split; [exact Hwf'|]. split; [exact S|]. unfold GatewayRun.unaccounted.
    cbn [GatewayRun.is_detection].
    destruct (PayloadFilter.should_accept (payload_filter g) device advertisement).
    + destruct H as (Hs & Hb & Hf & Ha).
      destruct (add_message_wf (message_buffer g)
                  (_create_ble_message device advertisement ts) Hwf)
        as (b' & E & _ & Ht & _).
      rewrite Ha in E. injection E as E. rewrite <- E in Ht.
      pose proof (add_message_length _ _ _ Ha) as Hlen.
      rewrite !size_pending.
      split; [exact Ht|]. split; [lia|]. split; [lia|]. split; [lia|].
      intros Hth. rewrite (add_message_list _ _ _ Hth Ha), length_app. cbn [length]. lia.
    + destruct H as (Hs & Hb & Hf & Ha). rewrite Ha.
      split; [reflexivity|]. split; [lia|]. split; [lia|]. split; [lia|].
      intros _. lia.
  - destruct (flush_buffer_facts g now now' Hwf)
      as (g' & E & S & (Ia & Ib & Ic) & Hwf' & Ht & H).
    exists g'. split; [exact E|]. split; [exact Hwf'|]. split; [exact S|].
    split; [exact Ht|]. cbn [GatewayRun.is_detection]. unfold GatewayRun.unaccounted.
    destruct (MessageBuffer.should_flush (message_buffer g) now).
    + cbv zeta in H. destruct H as (Hp & _ & _ & P & R & _).
      rewrite !size_pending, Hp. cbn [length].
      split; [lia|]. split; [lia|]. split; [lia|]. intros _. lia.
    + subst g'. split; [lia|]. split; [lia|]. split; [lia|]. intros _. lia.
Qed.

Lemma run_facts (events : list GatewayRun.event) (g : t) :
  MessageBuffer.wf (message_buffer g) ->
  exists g',
    GatewayRun.run g events = Ok g'
    /\ MessageBuffer.wf (message_buffer g')
    /\ GatewayRun.same_setup g g'
    /\ MessageBuffer.throttled (message_buffer g')
       = MessageBuffer.throttled (message_buffer g)
    /\ devices_seen (stats g') + messages_filtered (stats g')
       = devices_seen (stats g) + messages_filtered (stats g)
         + GatewayRun.detections events
    /\ devices_seen (stats g') - messages_buffered (stats g')
       = devices_seen (stats g) - messages_buffered (stats g)
    /\ GatewayRun.unaccounted g <= GatewayRun.unaccounted g'
    /\ (MessageBuffer.throttled (message_buffer g) = false ->
        GatewayRun.unaccounted g' = GatewayRun.unaccounted g).
Proof.
  revert g. induction events as [|e events IH]; intros g Hwf.
  - exists g. split; [reflexivity|]. unfold GatewayRun.detections. cbn.
    repeat split; try reflexivity; try assumption; lia.
  - destruct (step_facts g e Hwf) as (g1 & E1 & W1 & S1 & T1 & A1 & B1 & U1 & V1).
    destruct (IH g1 W1) as (g' & E' & W' & S' & T' & A' & B' & U' & V').
    exists g'. unfold GatewayRun.run in *. cbn [for_each]. rewrite E1. cbn [bind].
    split; [exact E'|]. split; [exact W'|].
    split; [eapply same_setup_trans; eassumption|].
    split; [congruence|].
    unfold GatewayRun.detections in *. cbn [List.filter].
    split; [destruct (GatewayRun.is_detection e); cbn [length]; lia|].
    split; [lia|]. split; [lia|].
    intros Hth. rewrite V' by congruence. apply V1, Hth.
Qed.

End DetectionFacts.

Section GatewayProperties.
Import BluetoothGateway.

(** X6. [_detection_callback] on a gateway with a well-formed buffer.  An
    advertisement the filter rejects only adds one to [messages_filtered]
    and leaves the buffer as it is; one that passes adds one to
    [devices_seen] and to [messages_buffered], and the buffer is the result
    of [add_message] on the message built from the device, the
    advertisement and the clock reading.  In both cases the publisher and
    the publishing counters stay untouched. *)
Theorem detection_callback_accounting (g : t) (device : Bleak.BLEDevice)
    (advertisement : Bleak.AdvertisementData) (utc_timestamp_ms : Z) :
  MessageBuffer.wf (message_buffer g) ->
  let g' := _detection_callback g device advertisement utc_timestamp_ms in
  GatewayRun.same_setup g g'
  /\ publisher g' = publisher g
  /\ messages_published (stats g') = messages_published (stats g)
  /\ publish_errors (stats g') = publish_errors (stats g)
  /\ buffer_flushes (stats g') = buffer_flushes (stats g)
  /\ MessageBuffer.wf (message_buffer g')
  /\ if PayloadFilter.should_accept (payload_filter g) device advertisement
     then devices_seen (stats g') = devices_seen (stats g) + 1
          /\ messages_buffered (stats g') = messages_buffered (stats g) + 1
          /\ messages_filtered (stats g') = messages_filtered (stats g)
          /\ MessageBuffer.add_message (message_buffer g)
               (_create_ble_message device advertisement utc_timestamp_ms)
             = Ok (message_buffer g')
     else devices_seen (stats g') = devices_seen (stats g)
          /\ messages_buffered (stats g') = messages_buffered (stats g)
          /\ messages_filtered (stats g') = messages_filtered (stats g) + 1
          /\ message_buffer g' = message_buffer g.
Proof. exact (detection_callback_facts g device advertisement utc_timestamp_ms). Qed.

Lemma detection_callback_accounting_witness :
  MessageBuffer.wf (message_buffer Sample.gateway)
  /\ publisher (_detection_callback Sample.gateway Cases.beacon Sample.plain_adv
                  1700000000000)
     = publisher Sample.gateway
  /\ MessageBuffer.wf
       (message_buffer (_detection_callback Sample.gateway Cases.beacon
                          Sample.plain_adv 1700000000000)).
Proof.
  split; [exact gateway_wf|].
  pose proof (detection_callback_accounting Sample.gateway Cases.beacon
                Sample.plain_adv 1700000000000 gateway_wf) as H.
  cbv zeta in H. destruct H as (_ & Hp & _ & _ & _ & Hwf & _).
  split; [exact Hp | exact Hwf].
Defined.

(** X7. [_flush_buffer] on a gateway with a well-formed buffer never
    raises.  When no flush is due the gateway is unchanged.  When one is
    due the buffer is emptied and stamped with the second clock reading,
    the payloads of the pending messages that can be rendered go to the
    publisher in buffer order, every pending message is counted once, as
    published or as a publish error, none is put back, and
    [buffer_flushes] grows by one unless the buffer was empty. *)
Theorem flush_buffer_accounting (g : t) (now now' : spec_float) :
  MessageBuffer.wf (message_buffer g) ->
  exists g',
    _flush_buffer g now now' = Ok g'
    /\ GatewayRun.same_setup g g' /\ GatewayRun.same_intake g g'
    /\ MessageBuffer.wf (message_buffer g')
    /\ MessageBuffer.throttled (message_buffer g')
       = MessageBuffer.throttled (message_buffer g)
    /\ if MessageBuffer.should_flush (message_buffer g) now
       then
         let ms := MessageBuffer.pending (message_buffer g) in
         MessageBuffer.pending (message_buffer g') = []
         /\ MessageBuffer.last_flush_time (message_buffer g') = now'
         /\ MQTTPublisher.handed (publisher g')
            = MQTTPublisher.handed (publisher g) ++ omap (GatewayRun.payload_of g) ms
         /\ messages_published (stats g')
            = messages_published (stats g) + GatewayRun.delivered_count g ms
         /\ publish_errors (stats g')
            = publish_errors (stats g)
              + (Z.of_nat (length ms) - GatewayRun.delivered_count g ms)
         /\ buffer_flushes (stats g')
            = buffer_flushes (stats g)
              + match ms with [] => 0 | _ :: _ => 1 end
       else g' = g.
Proof. exact (flush_buffer_facts g now now'). Qed.

Lemma flush_buffer_accounting_witness :
  MessageBuffer.wf (message_buffer Sample.gateway)
  /\ exists g',
       _flush_buffer Sample.gateway Sample.t1 Sample.t1 = Ok g'
       /\ MessageBuffer.pending (message_buffer g') = []
       /\ messages_published (stats g') = 2
       /\ publish_errors (stats g') = 0
       /\ buffer_flushes (stats g') = 1.
Proof.
  split; [exact gateway_wf|].
  destruct (flush_buffer_accounting Sample.gateway Sample.t1 Sample.t1 gateway_wf)
    as (g' & E & _ & _ & _ & _ & H).
  assert (Hdue : MessageBuffer.should_flush (message_buffer Sample.gateway) Sample.t1
                 = true) by (vm_compute; reflexivity).
  rewrite Hdue in H. cbv zeta in H. destruct H as (Hp & _ & _ & P & R & F).
  exists g'. split; [exact E|]. split; [exact Hp|].
  split; [rewrite P | split; [rewrite R | rewrite F]]; vm_compute; reflexivity.
Defined.

(** X8. Any run of detections and polls on a gateway with a well-formed
    buffer goes through without an exception and keeps the books: every
    detection is counted once, as seen or as filtered; [devices_seen] and
    [messages_buffered] move together; and without throttling every
    buffered message stays accounted for, as pending, published or a
    publish error.  With throttling the shortfall only grows (by the
    messages overwritten in the buffer). *)
Theorem run_accounting (events : list GatewayRun.event) (g : t) :
  MessageBuffer.wf (message_buffer g) ->
  exists g',
    GatewayRun.run g events = Ok g'
    /\ MessageBuffer.wf (message_buffer g')
    /\ GatewayRun.same_setup g g'
    /\ MessageBuffer.throttled (message_buffer g')
       = MessageBuffer.throttled (message_buffer g)
    /\ devices_seen (stats g') + messages_filtered (stats g')
       = devices_seen (stats g) + messages_filtered (stats g)
         + GatewayRun.detections events
    /\ devices_seen (stats g') - messages_buffered (stats g')
       = devices_seen (stats g) - messages_buffered (stats g)
    /\ GatewayRun.unaccounted g <= GatewayRun.unaccounted g'
    /\ (MessageBuffer.throttled (message_buffer g) = false ->
        GatewayRun.unaccounted g' = GatewayRun.unaccounted g).
Proof. exact (run_facts events g). Qed.

Lemma immediate_gateway_wf : MessageBuffer.wf (message_buffer Cases.immediate_gateway).
Proof. vm_compute. reflexivity. Defined.

Lemma run_accounting_witness :
  MessageBuffer.wf (message_buffer Cases.immediate_gateway)
  /\ exists g',
       GatewayRun.run Cases.immediate_gateway
         [GatewayRun.Detected Cases.beacon Sample.plain_adv 1700000000000;
          GatewayRun.Poll Sample.t1 Sample.t1;
          GatewayRun.Detected Sample.lower_device Sample.plain_adv 1700000000500]
       = Ok g'
       /\ devices_seen (stats g') + messages_filtered (stats g') = 2
       /\ GatewayRun.unaccounted g' = 0.
Proof.
  split; [exact immediate_gateway_wf|].
  destruct (run_accounting
              [GatewayRun.Detected Cases.beacon Sample.plain_adv 1700000000000;
               GatewayRun.Poll Sample.t1 Sample.t1;
               GatewayRun.Detected Sample.lower_device Sample.plain_adv 1700000000500]
              Cases.immediate_gateway immediate_gateway_wf)
    as (g' & E & _ & _ & _ & A & _ & _ & U).
  exists g'. split; [exact E|]. split; [rewrite A; reflexivity|].
  rewrite U; reflexivity.
Defined.

(** X9. In immediate mode ([publish_interval_sec] equal to zero) with an
    empty buffer, a detection that passes the filter followed by one poll
    hands exactly that advertisement's GPRP payload to the publisher, if
    the message can be rendered, counts it as published or as a publish
    error, and leaves the buffer empty again. *)
Theorem immediate_mode_publishes_at_once (g : t) (device : Bleak.BLEDevice)
    (advertisement : Bleak.AdvertisementData) (utc_timestamp_ms : Z)
    (now now' : spec_float) :
  MessageBuffer.wf (message_buffer g) ->
  Num.eq0 (MessageBuffer.publish_interval_sec (message_buffer g)) = true ->
  MessageBuffer.pending (message_buffer g) = [] ->
  PayloadFilter.should_accept (payload_filter g) device advertisement = true ->
  let m := _create_ble_message device advertisement utc_timestamp_ms in
  exists g',
    GatewayRun.run g [GatewayRun.Detected device advertisement utc_timestamp_ms;
                      GatewayRun.Poll now now'] = Ok g'
    /\ MessageBuffer.pending (message_buffer g') = []
    /\ MQTTPublisher.handed (publisher g')
       = MQTTPublisher.handed (publisher g)
         ++ match GatewayRun.payload_of g m with Some s => [s] | None => [] end
    /\ messages_published (stats g')
       = messages_published (stats g) + (if GatewayRun.delivered g m then 1 else 0)
    /\ publish_errors (stats g')
       = publish_errors (stats g) + (if GatewayRun.delivered g m then 0 else 1)
    /\ buffer_flushes (stats g') = buffer_flushes (stats g) + 1.
Proof.
  intros Hwf H0 Hempty Hacc m.
  pose proof (detection_callback_facts g device advertisement utc_timestamp_ms Hwf) as H.
  cbv zeta in H. rewrite Hacc in H.
  destruct H as (S1 & Hpub & P1 & R1 & F1 & Hwf1 & _ & _ & _ & Hadd).
  fold m in Hadd.
  set (g1 := _detection_callback g device advertisement utc_timestamp_ms) in *.
  assert (Hth : MessageBuffer.throttled (message_buffer g) = false).
  { unfold MessageBuffer.throttled. rewrite (eq0_not_gt0 _ H0).
    apply andb_false_r. }
  pose proof (add_message_list _ _ _ Hth Hadd) as Hpend.
  rewrite Hempty in Hpend. cbn [app] in Hpend.
  assert (Hdue : MessageBuffer.should_flush (message_buffer g1) now = true).
  { unfold MessageBuffer.should_flush.
    destruct (add_message_config _ _ _ Hadd) as (-> & _). rewrite H0.
    apply Z.ltb_lt. rewrite size_pending, Hpend. cbn [length]. lia. }
  destruct (flush_buffer_facts g1 now now' Hwf1) as (g' & E & _ & _ & _ & _ & H).
  rewrite Hdue in H. cbv zeta in H. rewrite Hpend in H.
  destruct H as (Hp & _ & Hh & P & R & F).
  exists g'. unfold GatewayRun.run. cbn [for_each GatewayRun.step bind].
  fold g1. rewrite E. cbn [for_each bind]. split; [reflexivity|]. split; [exact Hp|].
  destruct (payload_of_same g g1 m S1) as (Epay & Edel).
  unfold GatewayRun.delivered_count in P, R.
  cbn [omap list_omap List.filter] in Hh, P, R.
  rewrite Epay in Hh. rewrite Edel in P, R. rewrite Hpub in Hh.
  split; [rewrite Hh; destruct (GatewayRun.payload_of g m); reflexivity|].
  split; [rewrite P, P1; destruct (GatewayRun.delivered g m); cbn [length]; lia|].
  split; [rewrite R, R1; destruct (GatewayRun.delivered g m); cbn [length]; lia|].
  rewrite F, F1. reflexivity.
Qed.

Lemma immediate_mode_publishes_at_once_witness :
  MessageBuffer.wf (message_buffer Cases.immediate_gateway)
  /\ Num.eq0 (MessageBuffer.publish_interval_sec
                (message_buffer Cases.immediate_gateway)) = true
  /\ MessageBuffer.pending (message_buffer Cases.immediate_gateway) = []
  /\ PayloadFilter.should_accept (payload_filter Cases.immediate_gateway)
       Cases.beacon Sample.plain_adv = true
  /\ exists g',
       GatewayRun.run Cases.immediate_gateway
         [GatewayRun.Detected Cases.beacon Sample.plain_adv 1700000000000;
          GatewayRun.Poll Sample.t1 Sample.t1] = Ok g'
       /\ MessageBuffer.pending (message_buffer g') = []
       /\ MQTTPublisher.handed (publisher g') = [Sample.fixed_envelope].
Proof.
  split; [exact immediate_gateway_wf|]. split; [reflexivity|].
  split; [reflexivity|]. split; [reflexivity|].
  destruct (immediate_mode_publishes_at_once Cases.immediate_gateway Cases.beacon
              Sample.plain_adv 1700000000000 Sample.t1 Sample.t1
              immediate_gateway_wf eq_refl eq_refl eq_refl)
    as (g' & E & Hp & Hh & _).
  exists g'. split; [exact E|]. split; [exact Hp|].
  rewrite Hh. vm_compute. reflexivity.
Defined.

End GatewayProperties.


(** ** Payloads are printable ASCII *)

Section WireFacts.

Lemma pyobj_nested_ind (P : pyobj -> Prop) :
  P PNone -> (forall n, P (PInt n)) -> (forall s, P (PStr s)) ->
  (forall b, P (PBytes b)) ->
  (forall l, Forall P l -> P (PList l)) ->
  (forall d, Forall (fun kv => P (snd kv)) d -> P (PDict d)) ->
  forall o, P o.
Proof.
  intros HN HI HS HB HL HD. fix IH 1. intros [ |n|s|b|l|d].
  - exact HN.
  - apply HI.
  - apply HS.
  - apply HB.
  - apply HL. induction l as [|x l IHl]; constructor; [apply IH | exact IHl].
  - apply HD. induction d as [|[k v] d IHd]; constructor; [apply IH | exact IHd].
Qed.

Lemma plain_app (s t : string) :
  Wire.plain (s +:+ t) <-> Wire.plain s /\ Wire.plain t.
Proof.
  assert (E : list_ascii_of_string (s +:+ t)
              = list_ascii_of_string s ++ list_ascii_of_string t).
  { induction s as [|c s IH]; [reflexivity|]. simpl. f_equal. exact IH. }
  unfold Wire.plain, Str.all_chars. rewrite E, forallb_app. apply andb_true_iff.
Qed.

Lemma plain_cons (c : ascii) (s : string) :
  Wire.plain (String c s) <-> Wire.printable c = true /\ Wire.plain s.
Proof. unfold Wire.plain, Str.all_chars. cbn. apply andb_true_iff. Qed.

Lemma hex_digit_printable (n : Z) :
  0 <= n <= 15 -> Wire.printable (Bytes.hex_digit n) = true.
Proof.
  intros Hn. rewrite <- (Z2Nat.id n) by lia.
  destruct (Z.to_nat n) as [|k] eqn:E; [reflexivity|].
  do 15 (destruct k as [|k]; [reflexivity|]). lia.
Qed.

Lemma hex4_plain (n : Z) : Wire.plain (Json.hex4 n).
Proof.
  unfold Json.hex4.
  repeat (apply plain_cons; split;
          [apply hex_digit_printable; pose proof (Z.mod_pos_bound (n / 4096) 16);
           pose proof (Z.mod_pos_bound (n / 256) 16);
           pose proof (Z.mod_pos_bound (n / 16) 16);
           pose proof (Z.mod_pos_bound n 16); lia|]).
  reflexivity.
Qed.

Lemma escape_char_plain (c : ascii) : Wire.plain (Json.escape_char c).
Proof.
  unfold Json.escape_char. cbv zeta.
  repeat (match goal with |- context [if ?b then _ else _] => destruct b eqn:? end;
          [try reflexivity|]).
  - apply plain_app. split; [reflexivity | apply hex4_plain].
  - apply plain_cons. split; [|reflexivity].
    unfold Wire.printable. cbv zeta. apply orb_false_iff in Heqb6 as [H1 H2].
    apply andb_true_iff. split; [apply Z.leb_le | apply Z.leb_le]; lia.
Qed.

Lemma escape_plain (s : string) : Wire.plain (Json.escape s).
Proof.
  induction s as [|c s IH]; [reflexivity|]. cbn [Json.escape].
  apply plain_app. split; [apply escape_char_plain | exact IH].
Qed.

Lemma encode_string_plain (s : string) : Wire.plain (Json.encode_string s).
Proof.
  unfold Json.encode_string. apply plain_app. split; [reflexivity|].
  apply plain_app. split; [apply escape_plain | reflexivity].
Qed.

Lemma digits_plain (s : string) :
  Str.all_chars Spec.is_digit s = true -> Wire.plain s.
Proof.
  unfold Wire.plain, Str.all_chars. induction s as [|c s IH]; [reflexivity|].
  cbn. rewrite !andb_true_iff. intros [Hc Hs]. split; [|apply IH, Hs].
  unfold Spec.is_digit, Wire.printable in *. cbv zeta in *.
  apply andb_true_iff in Hc as [H1 H2]. apply andb_true_iff.
  split; apply Z.leb_le; lia.
Qed.

Lemma of_int_plain (n : Z) : Wire.plain (Str.of_int n).
Proof.
  destruct (of_int_decimal n) as (digits & [-> | ->] & _ & Hd).
  - apply digits_plain, Hd.
  - apply plain_app. split; [reflexivity | apply digits_plain, Hd].
Qed.

Lemma join_plain (l : list string) :
  Forall Wire.plain l -> Wire.plain (Json.join "," l).
Proof.
  induction 1 as [|x l Hx Hl IH]; [reflexivity|].
  destruct l as [|y l]; [exact Hx|].
  change (Json.join "," (x :: y :: l)) with (x +:+ "," +:+ Json.join "," (y :: l)).
  apply plain_app. split; [exact Hx|]. apply plain_app. split; [reflexivity | exact IH].
Qed.

(** Whatever [json.dumps] returns is printable ASCII. *)
Lemma dumps_plain (o : pyobj) (s : string) : Json.dumps o = Ok s -> Wire.plain s.
Proof.
  revert s. induction o as [ |n|t|b|l IHl|d IHd] using pyobj_nested_ind; intros s.
  - intros [= <-]. reflexivity.
  - intros [= <-]. apply of_int_plain.
  - intros [= <-]. apply encode_string_plain.
  - discriminate.
  - cbn [Json.dumps].
    match goal with |- bind (?F _) _ = _ -> _ => set (elements := F) end.
    assert (E : forall parts, elements l = Ok parts -> Forall Wire.plain parts).
    { induction IHl as [|x l Hx Hl IH]; intros parts.
      - intros [= <-]. constructor.
      - cbn. destruct (Json.dumps x) as [sx|] eqn:Ex; [|discriminate]. cbn [bind].
        fold elements. destruct (elements l) as [r|] eqn:Er; [|discriminate].
        intros [= <-]. constructor; [apply Hx; reflexivity | apply IH; reflexivity]. }
    destruct (elements l) as [parts|]; [|discriminate]. intros [= <-].
    apply plain_app. split; [reflexivity|].
    apply plain_app. split; [apply join_plain, E; reflexivity | reflexivity].
  - cbn [Json.dumps].
    match goal with |- bind (?F _) _ = _ -> _ => set (members := F) end.
    assert (E : forall parts, members d = Ok parts -> Forall Wire.plain parts).
    { induction IHd as [|[k v] d Hx Hl IH]; intros parts.
      - intros [= <-]. constructor.
      - cbn. destruct (Json.dumps v) as [sv|] eqn:Ev; [|discriminate]. cbn [bind].
        fold members. destruct (members d) as [r|] eqn:Er; [|discriminate].
        intros [= <-]. constructor; [|apply IH; reflexivity].
        apply plain_app. split; [apply encode_string_plain|].
        apply plain_app. split; [reflexivity | apply Hx; exact Ev]. }
    destruct (members d) as [parts|]; [|discriminate]. intros [= <-].
    apply plain_app. split; [reflexivity|].
    apply plain_app. split; [apply join_plain, E; reflexivity | reflexivity].
Qed.

End WireFacts.

(** ** Outcomes of the two encoders *)

Section EncoderFacts.











(** X11. The payload [to_gprp_format] returns is printable ASCII: no
    control character and no character beyond the tilde reaches the
    publisher, whatever the gateway id, the topic and the device address
    hold. *)
Theorem to_gprp_format_plain (ev : BLEMessage) (gateway_mac topic s : string) :
  to_gprp_format ev gateway_mac topic = Ok s -> Wire.plain s.
Proof.
  unfold to_gprp_format. intros E.
  destruct (_reconstruct_advertising_data ev) as [b|]; [|discriminate].
  cbn [bind] in E. cbv zeta in E.
  destruct (Float.int_div_1000 (timestamp_ms ev)) as [x|]; [|discriminate].
  cbn [bind] in E. apply (dumps_plain _ _ E).
Qed.

Lemma to_gprp_format_plain_witness :
  to_gprp_format Sample.fixed_event "A1B2C3D4E5F6" "ble/gateway/data"
  = Ok Sample.fixed_envelope
  /\ Wire.plain Sample.fixed_envelope.
Proof.
  assert (E : to_gprp_format Sample.fixed_event "A1B2C3D4E5F6" "ble/gateway/data"
              = Ok Sample.fixed_envelope) by (vm_compute; reflexivity).
  split; [exact E|].
  exact (to_gprp_format_plain Sample.fixed_event "A1B2C3D4E5F6" "ble/gateway/data"
           Sample.fixed_envelope E).
Defined.





(** X13. Only the low sixteen bits of a vendor id reach the record: ids
    that differ by a multiple of 65536, negative ones included, give the
    same bytes, and no id is refused. *)
Theorem add_manufacturer_data_id_mod (packet : bytes) (company_id : Z) (data : bytes) :
  add_manufacturer_data packet (company_id, data)
  = add_manufacturer_data packet (company_id mod 65536, data).
Proof.
  unfold add_manufacturer_data. rewrite !land_high_byte, !land_low_byte.
  replace (company_id mod 65536 mod 256) with (company_id mod 256)
    by (Z.div_mod_to_equations; lia).
  replace (company_id mod 65536 / 256 mod 256) with (company_id / 256 mod 256)
    by (Z.div_mod_to_equations; lia).
  reflexivity.
Qed.

End EncoderFacts.

(** ** From the configuration file to the buffer *)

Section StartupFacts.
Import Config.

(** What the three policy checks leave of a dictionary they accept. *)
Lemma checked_settings (d : pydict string jval) :
  check_policy (VDict d) = Ok tt ->
  (forall v, Dict.get "publish_interval_sec" d = Some v ->
             exists x, as_num v = Some x /\ Num.lt0 x = false)
  /\ (forall v, Dict.get "max_buffer_size" d = Some v ->
                exists n, Startup.as_int v = Some n /\ 1 <= n)
  /\ (forall v, Dict.get "throttle_control" d = Some v -> exists b, v = VBool b).
Proof.
  unfold check_policy.
  rewrite check_publish_interval_spec, check_max_buffer_size_spec,
    check_throttle_control_spec.
  destruct (Dict.get "publish_interval_sec" d) as [v1|].
  - destruct (negb (isinstance_int_float v1) || lt_0 v1) eqn:E1; [discriminate|].
    cbn [bind]. apply orb_false_iff in E1 as [Ei El].
    destruct (Dict.get "max_buffer_size" d) as [v2|].
    + destruct (negb (isinstance_int v2) || lt_1 v2) eqn:E2; [discriminate|].
      cbn [bind]. apply orb_false_iff in E2 as [Ei2 El2].
      destruct (Dict.get "throttle_control" d) as [v3|].
      * destruct (negb (isinstance_bool v3)) eqn:E3; [discriminate|]. intros _.
        split; [|split].
        -- intros v [= <-]. unfold lt_0 in El.
           destruct v1; try discriminate; cbn in *; eexists; split;
             try reflexivity; exact El.
        -- intros v [= <-]. destruct v2 as [ |b|n| | | | ]; try discriminate.
           ++ destruct b; [|discriminate]. exists 1. split; [reflexivity | lia].
           ++ exists n. split; [reflexivity|]. cbn in El2. lia.
        -- intros v [= <-]. destruct v3; try discriminate. eexists. reflexivity.
      * intros _. split; [|split]; [| |discriminate].
        -- intros v [= <-]. unfold lt_0 in El.
           destruct v1; try discriminate; cbn in *; eexists; split;
             try reflexivity; exact El.
        -- intros v [= <-]. destruct v2 as [ |b|n| | | | ]; try discriminate.
           ++ destruct b; [|discriminate]. exists 1. split; [reflexivity | lia].
           ++ exists n. split; [reflexivity|]. cbn in El2. lia.
    + cbn [bind]. destruct (Dict.get "throttle_control" d) as [v3|].
      * destruct (negb (isinstance_bool v3)) eqn:E3; [discriminate|]. intros _.
        split; [|split]; [|discriminate|].
        -- intros v [= <-]. unfold lt_0 in El.
           destruct v1; try discriminate; cbn in *; eexists; split;
             try reflexivity; exact El.
        -- intros v [= <-]. destruct v3; try discriminate. eexists. reflexivity.
      * intros _. split; [|split]; [|discriminate|discriminate].
        intros v [= <-]. unfold lt_0 in El.
        destruct v1; try discriminate; cbn in *; eexists; split;
          try reflexivity; exact El.
  - cbn [bind]. destruct (Dict.get "max_buffer_size" d) as [v2|].
    + destruct (negb (isinstance_int v2) || lt_1 v2) eqn:E2; [discriminate|].
      cbn [bind]. apply orb_false_iff in E2 as [Ei2 El2].
      destruct (Dict.get "throttle_control" d) as [v3|].
      * destruct (negb (isinstance_bool v3)) eqn:E3; [discriminate|]. intros _.
        split; [discriminate|split].
        -- intros v [= <-]. destruct v2 as [ |b|n| | | | ]; try discriminate.
           ++ destruct b; [|discriminate]. exists 1. split; [reflexivity | lia].
           ++ exists n. split; [reflexivity|]. cbn in El2. lia.
        -- intros v [= <-]. destruct v3; try discriminate. eexists. reflexivity.
      * intros _. split; [discriminate|split]; [|discriminate].
        intros v [= <-]. destruct v2 as [ |b|n| | | | ]; try discriminate.
        -- destruct b; [|discriminate]. exists 1. split; [reflexivity | lia].
        -- exists n. split; [reflexivity|]. cbn in El2. lia.
    + cbn [bind]. destruct (Dict.get "throttle_control" d) as [v3|].
      * destruct (negb (isinstance_bool v3)) eqn:E3; [discriminate|]. intros _.
        split; [discriminate|split]; [discriminate|].
        intros v [= <-]. destruct v3; try discriminate. eexists. reflexivity.
      * intros _. split; [discriminate|split]; discriminate.
Qed.

Lemma load_config_checked (c c' : jval) :
  load_config (Parsed c) = Ok c' -> c' = c /\ check_policy c = Ok tt /\ check_mqtt c = Ok tt.
Proof.
  unfold load_config.
  destruct (check_policy c) as [[]|]; [|discriminate]. cbn [bind].
  destruct (check_mqtt c) as [[]|]; [|discriminate]. cbn [bind].
  intros [= <-]. repeat split.
Qed.

End StartupFacts.

Section LoadConfigFacts.
Import Config.

(** The checks on the [mqtt] section, for a section that is a dictionary. *)
Lemma check_mqtt_dict (d m : pydict string jval) :
  Dict.get "mqtt" d = Some (VDict m) ->
  (check_mqtt (VDict d) = Ok tt
   <-> Dict.mem "broker" m = true
       /\ (forall v, Dict.get "topic" m = Some v ->
                     exists s, v = VStr s /\ s <> EmptyString)
       /\ (forall v, Dict.get "client_id" m = Some v ->
                     exists s, v = VStr s /\ s <> EmptyString
                               /\ Z.of_nat (String.length s) <= MAX_CLIENT_ID_LENGTH)).
Proof.
  intros Hm. unfold check_mqtt. cbn [get_default bind]. rewrite Hm.
  destruct m as [|kv m'] eqn:Em.
  { cbn. split; [discriminate | intros [H0 _]; discriminate]. }
  rewrite <- Em. replace (truthy (VDict m)) with true by (subst m; reflexivity).
  cbn [negb contains get_default bind].
  destruct (Dict.mem "broker" m); cbn [negb].
  2:{ split; [discriminate | intros [H0 _]; discriminate]. }
  destruct (Dict.get "topic" m) as [t|].
  - destruct t as [ |b|n|f|s|l|o];
      try (split; [cbn; try destruct b; try destruct (negb (n =? 0));
                   try destruct (negb (Float.is_zero f)); try destruct l;
                   try destruct o; cbn; discriminate
                  | intros (_ & Ht & _); destruct (Ht _ eq_refl) as (s' & [=] & _)]).
    destruct s as [|a s].
    { split; [discriminate|]. intros (_ & Ht & _).
      destruct (Ht _ eq_refl) as (s' & [= <-] & Hne). contradiction. }
    cbn [truthy isinstance_str negb orb].
    destruct (Dict.get "client_id" m) as [c|].
    + destruct c as [ |b|n|f|s'|l|o];
        try (split; [cbn; try destruct b; try destruct (negb (n =? 0));
                     try destruct (negb (Float.is_zero f)); try destruct l;
                     try destruct o; cbn; discriminate
                    | intros (_ & _ & Hc); destruct (Hc _ eq_refl) as (s'' & [=] & _)]).
      destruct s' as [|a' s'].
      { split; [discriminate|]. intros (_ & _ & Hc).
        destruct (Hc _ eq_refl) as (s'' & [= <-] & Hne & _). contradiction. }
      cbn [truthy isinstance_str negb orb str_len].
      destruct (Z.ltb_spec MAX_CLIENT_ID_LENGTH (Z.of_nat (String.length (String a' s')))).
      * split; [discriminate|]. intros (_ & _ & Hc).
        destruct (Hc _ eq_refl) as (s'' & [= <-] & _ & Hlen). lia.
      * split; [|reflexivity]. intros _. split; [reflexivity|]. split.
        -- intros v [= <-]. eexists. split; [reflexivity | discriminate].
        -- intros v [= <-]. eexists. split; [reflexivity|]. split; [discriminate | lia].
    + cbn. split; [|reflexivity]. intros _. split; [reflexivity|]. split.
      * intros v [= <-]. eexists. split; [reflexivity | discriminate].
      * discriminate.
  - cbn [truthy isinstance_str negb orb DEFAULT_TOPIC].
    destruct (Dict.get "client_id" m) as [c|].
    + destruct c as [ |b|n|f|s'|l|o];
        try (split; [cbn; try destruct b; try destruct (negb (n =? 0));
                     try destruct (negb (Float.is_zero f)); try destruct l;
                     try destruct o; cbn; discriminate
                    | intros (_ & _ & Hc); destruct (Hc _ eq_refl) as (s'' & [=] & _)]).
      destruct s' as [|a' s'].
      { split; [discriminate|]. intros (_ & _ & Hc).
        destruct (Hc _ eq_refl) as (s'' & [= <-] & Hne & _). contradiction. }
      cbn [truthy isinstance_str negb orb str_len].
      destruct (Z.ltb_spec MAX_CLIENT_ID_LENGTH (Z.of_nat (String.length (String a' s')))).
      * split; [discriminate|]. intros (_ & _ & Hc).
        destruct (Hc _ eq_refl) as (s'' & [= <-] & _ & Hlen). lia.
      * split; [|reflexivity]. intros _. split; [reflexivity|]. split.
        -- discriminate.
        -- intros v [= <-]. eexists. split; [reflexivity|]. split; [discriminate | lia].
    + cbn. split; [|reflexivity]. intros _. split; [reflexivity|]. split; discriminate.
Qed.

(** A section that is not a dictionary never passes the checks. *)
Lemma check_mqtt_not_dict (d : pydict string jval) (v : jval) :
  Dict.get "mqtt" d = Some v -> check_mqtt (VDict d) = Ok tt ->
  exists m, v = VDict m.
Proof.
  intros Hm. unfold check_mqtt. cbn [get_default bind]. rewrite Hm.
  destruct v as [ |b|n|f|s|l|o]; try (cbn; discriminate).
  - destruct b; cbn; discriminate.
  - destruct (truthy (VInt n)); cbn; discriminate.
  - destruct (truthy (VFloat f)); cbn; discriminate.
  - destruct (truthy (VStr s)); cbn [negb]; [|discriminate].
    cbn [contains bind]. destruct (Str.contains "broker" s); cbn; discriminate.
  - destruct (truthy (VList l)); cbn [negb]; [|discriminate].
    cbn [contains bind]. destruct (existsb (is_str "broker") l); cbn; discriminate.
  - intros _. eexists. reflexivity.
Qed.

(** X14. What [load_config] accepts, exactly: a JSON object that meets
    the three policy constraints and whose [mqtt] member is an object with
    a [broker], with a non-empty string for [topic] and for [client_id]
    where they are given, the latter of at most 128 characters.  The
    configuration is returned as it was read. *)
Theorem load_config_accepts (c c' : jval) :
  load_config (Parsed c) = Ok c'
  <-> c' = c
      /\ exists d m,
           c = VDict d
           /\ ~ Spec.bad_policy d
           /\ Dict.get "mqtt" d = Some (VDict m)
           /\ Dict.mem "broker" m = true
           /\ (forall v, Dict.get "topic" m = Some v ->
                         exists s, v = VStr s /\ s <> EmptyString)
           /\ (forall v, Dict.get "client_id" m = Some v ->
                         exists s, v = VStr s /\ s <> EmptyString
                                   /\ Z.of_nat (String.length s) <= MAX_CLIENT_ID_LENGTH).
Proof.
  split.
  - intros H. destruct (load_config_checked c c' H) as (-> & Hp & Hm).
    split; [reflexivity|].
    destruct c as [ | | | | | |d]; try (cbn in Hm; discriminate).
    assert (Hget : exists v, Dict.get "mqtt" d = Some v).
    { unfold check_mqtt in Hm. cbn [get_default bind] in Hm.
      destruct (Dict.get "mqtt" d) as [v|]; [eexists; reflexivity|].
      cbn in Hm. discriminate. }
    destruct Hget as (v & Hv).
    destruct (check_mqtt_not_dict d v Hv Hm) as (m & ->).
    exists d, m. split; [reflexivity|]. split.
    + intros Hbad. rewrite (proj1 (check_policy_spec d) Hbad) in Hp. discriminate.
    + split; [exact Hv|]. apply (check_mqtt_dict d m Hv), Hm.
  - intros (-> & d & m & -> & Hp & Hv & Hrest).
    unfold load_config. rewrite (proj2 (check_policy_spec d) Hp). cbn [bind].
    rewrite (proj2 (check_mqtt_dict d m Hv) Hrest). reflexivity.
Qed.

End LoadConfigFacts.

Section BufferOfConfig.
Import Config.

Lemma startup_get (key : string) (default : jval) (d : pydict string jval) :
  Startup.get key default d
  = match Dict.get key d with Some v => v | None => default end.
Proof. reflexivity. Qed.

(** The buffer built from settings that passed the policy checks. *)
Lemma message_buffer_checked (d : pydict string jval) (now : spec_float) :
  check_policy (VDict d) = Ok tt ->
  exists b,
    Startup.message_buffer d now = Some b
    /\ MessageBuffer.wf b
    /\ MessageBuffer.pending b = []
    /\ 1 <= MessageBuffer.max_buffer_size b
    /\ Num.lt0 (MessageBuffer.publish_interval_sec b) = false
    /\ MessageBuffer.last_flush_time b = now.
Proof.
  intros Hp. destruct (checked_settings d Hp) as (Hi & Hs & Ht).
  unfold Startup.message_buffer. rewrite !startup_get.
  assert (Ei : exists x,
             as_num (match Dict.get "publish_interval_sec" d with
                     | Some v => v | None => DEFAULT_PUBLISH_INTERVAL end) = Some x
             /\ Num.lt0 x = false).
  { destruct (Dict.get "publish_interval_sec" d) as [v|];
      [apply Hi; reflexivity | eexists; split; reflexivity]. }
  assert (Es : exists n,
             Startup.as_int (match Dict.get "max_buffer_size" d with
                             | Some v => v | None => DEFAULT_MAX_BUFFER_SIZE end) = Some n
             /\ 1 <= n).
  { destruct (Dict.get "max_buffer_size" d) as [v|];
      [apply Hs; reflexivity | eexists; split; [reflexivity | cbn; lia]]. }
  assert (Et : exists c,
             Startup.as_bool (match Dict.get "throttle_control" d with
                              | Some v => v | None => DEFAULT_THROTTLE_CONTROL end) = Some c).
  { destruct (Dict.get "throttle_control" d) as [v|]; [|eexists; reflexivity].
    destruct (Ht v eq_refl) as (c & ->). eexists. reflexivity. }
  destruct Ei as (x & -> & Hx), Es as (n & -> & Hn), Et as (c & ->).
  eexists. split; [reflexivity|]. split; [apply init_wf|].
  split; [apply init_pending|]. repeat split; assumption.
Qed.

(** X15. The buffer [BluetoothGateway.__init__] builds from a
    configuration that [load_config] accepted is well-formed and empty,
    holds at least one message before a flush is forced
    ([max_buffer_size] is one or more) and has no negative publish
    interval; a setting left out takes its default. *)
Theorem message_buffer_of_loaded_config (d : pydict string jval) (c' : jval)
    (now : spec_float) :
  load_config (Parsed (VDict d)) = Ok c' ->
  exists b,
    Startup.message_buffer d now = Some b
    /\ MessageBuffer.wf b
    /\ MessageBuffer.pending b = []
    /\ 1 <= MessageBuffer.max_buffer_size b
    /\ Num.lt0 (MessageBuffer.publish_interval_sec b) = false
    /\ MessageBuffer.last_flush_time b = now.
Proof.
  intros H. destruct (load_config_checked _ _ H) as (_ & Hp & _).
  apply message_buffer_checked, Hp.
Qed.

Lemma message_buffer_of_loaded_config_witness :
  load_config (Parsed (VDict Sample.good_config)) = Ok (VDict Sample.good_config)
  /\ exists b,
       Startup.message_buffer Sample.good_config Sample.t0 = Some b
       /\ MessageBuffer.wf b
       /\ MessageBuffer.pending b = []
       /\ 1 <= MessageBuffer.max_buffer_size b
       /\ Num.lt0 (MessageBuffer.publish_interval_sec b) = false
       /\ MessageBuffer.last_flush_time b = Sample.t0.
Proof.
  split; [exact load_good_config|].
  exact (message_buffer_of_loaded_config Sample.good_config
           (VDict Sample.good_config) Sample.t0 load_good_config).
Defined.

Lemma overridden_size (d : pydict string jval) (publish_interval : option spec_float)
    (no_throttle : bool) (n : Z) :
  n <> 0 ->
  Dict.get "max_buffer_size"
    (Main.apply_overrides d publish_interval no_throttle (Some n))
  = Some (VInt n).
Proof.
  intros Hn. unfold Main.apply_overrides. cbv zeta.
  destruct (Z.eqb_spec n 0); [contradiction|]. cbn [negb].
  apply get_setitem_eq.
Qed.

Lemma overridden_interval (d : pydict string jval)
    (publish_interval : option spec_float) (no_throttle : bool)
    (buffer_size : option Z) :
  Dict.get "publish_interval_sec"
    (Main.apply_overrides d publish_interval no_throttle buffer_size)
  = match publish_interval with
    | Some f => Some (VFloat f)
    | None => Dict.get "publish_interval_sec" d
    end.
Proof.
  unfold Main.apply_overrides. cbv zeta.
  assert (E1 : forall c, Dict.get "publish_interval_sec"
                 (match buffer_size with
                  | Some n => if negb (n =? 0)
                              then Dict.setitem "max_buffer_size" (VInt n) c else c
                  | None => c
                  end) = Dict.get "publish_interval_sec" c).
  { intros c. destruct buffer_size as [n|]; [|reflexivity].
    destruct (negb (n =? 0)); [|reflexivity].
    apply get_setitem_ne. discriminate. }
  rewrite E1.
  assert (E2 : forall c, Dict.get "publish_interval_sec"
                 (if no_throttle
                  then Dict.setitem "throttle_control" (VBool false) c else c)
               = Dict.get "publish_interval_sec" c).
  { intros c. destruct no_throttle; [|reflexivity].
    apply get_setitem_ne. discriminate. }
  rewrite E2. destruct publish_interval; [apply get_setitem_eq | reflexivity].
Qed.

Lemma overridden_throttle (d : pydict string jval)
    (publish_interval : option spec_float) (no_throttle : bool)
    (buffer_size : option Z) :
  Dict.get "throttle_control"
    (Main.apply_overrides d publish_interval no_throttle buffer_size)
  = if no_throttle then Some (VBool false) else Dict.get "throttle_control" d.
Proof.
  unfold Main.apply_overrides. cbv zeta.
  assert (E1 : forall c, Dict.get "throttle_control"
                 (match buffer_size with
                  | Some n => if negb (n =? 0)
                              then Dict.setitem "max_buffer_size" (VInt n) c else c
                  | None => c
                  end) = Dict.get "throttle_control" c).
  { intros c. destruct buffer_size as [n|]; [|reflexivity].
    destruct (negb (n =? 0)); [|reflexivity].
    apply get_setitem_ne. discriminate. }
  rewrite E1. destruct no_throttle.
  - apply get_setitem_eq.
  - destruct publish_interval; [|reflexivity]. apply get_setitem_ne. discriminate.
Qed.

(** X16. The overrides of the command line are applied after
    [load_config] and are not checked again.  A negative [--buffer-size]
    on a configuration that was accepted gives a configuration that
    [load_config] would refuse, and the gateway's buffer takes the
    negative limit, so that with a publish interval other than zero a
    flush is due at every poll.  A [--buffer-size] of zero is ignored. *)
Theorem overrides_are_not_validated (d : pydict string jval) (c' : jval)
    (publish_interval : option spec_float) (no_throttle : bool) (n : Z)
    (now : spec_float) :
  load_config (Parsed (VDict d)) = Ok c' -> n < 0 ->
  let d' := Main.apply_overrides d publish_interval no_throttle (Some n) in
  load_config (Parsed (VDict d')) = Raise ValueError
  /\ Main.apply_overrides d publish_interval no_throttle (Some 0)
     = Main.apply_overrides d publish_interval no_throttle None
  /\ exists b,
       Startup.message_buffer d' now = Some b
       /\ MessageBuffer.max_buffer_size b = n
       /\ (Num.eq0 (MessageBuffer.publish_interval_sec b) = false ->
           forall t, MessageBuffer.should_flush b t = true).
Proof.
  intros H Hn d'. destruct (load_config_checked _ _ H) as (_ & Hp & _).
  destruct (checked_settings d Hp) as (Hi & _ & Ht).
  assert (Hsize : Dict.get "max_buffer_size" d' = Some (VInt n))
    by (apply overridden_size; lia).
  split; [|split; [reflexivity|]].
  - unfold load_config.
    assert (Hbad : Spec.bad_policy d').
    { right. left. exists (VInt n). split; [exact Hsize|].
      intros [(k & [= <-] & Hk) | [=]]. lia. }
    rewrite (proj1 (check_policy_spec d') Hbad). reflexivity.
  - unfold Startup.message_buffer. rewrite !startup_get, Hsize.
    subst d'. rewrite overridden_interval, overridden_throttle.
    assert (Ei : exists x,
               as_num (match (match publish_interval with
                              | Some f => Some (VFloat f)
                              | None => Dict.get "publish_interval_sec" d
                              end) with
                       | Some v => v | None => DEFAULT_PUBLISH_INTERVAL end) = Some x).
    { destruct publish_interval; [eexists; reflexivity|].
      destruct (Dict.get "publish_interval_sec" d) as [v|];
        [|eexists; reflexivity].
      destruct (Hi v eq_refl) as (x & Hx & _). exists x. exact Hx. }
    assert (Et : exists c,
               Startup.as_bool
                 (match (if no_throttle then Some (VBool false)
                         else Dict.get "throttle_control" d) with
                  | Some v => v | None => DEFAULT_THROTTLE_CONTROL end) = Some c).
    { destruct no_throttle; [eexists; reflexivity|].
      destruct (Dict.get "throttle_control" d) as [v|]; [|eexists; reflexivity].
      destruct (Ht v eq_refl) as (c & ->). eexists. reflexivity. }
    destruct Ei as (x & ->), Et as (c & ->). cbn [Startup.as_int].
    eexists. split; [reflexivity|]. split; [reflexivity|].
    intros H0 t. unfold MessageBuffer.should_flush.
    cbn [MessageBuffer.init MessageBuffer.publish_interval_sec
           MessageBuffer.max_buffer_size] in *.
    rewrite H0. rewrite size_pending, init_pending. cbn [length].
    destruct (Z.leb_spec n (Z.of_nat 0)); [reflexivity | lia].
Qed.

Lemma overrides_are_not_validated_witness :
  load_config (Parsed (VDict Sample.good_config)) = Ok (VDict Sample.good_config)
  /\ -1 < 0
  /\ load_config
       (Parsed (VDict (Main.apply_overrides Sample.good_config None false (Some (-1)))))
     = Raise ValueError.
Proof.
  split; [exact load_good_config|]. split; [reflexivity|].
  exact (proj1 (overrides_are_not_validated Sample.good_config
                  (VDict Sample.good_config) None false (-1) Sample.t0
                  load_good_config eq_refl)).
Defined.

End BufferOfConfig.

(** ** The filter built at start-up *)

Section FilterOfConfig.
Import PayloadFilter.
Variable int_base16 : string -> result Z.

Lemma set_or_none_in `{Countable A} (x : A) (l : list A) :
  Spec.in_set x (Startup.set_or_none l) <-> x ∈ l.
Proof.
  unfold Spec.in_set, Startup.set_or_none. cbv zeta.
  destruct (decide ((list_to_set l : gset A) = ∅)) as [He|Hne].
  - split; [intros (g & [=] & _)|]. intros Hx.
    assert (Hin : x ∈ (list_to_set l : gset A)) by (apply elem_of_list_to_set, Hx).
    rewrite He in Hin. exfalso. revert Hin. apply not_elem_of_empty.
  - split.
    + intros (g & [= <-] & Hx). apply elem_of_list_to_set in Hx. exact Hx.
    + intros Hx. eexists. split; [reflexivity|]. apply elem_of_list_to_set, Hx.
Qed.

Lemma set_or_none_configured `{Countable A} (l : list A) :
  Spec.configured (Startup.set_or_none l) <-> l <> [].
Proof.
  unfold Spec.configured, Startup.set_or_none. cbv zeta.
  destruct (decide ((list_to_set l : gset A) = ∅)) as [He|Hne].
  - split; [intros (g & [=] & _)|]. intros Hl. destruct l as [|x l]; [contradiction|].
    assert (Hin : x ∈ (list_to_set (x :: l) : gset A))
      by (apply elem_of_list_to_set, elem_of_cons; left; reflexivity).
    rewrite He in Hin. exfalso. revert Hin. apply not_elem_of_empty.
  - split.
    + intros _ ->. apply Hne. reflexivity.
    + intros _. eexists. split; [reflexivity | exact Hne].
Qed.

Lemma parse_ids_loop (l : list jval) (acc parsed : gset Z) :
  for_each (Startup.parse_id int_base16) l acc = Ok parsed ->
  forall mid, mid ∈ parsed
              <-> mid ∈ acc \/ exists v, v ∈ l /\ Startup.names_id int_base16 v mid.
Proof.
  revert acc. induction l as [|v l IH]; intros acc.
  - intros [= <-] mid. split; [tauto|]. intros [H0|(v & Hv & _)]; [exact H0|].
    inversion Hv.
  - cbn [for_each]. destruct (Startup.parse_id int_base16 acc v) as [acc'|] eqn:Ev;
      [|discriminate]. cbn [bind]. intros Hl mid. rewrite (IH acc' Hl mid).
    assert (Hacc : mid ∈ acc' <-> mid ∈ acc \/ Startup.names_id int_base16 v mid).
    { unfold Startup.parse_id in Ev. destruct v as [ |b|n|f|s|l'|o]; try discriminate.
      - injection Ev as <-. rewrite elem_of_union, elem_of_singleton. reflexivity.
      - injection Ev as <-. rewrite elem_of_union, elem_of_singleton. reflexivity.
      - cbn [Startup.names_id]. destruct (int_base16 s) as [k|]; [|discriminate].
        injection Ev as <-. rewrite elem_of_union, elem_of_singleton.
        split; (intros [H0|H0]; [left; exact H0 | right; congruence]). }
    rewrite Hacc. split.
    + intros [[H0|H0]|(x & Hx & Hn)].
      * left. exact H0.
      * right. exists v. split; [apply elem_of_cons; left; reflexivity | exact H0].
      * right. exists x. split; [apply elem_of_cons; right; exact Hx | exact Hn].
    + intros [H0|(x & Hx & Hn)]; [left; left; exact H0|].
      apply elem_of_cons in Hx as [->|Hx].
      * left. right. exact Hn.
      * right. exists x. split; assumption.
Qed.

Lemma parse_ids_in (ids : list jval) (r : option (gset Z)) (mid : Z) :
  Startup._parse_manufacturer_ids int_base16 ids = Ok r ->
  (Spec.in_set mid r
   <-> exists v, v ∈ ids /\ Startup.names_id int_base16 v mid).
Proof.
  unfold Startup._parse_manufacturer_ids, Spec.in_set. destruct ids as [|v ids].
  - intros [= <-]. split; [intros (g & [=] & _) | intros (v & Hv & _); inversion Hv].
  - destruct (for_each _ _ _) as [parsed|] eqn:E; [|discriminate]. cbn [bind].
    intros [= <-]. pose proof (parse_ids_loop _ _ _ E mid) as Hm. split.
    + intros (g & [= <-] & Hin). apply Hm in Hin as [H0|H0]; [|exact H0].
      exfalso. revert H0. apply not_elem_of_empty.
    + intros Hex. eexists. split; [reflexivity|]. apply Hm. right. exact Hex.
Qed.

Lemma parse_ids_configured (ids : list jval) (r : option (gset Z)) :
  Startup._parse_manufacturer_ids int_base16 ids = Ok r ->
  (Spec.configured r <-> ids <> []).
Proof.
  unfold Startup._parse_manufacturer_ids, Spec.configured. destruct ids as [|v ids].
  - intros [= <-]. split; [intros (g & [=] & _) | contradiction].
  - destruct (for_each _ _ _) as [parsed|] eqn:E; [|discriminate]. cbn [bind].
    intros [= <-]. split; [discriminate|]. intros _. eexists. split; [reflexivity|].
    cbn [for_each] in E.
    destruct (Startup.parse_id int_base16 ∅ v) as [acc|] eqn:Ev; [|discriminate].
    cbn [bind] in E.
    assert (Hx : exists x, x ∈ acc).
    { unfold Startup.parse_id in Ev. destruct v as [ |b|n|f|s|l'|o]; try discriminate.
      - injection Ev as <-. eexists. apply elem_of_union. right.
        apply elem_of_singleton. reflexivity.
      - injection Ev as <-. eexists. apply elem_of_union. right.
        apply elem_of_singleton. reflexivity.
      - destruct (int_base16 s) as [k|]; [|discriminate]. injection Ev as <-.
        eexists. apply elem_of_union. right. apply elem_of_singleton. reflexivity. }
    destruct Hx as (x & Hx). intros He.
    assert (Hin : x ∈ parsed) by (apply (parse_ids_loop _ _ _ E x); left; exact Hx).
    rewrite He in Hin. revert Hin. apply not_elem_of_empty.
Qed.

(** X17. The filter [BluetoothGateway.__init__] builds from the four
    whitelists of the configuration compares addresses without regard to
    case, on both sides.  An advertisement is accepted exactly when all
    four lists are empty, or the device address equals a listed one up to
    case, or the device has a non-empty name that is listed, or one of its
    vendor ids is the value of a listed entry, or one of its service ids
    is listed. *)
Theorem payload_filter_of_config (mac_whitelist name_whitelist : list string)
    (manufacturer_id_whitelist : list jval) (service_uuid_whitelist : list string)
    (f : PayloadFilter.t) (device : Bleak.BLEDevice)
    (advertisement : Bleak.AdvertisementData) :
  Startup.payload_filter int_base16 mac_whitelist name_whitelist
    manufacturer_id_whitelist service_uuid_whitelist = Ok f ->
  (should_accept f device advertisement = true
   <-> (mac_whitelist = [] /\ name_whitelist = []
        /\ manufacturer_id_whitelist = [] /\ service_uuid_whitelist = [])
       \/ (exists a, a ∈ mac_whitelist
                     /\ Str.upper a = Str.upper (Bleak.address device))
       \/ (exists n, Bleak.name device = Some n /\ n <> EmptyString
                     /\ n ∈ name_whitelist)
       \/ (exists mid v, mid ∈ Dict.keys (Bleak.manufacturer_data advertisement)
                         /\ v ∈ manufacturer_id_whitelist
                         /\ Startup.names_id int_base16 v mid)
       \/ (exists uuid, uuid ∈ Bleak.service_uuids advertisement
                        /\ uuid ∈ service_uuid_whitelist)).
Proof.
  unfold Startup.payload_filter. cbv zeta.
  destruct (Startup._parse_manufacturer_ids int_base16 manufacturer_id_whitelist)
    as [ids|] eqn:Eids; [|discriminate].
  cbn [bind]. intros [= <-].
  rewrite should_accept_exact.
  unfold Spec.some_configured, Spec.accept_criteria_exact.
  cbn [PayloadFilter.mac_whitelist PayloadFilter.name_whitelist
         PayloadFilter.manufacturer_id_whitelist PayloadFilter.service_uuid_whitelist].
  rewrite !set_or_none_configured, (parse_ids_configured _ _ Eids).
  rewrite !set_or_none_in.
  assert (Hmac : Str.upper (Bleak.address device) ∈ map Str.upper mac_whitelist
                 <-> exists a, a ∈ mac_whitelist
                               /\ Str.upper a = Str.upper (Bleak.address device)).
  { rewrite list_elem_of_fmap. split; intros (a & H1 & H2); exists a; [split|split];
      try assumption; congruence. }
  assert (Hname : (exists n, Bleak.name device = Some n /\ n <> EmptyString
                             /\ Spec.in_set n (Startup.set_or_none name_whitelist))
                  <-> exists n, Bleak.name device = Some n /\ n <> EmptyString
                                /\ n ∈ name_whitelist).
  { split; intros (n & H1 & H2 & H3); exists n; repeat split; try assumption;
      apply set_or_none_in; exact H3. }
  assert (Hid : (exists mid, mid ∈ Dict.keys (Bleak.manufacturer_data advertisement)
                             /\ Spec.in_set mid ids)
                <-> exists mid v, mid ∈ Dict.keys (Bleak.manufacturer_data advertisement)
                                  /\ v ∈ manufacturer_id_whitelist
                                  /\ Startup.names_id int_base16 v mid).
  { split.
    - intros (mid & H1 & H2). apply (parse_ids_in _ _ _ Eids) in H2 as (v & Hv & Hn).
      exists mid, v. auto.
    - intros (mid & v & H1 & H2 & H3). exists mid. split; [exact H1|].
      apply (parse_ids_in _ _ _ Eids). exists v. auto. }
  assert (Huuid : (exists uuid, uuid ∈ Bleak.service_uuids advertisement
                                /\ Spec.in_set uuid
                                     (Startup.set_or_none service_uuid_whitelist))
                  <-> exists uuid, uuid ∈ Bleak.service_uuids advertisement
                                   /\ uuid ∈ service_uuid_whitelist).
  { split; intros (u & H1 & H2); exists u; split; try assumption;
      apply set_or_none_in; exact H2. }
  rewrite Hmac, Hname, Hid, Huuid.
  assert (Hnone : ~ (map Str.upper mac_whitelist <> [] \/ name_whitelist <> []
                     \/ manufacturer_id_whitelist <> [] \/ service_uuid_whitelist <> [])
                  <-> mac_whitelist = [] /\ name_whitelist = []
                      /\ manufacturer_id_whitelist = [] /\ service_uuid_whitelist = []).
  { destruct mac_whitelist, name_whitelist, manufacturer_id_whitelist,
      service_uuid_whitelist; cbn [map]; split;
      try (intros H0; repeat split; reflexivity);
      try (intros H0; exfalso; apply H0; auto; fail);
      try (intros (H1 & H2 & H3 & H4); discriminate);
      intros _ [H0|[H0|[H0|H0]]]; apply H0; reflexivity. }
  rewrite Hnone. reflexivity.
Qed.

End FilterOfConfig.

Lemma payload_filter_of_config_witness :
  Startup.payload_filter (fun _ => Raise ValueError) ["aa:bb:cc:dd:ee:ff"] [] [] []
  = Ok {| PayloadFilter.mac_whitelist :=
            Startup.set_or_none (map Str.upper ["aa:bb:cc:dd:ee:ff"]);
          PayloadFilter.name_whitelist := Startup.set_or_none [];
          PayloadFilter.manufacturer_id_whitelist := None;
          PayloadFilter.service_uuid_whitelist := Startup.set_or_none [] |}
  /\ PayloadFilter.should_accept
       {| PayloadFilter.mac_whitelist :=
            Startup.set_or_none (map Str.upper ["aa:bb:cc:dd:ee:ff"]);
          PayloadFilter.name_whitelist := Startup.set_or_none [];
          PayloadFilter.manufacturer_id_whitelist := None;
          PayloadFilter.service_uuid_whitelist := Startup.set_or_none [] |}
       Cases.beacon Sample.plain_adv = true.
Proof.
  split; [reflexivity|].
  apply (proj2 (payload_filter_of_config (fun _ => Raise ValueError)
                  ["aa:bb:cc:dd:ee:ff"] [] [] [] _ Cases.beacon Sample.plain_adv
                  eq_refl)).
  right. left. exists "aa:bb:cc:dd:ee:ff".
  split; [apply elem_of_cons; left; reflexivity | reflexivity].
Defined.

(** ** The gateway id *)

Section GatewayId.

Lemma chars_app (s t : string) :
  list_ascii_of_string (s +:+ t) = list_ascii_of_string s ++ list_ascii_of_string t.
Proof. induction s as [|c s IH]; [reflexivity|]. simpl. f_equal. exact IH. Qed.

Lemma string_length_app (s t : string) :
  String.length (s +:+ t) = (String.length s + String.length t)%nat.
Proof. induction s as [|c s IH]; [reflexivity|]. simpl. f_equal. exact IH. Qed.

Lemma append_empty_l (s : string) : EmptyString +:+ s = s.
Proof. reflexivity. Qed.

Lemma upper_app (s t : string) : Str.upper (s +:+ t) = Str.upper s +:+ Str.upper t.
Proof. induction s as [|c s IH]; [reflexivity|]. simpl. rewrite IH. reflexivity. Qed.

Lemma all_chars_app (P : ascii -> bool) (s t : string) :
  Str.all_chars P (s +:+ t) = Str.all_chars P s && Str.all_chars P t.
Proof. unfold Str.all_chars. rewrite chars_app. apply forallb_app. Qed.

Lemma upper_hex_digit_value (d : Z) :
  0 <= d <= 15 ->
  Bytes.digit_value (Str.upper_char (Bytes.hex_digit d)) = Some d
  /\ Spec.is_upper_hex_digit (Str.upper_char (Bytes.hex_digit d)) = true.
Proof.
  intros Hd. rewrite <- (Z2Nat.id d) by lia.
  destruct (Z.to_nat d) as [|k] eqn:E; [split; reflexivity|].
  do 15 (destruct k as [|k]; [split; reflexivity|]). lia.
Qed.

(** The last digit alone, or the digits of the quotient and the last
    digit. *)
Lemma hex_digits_step (fuel : nat) (n : Z) :
  Startup.hex_digits (S fuel) n
  = (if n <? 16 then EmptyString else Startup.hex_digits fuel (n / 16))
      +:+ String (Bytes.hex_digit (n mod 16)) EmptyString.
Proof. reflexivity. Qed.

(** With enough fuel the digits of a number below [16 ^ (k + 1)] are at
    most [k + 1], are upper-case hexadecimal digits once upper-cased, and
    read back as the number. *)
Lemma hex_digits_spec (k : nat) :
  forall (fuel : nat) (n : Z),
    (k <= fuel)%nat -> 0 <= n < 16 ^ Z.of_nat (S k) ->
    let s := Str.upper (Startup.hex_digits (S fuel) n) in
    (String.length s <= S k)%nat
    /\ Str.all_chars Spec.is_upper_hex_digit s = true
    /\ forall acc,
         fold_left Startup.read_digit (list_ascii_of_string s) (Some acc)
         = Some (acc * 16 ^ Z.of_nat (String.length s) + n).
Proof.
  induction k as [|k IH]; intros fuel n Hf Hn s; subst s.
  - change (16 ^ Z.of_nat 1) with 16 in Hn. rewrite hex_digits_step.
    destruct (Z.ltb_spec n 16); [|lia]. rewrite Z.mod_small by lia.
    destruct (upper_hex_digit_value n ltac:(lia)) as (Hv & Hu).
    rewrite append_empty_l.
    cbn [Str.upper String.length list_ascii_of_string fold_left].
    split; [lia|]. split.
    + unfold Str.all_chars. cbn [list_ascii_of_string forallb]. rewrite Hu. reflexivity.
    + intros acc. unfold Startup.read_digit. rewrite Hv.
      change (16 ^ Z.of_nat 1) with 16. f_equal. lia.
  - rewrite hex_digits_step.
    pose proof (Z.mod_pos_bound n 16 ltac:(lia)) as Hmod.
    destruct (upper_hex_digit_value (n mod 16) ltac:(lia)) as (Hv & Hu).
    destruct (Z.ltb_spec n 16) as [Hlt|Hge].
    + rewrite Z.mod_small in * by lia.
      rewrite append_empty_l.
      cbn [Str.upper String.length list_ascii_of_string fold_left].
      split; [lia|]. split.
      * unfold Str.all_chars. cbn [list_ascii_of_string forallb]. rewrite Hu. reflexivity.
      * intros acc. unfold Startup.read_digit. rewrite Hv.
        change (16 ^ Z.of_nat 1) with 16. f_equal. lia.
    + destruct fuel as [|fuel]; [lia|].
      assert (Hq : 0 <= n / 16 < 16 ^ Z.of_nat (S k)).
      { split; [apply Z.div_pos; lia|]. apply Z.div_lt_upper_bound; [lia|].
        replace (16 * 16 ^ Z.of_nat (S k)) with (16 ^ Z.of_nat (S (S k))); [lia|].
        rewrite (Nat2Z.inj_succ (S k)), Z.pow_succ_r by lia. reflexivity. }
      destruct (IH fuel (n / 16) ltac:(lia) Hq) as (Hlen & Hall & Hval).
      rewrite upper_app. cbn [Str.upper].
      set (s' := Str.upper (Startup.hex_digits (S fuel) (n / 16))) in *.
      rewrite string_length_app. cbn [String.length]. split; [lia|]. split.
      * rewrite all_chars_app, Hall. unfold Str.all_chars.
        cbn [list_ascii_of_string forallb]. rewrite Hu. reflexivity.
      * intros acc. rewrite chars_app, fold_left_app, Hval.
        cbn [list_ascii_of_string fold_left]. unfold Startup.read_digit. rewrite Hv.
        f_equal.
        replace (Z.of_nat (String.length s' + 1)) with (Z.succ (Z.of_nat (String.length s')))
          by lia.
        rewrite Z.pow_succ_r by lia.
        pose proof (Z.div_mod n 16 ltac:(lia)). lia.
Qed.

Lemma zeros_spec (k : nat) :
  String.length (Startup.zeros k) = k
  /\ Str.upper (Startup.zeros k) = Startup.zeros k
  /\ Str.all_chars Spec.is_upper_hex_digit (Startup.zeros k) = true
  /\ fold_left Startup.read_digit (list_ascii_of_string (Startup.zeros k)) (Some 0)
     = Some 0.
Proof.
  induction k as [|k (H1 & H2 & H3 & H4)]; [repeat split|].
  cbn [Startup.zeros String.length Str.upper]. split; [f_equal; exact H1|].
  split; [rewrite H2; reflexivity|]. split.
  - unfold Str.all_chars in *. cbn [list_ascii_of_string forallb]. rewrite H3. reflexivity.
  - cbn [list_ascii_of_string fold_left]. exact H4.
Qed.

(** X18. For a node number of 48 bits [get_gateway_mac_address] returns
    twelve upper-case hexadecimal digits that read back as the number:
    the id is the number, zero-padded, and nothing of it is lost. *)
Theorem gateway_mac_address_of_node (mac : Z) :
  0 <= mac < 2 ^ 48 ->
  let s := Startup.get_gateway_mac_address (Ok mac) in
  String.length s = 12%nat
  /\ Str.all_chars Spec.is_upper_hex_digit s = true
  /\ Startup.hex_value s = Some mac.
Proof.
  intros Hmac s. subst s. unfold Startup.get_gateway_mac_address, Startup.format_012x.
  cbv zeta. destruct (Z.ltb_spec mac 0); [lia|]. rewrite Z.abs_eq by lia.
  rewrite append_empty_l. cbn [String.length]. rewrite Nat.sub_0_r.
  set (k := Z.to_nat (Z.log2 mac / 4)).
  assert (Hlog : 0 <= Z.log2 mac <= 47).
  { split; [apply Z.log2_nonneg|].
    destruct (Z.eq_dec mac 0) as [->|Hne]; [cbn; lia|].
    assert (Z.log2 mac < 48); [|lia]. apply Z.log2_lt_pow2; lia. }
  assert (Hdiv : 0 <= Z.log2 mac / 4 <= 11 /\ Z.log2 mac / 4 <= Z.log2 mac)
    by (Z.div_mod_to_equations; lia).
  assert (Hk : (k <= Z.to_nat (Z.log2 mac))%nat) by (subst k; lia).
  assert (Hk11 : (k <= 11)%nat) by (subst k; lia).
  assert (Hn : 0 <= mac < 16 ^ Z.of_nat (S k)).
  { split; [lia|]. change 16 with (2 ^ 4). rewrite <- Z.pow_mul_r by lia.
    destruct (Z.eq_dec mac 0) as [->|Hne].
    - apply Z.pow_pos_nonneg; lia.
    - pose proof (Z.log2_spec mac ltac:(lia)) as [_ Hup].
      eapply Z.lt_le_trans; [exact Hup|].
      apply Z.pow_le_mono_r; [lia|]. subst k.
      rewrite Nat2Z.inj_succ, Z2Nat.id by lia.
      Z.div_mod_to_equations; lia. }
  destruct (hex_digits_spec k (Z.to_nat (Z.log2 mac)) mac Hk Hn) as (Hlen & Hall & Hval).
  rewrite upper_app.
  set (digits := Startup.hex_digits (S (Z.to_nat (Z.log2 mac))) mac) in *.
  assert (Elen : String.length (Str.upper digits) = String.length digits).
  { clear. induction digits as [|c s IH]; [reflexivity|]. cbn. f_equal. exact IH. }
  rewrite Elen in *.
  destruct (zeros_spec (12 - String.length digits)) as (Z1 & Z2 & Z3 & Z4).
  rewrite Z2. split; [|split].
  - rewrite string_length_app, Z1, Elen. lia.
  - rewrite all_chars_app, Z3, Hall. reflexivity.
  - unfold Startup.hex_value. rewrite chars_app, fold_left_app, Z4, Hval. reflexivity.
Qed.

Lemma gateway_mac_address_of_node_witness :
  0 <= 0xA1B2C3D4E5F6 < 2 ^ 48
  /\ Startup.get_gateway_mac_address (Ok 0xA1B2C3D4E5F6) = "A1B2C3D4E5F6"
  /\ Startup.hex_value (Startup.get_gateway_mac_address (Ok 0xA1B2C3D4E5F6))
     = Some 0xA1B2C3D4E5F6.
Proof.
  split; [lia|]. split; [vm_compute; reflexivity|].
  apply (gateway_mac_address_of_node 0xA1B2C3D4E5F6). lia.
Defined.

Lemma upper_clean (s : string) :
  Str.all_chars (fun c => negb (Ascii.eqb c ":")) s = true ->
  Str.all_chars (fun c => negb (Ascii.eqb c ":") && negb (Str.is_lower c))
    (Str.upper s) = true.
Proof.
  unfold Str.all_chars. induction s as [|c s IH]; [reflexivity|].
  cbn [Str.upper list_ascii_of_string forallb]. intros H.
  apply andb_true_iff in H as [Hc Hs]. rewrite (IH Hs), andb_true_r. clear IH Hs.
  revert Hc. unfold Str.upper_char.
  destruct c as [[] [] [] [] [] [] [] []]; vm_compute; congruence.
Qed.

Lemma replace_colon (s : string) :
  Str.all_chars (fun c => negb (Ascii.eqb c ":")) (Str.replace ":" EmptyString s) = true.
Proof.
  unfold Str.all_chars. induction s as [|c s IH]; [reflexivity|].
  cbn [Str.replace]. destruct (Ascii.eqb c ":") eqn:Ec; [exact IH|].
  cbn [list_ascii_of_string forallb]. rewrite Ec, IH. reflexivity.
Qed.

Lemma hex_digit_no_colon (d : Z) :
  0 <= d <= 15 -> Ascii.eqb (Bytes.hex_digit d) ":" = false.
Proof.
  intros Hd. rewrite <- (Z2Nat.id d) by lia.
  destruct (Z.to_nat d) as [|k] eqn:E; [reflexivity|].
  do 15 (destruct k as [|k]; [reflexivity|]). lia.
Qed.

Lemma hex_digits_no_colon (fuel : nat) (n : Z) :
  Str.all_chars (fun c => negb (Ascii.eqb c ":")) (Startup.hex_digits fuel n) = true.
Proof.
  revert n. induction fuel as [|fuel IH]; intros n; [reflexivity|].
  rewrite hex_digits_step, all_chars_app.
  assert (E : Str.all_chars (fun c => negb (Ascii.eqb c ":"))
                (String (Bytes.hex_digit (n mod 16)) EmptyString) = true).
  { unfold Str.all_chars. cbn [list_ascii_of_string forallb].
    rewrite hex_digit_no_colon; [reflexivity|].
    pose proof (Z.mod_pos_bound n 16 ltac:(lia)). lia. }
  rewrite E, andb_true_r. destruct (n <? 16); [reflexivity | apply IH].
Qed.

Lemma zeros_no_colon (k : nat) :
  Str.all_chars (fun c => negb (Ascii.eqb c ":")) (Startup.zeros k) = true.
Proof.
  induction k as [|k IH]; [reflexivity|].
  unfold Str.all_chars in *. cbn [Startup.zeros list_ascii_of_string forallb].
  rewrite IH. reflexivity.
Qed.

(** X19. The gateway id [BluetoothGateway.__init__] settles on holds no
    colon and no lower-case letter, whether it comes from the
    configuration, from the node number or from the fallback. *)
Theorem gateway_mac_clean (configured_mac : option string) (getnode : result Z) :
  Str.all_chars (fun c => negb (Ascii.eqb c ":") && negb (Str.is_lower c))
    (Startup.gateway_mac configured_mac getnode) = true.
Proof.
  assert (Hnode : Str.all_chars
                    (fun c => negb (Ascii.eqb c ":") && negb (Str.is_lower c))
                    (Startup.get_gateway_mac_address getnode) = true).
  { destruct getnode as [mac|e]; [|reflexivity].
    unfold Startup.get_gateway_mac_address, Startup.format_012x. cbv zeta.
    apply upper_clean. rewrite !all_chars_app, hex_digits_no_colon, andb_true_r.
    apply andb_true_iff. split; [destruct (mac <? 0); reflexivity|].
    apply zeros_no_colon. }
  unfold Startup.gateway_mac. destruct configured_mac as [[|c s]|]; try exact Hnode.
  apply upper_clean, replace_colon.
Qed.

End GatewayId.


(** ** Authentication settings *)

Section AuthFacts.
Variable expandvars : string -> string.
Variable st_size : string -> option Z.

Lemma validate_cert_file_ok (file_path : jval) (expanded : string) :
  Auth._validate_cert_file expandvars st_size file_path = Ok expanded ->
  exists p n, file_path = VStr p /\ expanded = expandvars p
              /\ st_size expanded = Some n /\ n <> 0.
Proof.
  unfold Auth._validate_cert_file. destruct file_path as [ | | | |p| | ]; try discriminate.
  cbv zeta. destruct (st_size (expandvars p)) as [n|] eqn:E; [|discriminate].
  destruct (Z.eqb_spec n 0); [discriminate|]. intros [= <-].
  exists p, n. repeat split; assumption.
Qed.

Lemma is_str_eq (k : string) (v : jval) : Config.is_str k v = true -> v = VStr k.
Proof.
  destruct v; try discriminate. cbn. intros H. apply String.eqb_eq in H. congruence.
Qed.

(** X20. Which authentication [MQTTPublisher.__init__] settles on for an
    [mqtt] section.  Mutual TLS is the default: it needs the three
    certificate paths as strings, and each file must exist and hold
    something; user and password need a [credentials] object with a
    [username] that counts as true.  A section without [auth_type] that
    leaves out one of the three paths is a [ValueError], raised before any
    file is looked at. *)
Theorem configure_outcomes (mqtt_config : pydict string jval) :
  match Auth.configure expandvars st_size mqtt_config with
  | Ok (Mtls ca cert key) =>
      Startup.get "auth_type" (VStr "mtls") mqtt_config = VStr "mtls"
      /\ exists p1 p2 p3 n1 n2 n3,
           Dict.get "root_ca_path" mqtt_config = Some (VStr p1)
           /\ Dict.get "cert_path" mqtt_config = Some (VStr p2)
           /\ Dict.get "key_path" mqtt_config = Some (VStr p3)
           /\ ca = expandvars p1 /\ cert = expandvars p2 /\ key = expandvars p3
           /\ st_size ca = Some n1 /\ st_size cert = Some n2 /\ st_size key = Some n3
           /\ n1 <> 0 /\ n2 <> 0 /\ n3 <> 0
  | Ok (UserPass username password) =>
      Dict.get "auth_type" mqtt_config = Some (VStr "userpass")
      /\ Config.truthy username = true
      /\ exists c, Dict.get "credentials" mqtt_config = Some (VDict c)
                   /\ Dict.get "username" c = Some username
  | Ok NoAuth => Dict.get "auth_type" mqtt_config = Some (VStr "none")
  | Raise e =>
      Dict.get "auth_type" mqtt_config = None ->
      Dict.get "root_ca_path" mqtt_config = None
      \/ Dict.get "cert_path" mqtt_config = None
      \/ Dict.get "key_path" mqtt_config = None ->
      e = ValueError
  end.
Proof.
  unfold Auth.configure. cbv zeta.
  destruct (Config.is_str "mtls" (Startup.get "auth_type" (VStr "mtls") mqtt_config))
    eqn:Emtls.
  - apply is_str_eq in Emtls. unfold Auth._configure_mtls.
    destruct (Config.truthy (Startup.get "root_ca_path" VNull mqtt_config)
              && Config.truthy (Startup.get "cert_path" VNull mqtt_config)
              && Config.truthy (Startup.get "key_path" VNull mqtt_config)) eqn:Eall;
      cbn [negb].
    2:{ intros _ _. reflexivity. }
    apply andb_true_iff in Eall as [Eall E3]. apply andb_true_iff in Eall as [E1 E2].
    assert (Hnone : forall key, Config.truthy (Startup.get key VNull mqtt_config) = true ->
                                Dict.get key mqtt_config <> None).
    { intros key. unfold Startup.get. destruct (Dict.get key mqtt_config);
        [discriminate | cbn; discriminate]. }
    destruct (Auth._validate_cert_file _ _ (Startup.get "root_ca_path" VNull mqtt_config))
      as [ca|e1] eqn:V1; cbn [bind].
    2:{ intros _ [H0|[H0|H0]]; exfalso; revert H0; apply Hnone; assumption. }
    destruct (Auth._validate_cert_file _ _ (Startup.get "cert_path" VNull mqtt_config))
      as [cert|e2] eqn:V2; cbn [bind].
    2:{ intros _ [H0|[H0|H0]]; exfalso; revert H0; apply Hnone; assumption. }
    destruct (Auth._validate_cert_file _ _ (Startup.get "key_path" VNull mqtt_config))
      as [key|e3] eqn:V3; cbn [bind].
    2:{ intros _ [H0|[H0|H0]]; exfalso; revert H0; apply Hnone; assumption. }
    split; [exact Emtls|].
    destruct (validate_cert_file_ok _ _ V1) as (p1 & n1 & G1 & -> & S1 & N1).
    destruct (validate_cert_file_ok _ _ V2) as (p2 & n2 & G2 & -> & S2 & N2).
    destruct (validate_cert_file_ok _ _ V3) as (p3 & n3 & G3 & -> & S3 & N3).
    exists p1, p2, p3, n1, n2, n3.
    assert (Hget : forall key p, Startup.get key VNull mqtt_config = VStr p ->
                                 Dict.get key mqtt_config = Some (VStr p)).
    { intros key p. unfold Startup.get. destruct (Dict.get key mqtt_config);
        [congruence | discriminate]. }
    repeat split; auto.
  - assert (Hauth : forall k, Config.is_str k
                                (Startup.get "auth_type" (VStr "mtls") mqtt_config) = true ->
                              k <> "mtls" ->
                              Dict.get "auth_type" mqtt_config = Some (VStr k)).
    { intros k Hk Hne. apply is_str_eq in Hk. unfold Startup.get in Hk.
      destruct (Dict.get "auth_type" mqtt_config); congruence. }
    destruct (Config.is_str "userpass" _) eqn:Eup.
    + unfold Auth._configure_userpass.
      set (credentials := Startup.get "credentials" VNull mqtt_config).
      destruct (Config.truthy credentials) eqn:Et.
      * destruct credentials as [ | | | | | |c] eqn:Ec;
          try (cbn; intros H0; rewrite (Hauth "userpass" Eup ltac:(discriminate)) in H0;
               discriminate).
        cbn [Config.get_default bind].
        destruct (Config.truthy
                    (match Dict.get "username" c with Some x => x | None => VNull end))
          eqn:Eu; cbn [negb].
        -- split; [apply Hauth; [exact Eup | discriminate]|]. split; [exact Eu|].
           exists c. split.
           ++ subst credentials. unfold Startup.get in Ec.
              destruct (Dict.get "credentials" mqtt_config); congruence.
           ++ destruct (Dict.get "username" c); [reflexivity | discriminate].
        -- intros _ _. reflexivity.
      * cbn. intros _ _. reflexivity.
    + destruct (Config.is_str "none" _) eqn:En.
      * apply Hauth; [exact En | discriminate].
      * intros _ _. reflexivity.
Qed.

End AuthFacts.
